(** * Log report pipeline: line parsing, per-source aggregation, merging
      and report rendering.

    A shallow embedding of [src/processors.py], [src/reports.py],
    [src/exceptions.py] and the error mapping of [src/run.py], followed by
    the properties of the pipeline. *)

From Stdlib Require Import String Ascii ZArith NArith List Sorting.Sorted
  Sorting.Permutation DecimalString DecimalPos DecimalZ.
From stdpp Require Import base option list gmap fin_maps.

Open Scope Z_scope.
Open Scope list_scope.

(** ** Text

    A Python [str] is a sequence of Unicode code points. *)

Abbreviation char := N (only parsing).
Abbreviation str := (list N) (only parsing).

(** Code points of an ASCII literal. *)
Definition cp (s : string) : str := map N_of_ascii (list_ascii_of_string s).
Definition chr (a : ascii) : char := N_of_ascii a.

(** The character tables of the Python runtime are not part of the
    repository: outside ASCII they are taken as parameters. *)
Class UnicodeData := {
  uni_isdecimal : char -> bool;   (* str.isdecimal, one code point *)
  uni_isalnum : char -> bool;     (* str.isalnum, one code point *)
  uni_isspace : char -> bool;     (* str.isspace, one code point *)
  uni_lower : str -> str          (* str.lower on text that is not all ASCII *)
}.

(** A runtime whose tables know nothing beyond ASCII, for the examples. *)
Definition ascii_db : UnicodeData :=
  {| uni_isdecimal := fun _ => false;
     uni_isalnum := fun _ => false;
     uni_isspace := fun _ => false;
     uni_lower := fun s => s |}.

Definition between (lo hi c : N) : bool := ((lo <=? c) && (c <=? hi))%N.
Definition is_ascii (c : char) : bool := (c <? 128)%N.

Section Text.
Context {U : UnicodeData}.

(** [\d] *)
Definition is_digit (c : char) : bool :=
  if is_ascii c then between 48 57 c else uni_isdecimal c.

(** [\w] *)
Definition is_word (c : char) : bool :=
  if is_ascii c
  then between 48 57 c || between 65 90 c || between 97 122 c || (c =? 95)%N
  else uni_isalnum c.

(** [\s] *)
Definition is_space (c : char) : bool :=
  if is_ascii c then between 9 13 c || between 28 32 c else uni_isspace c.

(** [[^\s]] *)
Definition not_space (c : char) : bool := negb (is_space c).

(** [.] without DOTALL: anything but a line feed. *)
Definition not_newline (c : char) : bool := negb (c =? 10)%N.

Definition ascii_lower (c : char) : char :=
  if between 65 90 c then (c + 32)%N else c.

(** [str.lower] *)
Definition lower (s : str) : str :=
  if forallb is_ascii s then map ascii_lower s else uni_lower s.

End Text.

(** [str] comparison: lexicographic on code points. *)
Fixpoint str_le (a b : str) : bool :=
  match a, b with
  | [], _ => true
  | _ :: _, [] => false
  | x :: a', y :: b' =>
      if (x <? y)%N then true else if (y <? x)%N then false else str_le a' b'
  end.

(** ** Regular expressions

    The fragment of [re] the two patterns use, with a backtracking matcher
    that lists the ways to match in the order [re] tries them: the first
    element of the list is the match [re] reports. *)

Inductive regex : Type :=
| Eps                              (* the empty text *)
| Lit (c : char)                   (* a literal character *)
| Cls (p : char -> bool)           (* a character class *)
| Cat (r1 r2 : regex)              (* r1 r2 *)
| Alt (r1 r2 : regex)              (* r1|r2 *)
| Star (r : regex)                 (* r*, greedy *)
| Grp (name : string) (r : regex). (* (?P<name>r) *)

(** Named groups matched so far, latest first. *)
Definition captures := list (string * str).

(** A matcher state: the groups and the text still to read. *)
Definition mstate := (captures * str)%type.

Fixpoint group (name : string) (c : captures) : option str :=
  match c with
  | [] => None
  | (n, v) :: c' => if String.eqb n name then Some v else group name c'
  end.

(** Greedy repetition: one more round of [step] first, stopping last.
    A round that reads nothing is not repeated; [fuel] is the length of the
    text, which no sequence of reading rounds exceeds. *)
Fixpoint star_loop (step : mstate -> list mstate) (fuel : nat) (st : mstate)
  : list mstate :=
  match fuel with
  | O => [st]
  | S fuel' =>
      flat_map
        (fun st' =>
           if (length (snd st') <? length (snd st))%nat
           then star_loop step fuel' st' else [])
        (step st) ++ [st]
  end.

Fixpoint exec (r : regex) (st : mstate) : list mstate :=
  match r with
  | Eps => [st]
  | Lit c =>
      match snd st with
      | x :: s' => if (x =? c)%N then [(fst st, s')] else []
      | [] => []
      end
  | Cls p =>
      match snd st with
      | x :: s' => if p x then [(fst st, s')] else []
      | [] => []
      end
  | Cat r1 r2 => flat_map (exec r2) (exec r1 st)
  | Alt r1 r2 => exec r1 st ++ exec r2 st
  | Star r' => star_loop (exec r') (length (snd st)) st
  | Grp name r' =>
      map (fun st' =>
             ((name, firstn (length (snd st) - length (snd st')) (snd st))
                :: fst st', snd st'))
          (exec r' st)
  end.

(** Derived forms. *)
Definition Plus (r : regex) : regex := Cat r (Star r).

Fixpoint Times (n : nat) (r : regex) : regex :=
  match n with
  | O => Eps
  | S n' => Cat r (Times n' r)
  end.

Fixpoint Str' (s : str) : regex :=
  match s with
  | [] => Eps
  | c :: s' => Cat (Lit c) (Str' s')
  end.
Definition Str (s : string) : regex := Str' (cp s).

(** [pattern.match(s)]: anchored at the start, free at the end. *)
Definition re_match (r : regex) (s : str) : option captures :=
  fst <$> head (exec r ([], s)).

(** [pattern.search(s)]: the first start position with a match. *)
Fixpoint re_search (r : regex) (s : str) : option captures :=
  match re_match r s with
  | Some c => Some c
  | None =>
      match s with
      | [] => None
      | _ :: s' => re_search r s'
      end
  end.

(** ** The parser ([LogParser]) *)

Module DjangoLogComponent.
Definition REQUEST : str := cp "django.request".
Definition SECURITY : str := cp "django.security".
Definition CORE : str := cp "django.core.management".
Definition DB : str := cp "django.db.backends".
End DjangoLogComponent.

(** The dictionary [parse_log_line] returns: the four groups of the base
    pattern, and the key [handler] when one was attributed. *)
Record LogData := {
  timestamp : str;
  level : str;
  component : str;
  message : str;
  handler : option str
}.

(** Truth value of an optional text: [None] and the empty text are false. *)
Definition truthy (o : option str) : bool :=
  match o with Some (_ :: _) => true | _ => false end.

(** [a or b] *)
Definition py_or (a b : option str) : option str := if truthy a then a else b.

Section Parser.
Context {U : UnicodeData}.

Definition digits (n : nat) : regex := Times n (Cls is_digit).
Definition spaces : regex := Plus (Cls is_space).

Definition timestamp_re : regex :=
  Cat (digits 4) (Cat (Lit (chr "-")) (Cat (digits 2) (Cat (Lit (chr "-"))
  (Cat (digits 2) (Cat spaces (Cat (digits 2) (Cat (Lit (chr ":"))
  (Cat (digits 2) (Cat (Lit (chr ":")) (Cat (digits 2) (Cat (Lit (chr ","))
  (digits 3)))))))))))).

Definition level_re : regex :=
  Alt (Str "DEBUG") (Alt (Str "INFO") (Alt (Str "WARNING")
  (Alt (Str "ERROR") (Str "CRITICAL")))).

Definition component_re : regex :=
  Cat (Str "django.") (Cat (Plus (Cls is_word))
  (Star (Cat (Lit (chr ".")) (Plus (Cls is_word))))).

Definition message_re : regex := Plus (Cls not_newline).

Definition BASE_PATTERN : regex :=
  Cat (Grp "timestamp" timestamp_re) (Cat spaces
  (Cat (Grp "level" level_re) (Cat spaces
  (Cat (Grp "component" component_re) (Cat (Lit (chr ":"))
  (Cat spaces (Grp "message" message_re))))))).

Definition path_re : regex := Cat (Lit (chr "/")) (Plus (Cls not_space)).

Definition method_re : regex :=
  Alt (Str "GET") (Alt (Str "POST") (Alt (Str "PUT")
  (Alt (Str "DELETE") (Str "PATCH")))).

Definition REQUEST_PATTERN : regex :=
  Alt (Cat method_re (Cat spaces (Grp "handler" path_re)))
      (Cat (Str "Error:") (Cat spaces (Grp "error_handler" path_re))).

(** The handler attributed to a message of the request component. *)
Definition extract_handler (msg : str) : option str :=
  match re_search REQUEST_PATTERN msg with
  | None => None
  | Some request_match =>
      let handler :=
        py_or (group "handler" request_match)
              (group "error_handler" request_match) in
      if truthy handler then handler else None
  end.

Definition parse_log_line (line : str) : option LogData :=
  match re_match BASE_PATTERN line with
  | None => None
  | Some base_match =>
      match group "timestamp" base_match, group "level" base_match,
            group "component" base_match, group "message" base_match with
      | Some t, Some l, Some c, Some m =>
          Some {| timestamp := t; level := l; component := c; message := m;
                  handler :=
                    if decide (c = DjangoLogComponent.REQUEST)
                    then extract_handler m else None |}
      | _, _, _, _ => None  (* every group takes part in every match *)
      end
  end.

End Parser.

(** ** Report rows ([DjangoReportData]) *)

Record DjangoReportData := {
  handler_name : str;
  debug_count : Z;
  info_count : Z;
  warning_count : Z;
  error_count : Z;
  critical_count : Z
}.

Definition STAT_FIELDS : list (DjangoReportData -> Z) :=
  [debug_count; info_count; warning_count; error_count; critical_count].

(** [sum(...)]: from 0, left to right. *)
Definition py_sum (l : list Z) : Z := foldl Z.add 0 l.

Definition create_totals (statistics : list DjangoReportData)
  : DjangoReportData :=
  {| handler_name := [];
     debug_count := py_sum (map debug_count statistics);
     info_count := py_sum (map info_count statistics);
     warning_count := py_sum (map warning_count statistics);
     error_count := py_sum (map error_count statistics);
     critical_count := py_sum (map critical_count statistics) |}.

(** [sorted(l, key=key)]: a stable sort on text keys. *)
Fixpoint insert_by {A} (key : A -> str) (x : A) (l : list A) : list A :=
  match l with
  | [] => [x]
  | y :: l' =>
      if str_le (key x) (key y) then x :: l else y :: insert_by key x l'
  end.

Definition sorted_by {A} (key : A -> str) (l : list A) : list A :=
  foldr (insert_by key) [] l.

(** ** Exceptions ([exceptions.py]) *)

#[local] Set Warnings "-register-all".
Inductive exn : Type :=
| LogProcessingError (msg : str)
| LogFileError (file_path message : str)
| MultipleFilesError (failed_files : list (str * exn)).
#[local] Set Warnings "register-all".

Fixpoint join (sep : str) (l : list str) : str :=
  match l with
  | [] => []
  | [x] => x
  | x :: l' => x ++ sep ++ join sep l'
  end.

(** [str(e)] *)
Fixpoint exn_str (e : exn) : str :=
  match e with
  | LogProcessingError msg => msg
  | LogFileError file_path message =>
      cp "Error processing file " ++ file_path ++ cp ": " ++ message
  | MultipleFilesError failed_files =>
      cp "Errors in multiple files:" ++ [chr "010"] ++
      join [chr "010"]
        (map (fun pe => match pe with
                        | (path, err) => path ++ cp ": " ++ exn_str err
                        end) failed_files)
  end.

(** A computation that returns or raises. *)
Definition result (A : Type) : Type := exn + A.

(** ** The processor ([LogProcessor]) *)

(** Counters of one handler, by [<level>_count]; and the table of all
    handlers.  Both are [defaultdict]s in the source. *)
Abbreviation counters := (gmap (list N) Z).
Abbreviation table := (gmap (list N) (gmap (list N) Z)).

(** [d[handler][level] += count] *)
Definition add_count (d : table) (handler level : str) (count : Z) : table :=
  let levels := default ∅ (d !! handler) in
  <[handler := <[level := default 0 (levels !! level) + count]> levels]> d.

(** What reading a file gives: its lines, or the failure of the read. *)
Inductive read_failure : Type :=
| OSError (msg : str)        (* missing, unreadable, permission denied *)
| OtherError (msg : str).    (* anything else, such as a decoding error *)

Definition file_system : Type := str -> read_failure + list str.

Section Processor.
Context {U : UnicodeData}.

Definition level_key (lvl : str) : str := lower lvl ++ cp "_count".

(** The body of the loop of [_process_single_file]. *)
Definition process_line (handlers_data : table) (line : str) : table :=
  match parse_log_line line with
  | None => handlers_data
  | Some log_data =>
      if decide (component log_data = DjangoLogComponent.REQUEST) then
        match handler log_data with
        | Some h => add_count handlers_data h (level_key (level log_data)) 1
        | None => handlers_data
        end
      else handlers_data
  end.

Definition process_lines (lines : list str) : table :=
  foldl process_line ∅ lines.

Definition _read_logs (fs : file_system) (file_path : str)
  : result (list str) :=
  match fs file_path with
  | inr lines => inr lines
  | inl (OSError e) => inl (LogFileError file_path e)
  | inl (OtherError e) =>
      inl (LogProcessingError
             (cp "Unexpected error reading file " ++ file_path ++ cp ": " ++ e))
  end.

Definition _process_single_file (fs : file_system) (file_path : str)
  : result table :=
  match _read_logs fs file_path with
  | inl e => inl e
  | inr lines => inr (process_lines lines)
  end.

End Processor.

(** The two loops of [_merge_results] over one partial result. *)
Definition merge_one (merged partial : table) : table :=
  map_fold
    (fun handler levels acc =>
       map_fold (fun level count acc' => add_count acc' handler level count)
         acc levels)
    merged partial.

Definition merged_data (partial_results : list table) : table :=
  foldl merge_one ∅ partial_results.

(** [levels.get(name, 0)] *)
Definition get0 (levels : counters) (name : string) : Z :=
  default 0 (levels !! cp name).

Definition report_row (item : str * counters) : DjangoReportData :=
  {| handler_name := fst item;
     debug_count := get0 (snd item) "debug_count";
     info_count := get0 (snd item) "info_count";
     warning_count := get0 (snd item) "warning_count";
     error_count := get0 (snd item) "error_count";
     critical_count := get0 (snd item) "critical_count" |}.

(** [sorted(merged_data.items())] orders the pairs by handler: the keys of
    a dictionary are distinct, so the second components are never
    compared. *)
Definition _merge_results (partial_results : list table)
  : list DjangoReportData :=
  map report_row (sorted_by fst (map_to_list (merged_data partial_results))).

(** The list comprehension: one call after the other, stopping at the first
    that raises. *)
Fixpoint map_seq {A B} (f : A -> result B) (l : list A) : result (list B) :=
  match l with
  | [] => inr []
  | x :: l' =>
      match f x with
      | inl e => inl e
      | inr y =>
          match map_seq f l' with
          | inl e => inl e
          | inr ys => inr (y :: ys)
          end
      end
  end.

(** ** The worker pool

    [pool.map(f, tasks)] cuts the tasks into consecutive chunks and hands
    them to the workers; a chunk runs [f] over its tasks in order and
    fails with the first exception; the chunks complete in some order.
    The result of a chunk travels back to the parent process, where one
    thread takes the results as they arrive; the result object keeps one
    slot per chunk, the first failure to arrive and the number of chunks
    still out, and [pool.map] comes back when none is out.  How many
    workers there are shows only in how the tasks are cut and in the order
    of completion. *)

(** What a call comes to: it returns or raises, or it never comes back. *)
Inductive call (A : Type) : Type :=
| Ends (r : result A)
| Hangs.
Arguments Ends {A} r.
Arguments Hangs {A}.

(** An exception travels from a worker as its class and the arguments its
    base class was initialised with, and is built again in the parent by
    calling the class on them.  [LogProcessingError(msg)] comes back as it
    was.  [LogFileError.__init__] takes [file_path] and [message] and hands
    the base class one text: the call with that one text fails.
    [MultipleFilesError.__init__] takes a list of pairs and hands the base
    class one text, which never starts with a pair: the call fails too. *)
Definition unpickle (e : exn) : option exn :=
  match e with
  | LogProcessingError msg => Some (LogProcessingError msg)
  | LogFileError _ _ => None
  | MultipleFilesError _ => None
  end.

Fixpoint cut {A} (sizes : list nat) (l : list A) : list (list A) :=
  match sizes with
  | [] => [l]
  | n :: sizes' => firstn n l :: cut sizes' (skipn n l)
  end.

Record MapResult (B : Type) := {
  _value : list (option (list B));
  _failure : option exn;
  _number_left : nat
}.
Arguments _value {B} _.
Arguments _failure {B} _.
Arguments _number_left {B} _.

(** [MapResult._set]: chunk [i] has completed with [r]. *)
Definition _set {B} (st : MapResult B) (i : nat) (r : result (list B))
  : MapResult B :=
  let left := pred (_number_left st) in
  match _failure st, r with
  | None, inr v =>
      {| _value := <[i := Some v]> (_value st); _failure := None;
         _number_left := left |}
  | None, inl e =>
      {| _value := _value st; _failure := Some e; _number_left := left |}
  | Some e0, _ =>
      {| _value := _value st; _failure := Some e0; _number_left := left |}
  end.

(** [MapResult.get], once no chunk is out. *)
Definition _get {B} (st : MapResult B) : result (list B) :=
  match _failure st with
  | Some e => inl e
  | None => inr (concat (map (default []) (_value st)))
  end.

(** One turn of the thread that takes the results: [None] is the thread
    that has died, on a result it could not build again; nothing is taken
    after that. *)
Definition _handle_results {B} (r : nat -> result (list B))
    (st : option (MapResult B)) (i : nat) : option (MapResult B) :=
  match st with
  | None => None
  | Some st =>
      match r i with
      | inr v => Some (_set st i (inr v))
      | inl e =>
          match unpickle e with
          | Some e' => Some (_set st i (inl e'))
          | None => None
          end
      end
  end.

(** [completion] lists the chunks in the order in which they complete.
    Without tasks the call returns at once.  Otherwise it comes back when
    every chunk has been taken: never, when the thread that takes them has
    died or a chunk does not complete. *)
Definition pool_map {A B} (f : A -> result B) (tasks : list A)
    (sizes : list nat) (completion : list nat) : call (list B) :=
  match tasks with
  | [] => Ends (inr [])
  | _ :: _ =>
      let chunks := cut sizes tasks in
      let run i := map_seq f (default [] (chunks !! i)) in
      match foldl (_handle_results run)
              (Some {| _value := replicate (length chunks) None;
                       _failure := None;
                       _number_left := length chunks |})
              completion with
      | Some st =>
          match _number_left st with
          | O => Ends (_get st)
          | S _ => Hangs
          end
      | None => Hangs
      end
  end.

(** How [process_files] runs the sources. *)
Inductive strategy : Type :=
| Sequential                                        (* use_multiprocessing=False *)
| Pool (sizes : list nat) (completion : list nat).  (* use_multiprocessing=True *)

Section ProcessFiles.
Context {U : UnicodeData}.

Definition process_files (how : strategy) (fs : file_system)
    (file_paths : list str) : call (list DjangoReportData) :=
  let results :=
    match how with
    | Pool sizes completion =>
        pool_map (_process_single_file fs) file_paths sizes completion
    | Sequential => Ends (map_seq (_process_single_file fs) file_paths)
    end in
  match results with
  | Hangs => Hangs
  | Ends (inr results) => Ends (inr (_merge_results results))
  | Ends (inl (LogFileError p m)) => Ends (inl (LogFileError p m))
  | Ends (inl e) =>
      Ends (inl (LogProcessingError
                   (cp "Error processing log files: " ++ exn_str e)))
  end.

End ProcessFiles.

(** ** The report ([HandlersReport]) *)

Module HandlersReport.

Definition data_column_width : nat := 7.
Definition identifier_column_width : nat := 20.
Definition no_data_message : str := cp "No data available for report.".

Record ColumnReportConfig := {
  name : str;
  field : DjangoReportData -> Z;
  width : nat
}.

Definition stat_columns : list ColumnReportConfig :=
  [ {| name := cp "DEBUG"; field := debug_count; width := data_column_width |};
    {| name := cp "INFO"; field := info_count; width := data_column_width |};
    {| name := cp "WARNING"; field := warning_count;
       width := data_column_width |};
    {| name := cp "ERROR"; field := error_count; width := data_column_width |};
    {| name := cp "CRITICAL"; field := critical_count;
       width := data_column_width |} ].

(** [f"{s:<w}"]: padded on the right, never cut. *)
Definition ljust (w : nat) (s : str) : str :=
  s ++ repeat (chr " ") (w - length s).

(** [str(n)] *)
Definition str_of_int (n : Z) : str := cp (NilZero.string_of_int (Z.to_int n)).

Definition _calculate_total (log_statistics : list DjangoReportData) : Z :=
  py_sum (map (fun stat => py_sum (map (fun f => f stat) STAT_FIELDS))
            log_statistics).

Definition _get_header : str :=
  join [chr "009"]
    (ljust identifier_column_width (cp "HANDLER")
       :: map (fun col => ljust (width col) (name col)) stat_columns).

Definition _format_statistics (title : str) (statistics : DjangoReportData)
  : str :=
  join [chr "009"]
    (ljust identifier_column_width title
       :: map (fun col => ljust (width col) (str_of_int (field col statistics)))
            stat_columns).

Definition _format_handler_line (h : DjangoReportData) : str :=
  _format_statistics (handler_name h) h.

Definition _format_totals_line (totals : DjangoReportData) : str :=
  _format_statistics [] totals.

Definition generate (log_statistics : list DjangoReportData) : str :=
  match log_statistics with
  | [] => no_data_message
  | _ :: _ =>
      let sorted_handlers := sorted_by handler_name log_statistics in
      let totals := create_totals log_statistics in
      let report_lines :=
        (cp "Total requests: " ++ str_of_int (_calculate_total log_statistics)
           ++ [chr "010"])
        :: _get_header
        :: map _format_handler_line sorted_handlers
        ++ [_format_totals_line totals] in
      join [chr "010"] report_lines
  end.

End HandlersReport.

(** ** The entry point ([run.py]), from the result of [process_files] on *)

Record outcome := {
  stdout : list str;
  stderr : list str;
  exit_code : Z
}.

Definition main_from (r : result (list DjangoReportData)) : outcome :=
  match r with
  | inr [] =>
      {| stdout := []; stderr := [cp "No logs found in the provided files"];
         exit_code := 1 |}
  | inr log_statistics =>
      {| stdout := [HandlersReport.generate log_statistics]; stderr := [];
         exit_code := 0 |}
  | inl (MultipleFilesError failed_files) =>
      {| stdout := [];
         stderr := cp "Errors occurred while processing files:"
           :: map (fun pe => cp "  " ++ fst pe ++ cp ": " ++ exn_str (snd pe))
                failed_files;
         exit_code := 1 |}
  | inl (LogFileError p m) =>
      {| stdout := [];
         stderr := [cp "File error: " ++ exn_str (LogFileError p m)];
         exit_code := 1 |}
  | inl (LogProcessingError m) =>
      {| stdout := [];
         stderr := [cp "Processing error: " ++ exn_str (LogProcessingError m)];
         exit_code := 1 |}
  end.

(** [main]: the processor it builds runs on the worker pool
    ([LogProcessor()], with [use_multiprocessing] left at [True]), on the
    sources of the command line.  It prints and returns when
    [process_files] has come back; [None] is the run that never ends. *)
Definition main {U : UnicodeData} (sizes completion : list nat)
    (fs : file_system) (log_files : list str) : option outcome :=
  match process_files (Pool sizes completion) fs log_files with
  | Ends r => Some (main_from r)
  | Hangs => None
  end.

(** * Vocabulary of the properties *)

(** ** What a regular expression matches

    The texts a pattern can read, without regard to the order of the
    attempts. *)

Inductive star_lang (L : str -> Prop) : str -> Prop :=
| star_lang_nil : star_lang L []
| star_lang_cons w1 w2 :
    w1 <> [] -> L w1 -> star_lang L w2 -> star_lang L (w1 ++ w2).

Fixpoint lang (r : regex) (w : str) : Prop :=
  match r with
  | Eps => w = []
  | Lit c => w = [c]
  | Cls p => exists c, w = [c] /\ p c = true
  | Cat r1 r2 => exists w1 w2, w = w1 ++ w2 /\ lang r1 w1 /\ lang r2 w2
  | Alt r1 r2 => lang r1 w \/ lang r2 w
  | Star r' => star_lang (lang r') w
  | Grp _ r' => lang r' w
  end.

(** No named group inside. *)
Fixpoint capfree (r : regex) : bool :=
  match r with
  | Eps | Lit _ | Cls _ => true
  | Cat r1 r2 | Alt r1 r2 => capfree r1 && capfree r2
  | Star r' => capfree r'
  | Grp _ _ => false
  end.

(** ** The order of the attempts *)

(** What [p*] lists on text [t]: the ends of the run of [p] at the front of
    [t], the farthest first. *)
Fixpoint star_cls (p : char -> bool) (c : captures) (t : str) : list mstate :=
  match t with
  | x :: t' => if p x then star_cls p c t' ++ [(c, t)] else [(c, t)]
  | [] => [(c, [])]
  end.

Definition shorter (a b : mstate) : Prop :=
  (length (snd a) < length (snd b))%nat.

(** ** Languages of the building blocks *)

Definition all_of (p : char -> bool) (w : str) : Prop :=
  Forall (fun c => p c = true) w.

(** ** The line format in words

    The format of a log line as the specification describes it: a
    timestamp, a severity token, a dotted component name under [django],
    a colon and a message, the fields separated by white space. *)

Section LineFormat.
Context {U : UnicodeData}.

Definition digit_run (n : nat) (w : str) : Prop :=
  length w = n /\ all_of is_digit w.
Definition space_run (w : str) : Prop := w <> [] /\ all_of is_space w.
Definition word_run (w : str) : Prop := w <> [] /\ all_of is_word w.

(** YYYY-MM-DD HH:MM:SS,mmm *)
Definition timestamp_shape (ts : str) : Prop :=
  exists Y M D ws h m s ms,
    ts = Y ++ cp "-" ++ M ++ cp "-" ++ D ++ ws ++
         h ++ cp ":" ++ m ++ cp ":" ++ s ++ cp "," ++ ms /\
    digit_run 4 Y /\ digit_run 2 M /\ digit_run 2 D /\ space_run ws /\
    digit_run 2 h /\ digit_run 2 m /\ digit_run 2 s /\ digit_run 3 ms.

Definition severity_token (l : str) : Prop :=
  In l [cp "DEBUG"; cp "INFO"; cp "WARNING"; cp "ERROR"; cp "CRITICAL"].

(** django.name, then any number of .name *)
Definition component_shape (c : str) : Prop :=
  exists seg segs,
    c = cp "django." ++ seg ++ concat (map (fun s => chr "." :: s) segs) /\
    word_run seg /\ Forall word_run segs.

Definition message_shape (m : str) : Prop := m <> [] /\ all_of not_newline m.

(** [line] reads as the four fields, [ws] being the white space before the
    message and [rest] what follows the message. *)
Definition line_parts (line ts lvl comp ws msg rest : str) : Prop :=
  exists ws1 ws2,
    line = ts ++ ws1 ++ lvl ++ ws2 ++ comp ++ cp ":" ++ ws ++ msg ++ rest /\
    timestamp_shape ts /\ space_run ws1 /\ severity_token lvl /\
    space_run ws2 /\ component_shape comp /\ space_run ws /\
    message_shape msg.

Definition well_formed_line (line : str) : Prop :=
  exists ts lvl comp ws msg rest, line_parts line ts lvl comp ws msg rest.

End LineFormat.

(** The groups of a match of the base pattern, and the text it read. *)
Definition base_groups (ts lvl comp msg : str) : captures :=
  [("message"%string, msg); ("component"%string, comp);
   ("level"%string, lvl); ("timestamp"%string, ts)].

(** ** Tables of counters *)

(** One cell of a table. *)
Definition cell (d : table) (h k : str) : option Z := d !! h ≫= (.!! k).

(** Adding cells: a missing cell adds nothing. *)
Definition oplus (a b : option Z) : option Z :=
  match a, b with
  | Some x, Some y => Some (x + y)
  | Some x, None => Some x
  | None, _ => b
  end.

(** No handler without a counter. *)
Definition no_empty (d : table) : Prop :=
  forall h (l : counters), d !! h = Some l -> l <> ∅.

(** The sum of one cell over a list of tables. *)
Definition cells_sum (l : list table) (h k : str) : option Z :=
  foldr (fun r a => oplus (cell r h k) a) None l.

(** ** Sorting *)

Definition key_le {A} (key : A -> str) (a b : A) : Prop :=
  str_le (key a) (key b) = true.

(** Strictly before, in the order of [str]. *)
Definition str_lt (a b : str) : Prop := str_le a b = true /\ a <> b.

(** ** The merged rows *)

(** The sum of one counter of one handler over the partial results, a
    missing counter counting as zero. *)
Definition total_of (l : list table) (h : str) (name : string) : Z :=
  foldr (fun r a => default 0 (cell r h (cp name)) + a) 0 l.

Definition counters_are_totals (l : list table) (row : DjangoReportData)
  : Prop :=
  debug_count row = total_of l (handler_name row) "debug_count" /\
  info_count row = total_of l (handler_name row) "info_count" /\
  warning_count row = total_of l (handler_name row) "warning_count" /\
  error_count row = total_of l (handler_name row) "error_count" /\
  critical_count row = total_of l (handler_name row) "critical_count".

(** ** Lines and cells *)

Section LineCells.
Context {U : UnicodeData}.

(** The cell a line counts in, if any. *)
Definition line_cell (line : str) : option (str * str) :=
  match parse_log_line line with
  | Some d =>
      if decide (component d = DjangoLogComponent.REQUEST)
      then (fun h => (h, level_key (level d))) <$> handler d
      else None
  | None => None
  end.

(** How often the lines count in cell [(h, k)]; [None] for never. *)
Definition tally (lines : list str) (h k : str) : option Z :=
  foldr (fun line a =>
           oplus (if decide (line_cell line = Some (h, k)) then Some 1
                  else None) a)
    None lines.

End LineCells.

(** ** Handler keys *)

Section PathShape.
Context {U : UnicodeData}.

(** Begins with [/] and has no white space in it. *)
Definition path_shape (h : str) : Prop :=
  (exists t, h = chr "/" :: t /\ t <> []) /\ all_of not_space h.

End PathShape.

(** ** The report *)

(** The sum of one column over the rows. *)
Definition column_sum (f : DjangoReportData -> Z)
    (rows : list DjangoReportData) : Z :=
  foldr (fun r a => f r + a) 0 rows.

(** All five counters of a row. *)
Definition row_total (r : DjangoReportData) : Z :=
  debug_count r + info_count r + warning_count r + error_count r +
  critical_count r.

(** ** The text of the report *)

(** The number that a text writes in decimal digits. *)
Definition decimal_value (s : str) : option Z :=
  Z.of_int <$>
    NilZero.int_of_string (string_of_list_ascii (map ascii_of_N s)).

(** A cell of the table: the content, then blanks up to the width, and
    the whole content when it is wider. *)
Definition cell_text (w : nat) (content : str) : str :=
  content ++ repeat (chr " ") (w - length content).

(** A line of the table: the first cell, twenty wide, then each of the
    other cells, seven wide, after a tab. *)
Definition line_text (first : str) (others : list str) : str :=
  cell_text 20 first ++
  concat (map (fun c => chr "009" :: cell_text 7 c) others).

(** The five counters of a row as texts, in the order of the columns. *)
Definition counter_texts (dec : Z -> str) (r : DjangoReportData) : list str :=
  [dec (debug_count r); dec (info_count r); dec (warning_count r);
   dec (error_count r); dec (critical_count r)].

(** ** Failures *)

(** A file system without any file. *)
Definition no_files : file_system :=
  fun p => inl (OSError (cp "[Errno 2] No such file or directory: '" ++ p
                          ++ cp "'")).

(** ** Examples *)

Definition request_line : str :=
  cp "2024-03-28 10:15:30,123 INFO django.request: GET /api/users/ 200".
Definition error_line : str :=
  cp "2024-03-28 10:15:31,456 ERROR django.request: Error: /api/users/".
Definition db_line : str :=
  cp "2024-03-28 10:15:32,789 DEBUG django.db.backends: GET /api/users/".

Definition db_record : LogData :=
  {| timestamp := cp "2024-03-28 10:15:32,789"; level := cp "DEBUG";
     component := cp "django.db.backends"; message := cp "GET /api/users/";
     handler := None |}.

Definition table_a : table := {[ cp "/a" := {[ cp "info_count" := 1 ]} ]}.
Definition table_b : table := {[ cp "/b" := {[ cp "error_count" := 2 ]} ]}.
Definition table_c : table := {[ cp "/a" := {[ cp "error_count" := 3 ]} ]}.

(** Two files as the reader yields them, each line with its line feed. *)
Definition two_files : file_system :=
  fun p =>
    if decide (p = cp "a.log")
    then inr [request_line ++ [chr "010"]; db_line ++ [chr "010"]]
    else if decide (p = cp "b.log") then inr [error_line ++ [chr "010"]]
    else inl (OSError (cp "[Errno 2] No such file or directory: '" ++ p ++
                     cp "'")).


Definition one_row : DjangoReportData :=
  {| handler_name := cp "/api/users/"; debug_count := 0; info_count := 1;
     warning_count := 0; error_count := 1; critical_count := 0 |}.

Definition other_row : DjangoReportData :=
  {| handler_name := cp "/api/orders/"; debug_count := 2; info_count := 0;
     warning_count := 1; error_count := 0; critical_count := 0 |}.

(** ** The handler in a message *)

Section HandlerFormat.
Context {U : UnicodeData}.

Definition request_keyword (kw : str) : Prop :=
  In kw [cp "GET"; cp "POST"; cp "PUT"; cp "DELETE"; cp "PATCH"; cp "Error:"].

(** [msg] has, after [pre], a keyword, white space and the path [h], and
    [post] after the path. *)
Definition handler_at (msg pre h post : str) : Prop :=
  exists kw ws,
    msg = pre ++ kw ++ ws ++ h ++ post /\
    request_keyword kw /\ space_run ws /\ path_shape h.

(** The text ends or goes on with white space. *)
Definition ends_word (post : str) : Prop :=
  match post with
  | [] => True
  | c :: _ => is_space c = true
  end.

End HandlerFormat.

(** ** Counting lines *)

(** The keys of the counters, as [_merge_results] reads them. *)
Definition STAT_KEYS : list str :=
  [cp "debug_count"; cp "info_count"; cp "warning_count"; cp "error_count";
   cp "critical_count"].

Section Counting.
Context {U : UnicodeData}.

(** The line is a record with handler [h] and level [lvl]. *)
Definition attributed_to (h lvl : str) (line : str) : bool :=
  match parse_log_line line with
  | Some d => bool_decide (handler d = Some h /\ level d = lvl)
  | None => false
  end.

(** The line is a record with a handler. *)
Definition attributed (line : str) : bool :=
  match parse_log_line line with
  | Some d => bool_decide (is_Some (handler d))
  | None => false
  end.

(** How many of the lines are records of handler [h] and level [lvl]. *)
Definition count_of (h lvl : str) (lines : list str) : Z :=
  Z.of_nat (length (List.filter (attributed_to h lvl) lines)).

(** The row of handler [h] counted from the lines. *)
Definition counted_row (h : str) (lines : list str) : DjangoReportData :=
  {| handler_name := h;
     debug_count := count_of h (cp "DEBUG") lines;
     info_count := count_of h (cp "INFO") lines;
     warning_count := count_of h (cp "WARNING") lines;
     error_count := count_of h (cp "ERROR") lines;
     critical_count := count_of h (cp "CRITICAL") lines |}.

(** What one line adds to the row of [h]. *)
Definition line_weight (h : str) (line : str) : Z :=
  (if attributed_to h (cp "DEBUG") line then 1 else 0) +
  (if attributed_to h (cp "INFO") line then 1 else 0) +
  (if attributed_to h (cp "WARNING") line then 1 else 0) +
  (if attributed_to h (cp "ERROR") line then 1 else 0) +
  (if attributed_to h (cp "CRITICAL") line then 1 else 0).

End Counting.

Section CountingLevels.
Context {U : UnicodeData}.

(** The line is a record with a handler and level [lvl]. *)
Definition attributed_level (lvl : str) (line : str) : bool :=
  match parse_log_line line with
  | Some d => bool_decide (is_Some (handler d) /\ level d = lvl)
  | None => false
  end.

(** How many of the lines are records with a handler and level [lvl]. *)
Definition count_level (lvl : str) (lines : list str) : Z :=
  Z.of_nat (length (List.filter (attributed_level lvl) lines)).

End CountingLevels.

(** ** The text of the report *)

(** How often the character [c] occurs in [s]. *)
Fixpoint count_char (c : char) (s : str) : nat :=
  match s with
  | [] => 0%nat
  | x :: s' => ((if (x =? c)%N then 1 else 0) + count_char c s')%nat
  end.

(** The handler name has no line feed and no tab in it. *)
Definition plain_name (r : DjangoReportData) : Prop :=
  count_char (chr "010") (handler_name r) = 0%nat /\
  count_char (chr "009") (handler_name r) = 0%nat.

(** * Properties *)

(** ** The matcher and the language of a pattern *)

Section RegexTheory.

Lemma star_loop_sound (step : mstate -> list mstate) (L : str -> Prop) :
  (forall st st', In st' (step st) -> exists w, snd st = w ++ snd st' /\ L w) ->
  forall fuel st st', In st' (star_loop step fuel st) ->
    exists w, snd st = w ++ snd st' /\ star_lang L w.
Proof.
  intros Hstep fuel. induction fuel as [|fuel IH]; intros st st' Hin; simpl in Hin.
  - destruct Hin as [<-|[]]. exists []. split; [done | constructor].
  - apply in_app_or in Hin. destruct Hin as [Hin|[<-|[]]].
    + apply in_flat_map in Hin. destruct Hin as (st1 & H1 & H2).
      destruct (Nat.ltb_spec (length (snd st1)) (length (snd st))) as [Hlt|];
        [|contradiction].
      destruct (Hstep _ _ H1) as (w1 & E1 & L1).
      destruct (IH _ _ H2) as (w2 & E2 & L2).
      exists (w1 ++ w2). split.
      * rewrite E1, E2. by rewrite app_assoc.
      * constructor; [|done..]. intros ->. simpl in E1. rewrite E1 in Hlt. lia.
    + exists []. split; [done | constructor].
Qed.

Lemma exec_sound r : forall c s c' s',
  In (c', s') (exec r (c, s)) -> exists w, s = w ++ s' /\ lang r w.
Proof.
  induction r as [|a|p|r1 IH1 r2 IH2|r1 IH1 r2 IH2|r IH|n r IH];
    intros c s c' s' Hin; simpl in *.
  - destruct Hin as [[= <- <-]|[]]. by exists [].
  - destruct s as [|x s]; [done|]. destruct (N.eqb_spec x a); [|done].
    destruct Hin as [[= <- <-]|[]]. exists [a]. by subst.
  - destruct s as [|x s]; [done|]. destruct (p x) eqn:Hp; [|done].
    destruct Hin as [[= <- <-]|[]]. exists [x]. split; [done|]. by exists x.
  - apply in_flat_map in Hin. destruct Hin as ([c1 s1] & H1 & H2).
    destruct (IH1 _ _ _ _ H1) as (w1 & -> & L1).
    destruct (IH2 _ _ _ _ H2) as (w2 & -> & L2).
    exists (w1 ++ w2). split; [by rewrite app_assoc|]. by exists w1, w2.
  - apply in_app_or in Hin. destruct Hin as [Hin|Hin].
    + destruct (IH1 _ _ _ _ Hin) as (w & -> & L1). exists w. auto.
    + destruct (IH2 _ _ _ _ Hin) as (w & -> & L1). exists w. auto.
  - eapply (star_loop_sound _ (lang r)) in Hin; [exact Hin|].
    intros [c1 s1] [c2 s2] H. simpl. eauto.
  - apply in_map_iff in Hin. destruct Hin as ([c1 s1] & [= <- <-] & H1). eauto.
Qed.

Lemma star_loop_complete (step : mstate -> list mstate) (L : str -> Prop) :
  (forall w, L w -> forall c s', exists c', In (c', s') (step (c, w ++ s'))) ->
  forall w, star_lang L w -> forall fuel c s',
    (length (w ++ s') <= fuel)%nat ->
    exists c', In (c', s') (star_loop step fuel (c, w ++ s')).
Proof.
  intros Hstep w Hw. induction Hw as [|w1 w2 Hne L1 _ IH]; intros fuel c s' Hf.
  - exists c. destruct fuel; simpl; [auto|]. apply in_or_app. right. by left.
  - destruct fuel as [|fuel].
    { destruct w1; [done|]. simpl in Hf. lia. }
    destruct (Hstep _ L1 c (w2 ++ s')) as (c1 & H1).
    destruct (IH fuel c1 s') as (c2 & H2).
    { rewrite <- app_assoc, length_app in Hf. destruct w1; [done|].
      simpl in Hf. lia. }
    exists c2. simpl. apply in_or_app. left. apply in_flat_map.
    exists (c1, w2 ++ s'). rewrite <- app_assoc. split; [done|]. simpl.
    destruct (Nat.ltb_spec (length (w2 ++ s')) (length (w1 ++ w2 ++ s')))
      as [|Hge]; [done|].
    rewrite (length_app w1) in Hge. destruct w1; [done|]. simpl in Hge. lia.
Qed.

Lemma exec_complete r : forall w, lang r w ->
  forall c s', exists c', In (c', s') (exec r (c, w ++ s')).
Proof.
  induction r as [|a|p|r1 IH1 r2 IH2|r1 IH1 r2 IH2|r IH|n r IH];
    intros w Hw c s'; simpl in *.
  - subst. exists c. by left.
  - subst. simpl. rewrite N.eqb_refl. exists c. by left.
  - destruct Hw as (x & -> & Hp). simpl. rewrite Hp. exists c. by left.
  - destruct Hw as (w1 & w2 & -> & L1 & L2).
    destruct (IH1 _ L1 c (w2 ++ s')) as (c1 & H1).
    destruct (IH2 _ L2 c1 s') as (c2 & H2).
    exists c2. apply in_flat_map. exists (c1, w2 ++ s').
    by rewrite <- app_assoc.
  - destruct Hw as [Hw|Hw].
    + destruct (IH1 _ Hw c s') as (c1 & H1). exists c1. apply in_or_app. auto.
    + destruct (IH2 _ Hw c s') as (c1 & H1). exists c1. apply in_or_app. auto.
  - by apply (star_loop_complete _ (lang r)).
  - destruct (IH _ Hw c s') as (c1 & H1). eexists. apply in_map_iff.
    exists (c1, s'). split; [reflexivity|done].
Qed.

Lemma star_loop_capfree (step : mstate -> list mstate) :
  (forall st st', In st' (step st) -> fst st' = fst st) ->
  forall fuel st st', In st' (star_loop step fuel st) -> fst st' = fst st.
Proof.
  intros Hstep fuel. induction fuel as [|fuel IH]; intros st st' Hin; simpl in Hin.
  - by destruct Hin as [<-|[]].
  - apply in_app_or in Hin. destruct Hin as [Hin|[<-|[]]]; [|done].
    apply in_flat_map in Hin. destruct Hin as (st1 & H1 & H2).
    destruct (length (snd st1) <? length (snd st))%nat; [|done].
    rewrite (IH _ _ H2). eauto.
Qed.

Lemma exec_capfree r : capfree r = true ->
  forall st st', In st' (exec r st) -> fst st' = fst st.
Proof.
  induction r as [|a|p|r1 IH1 r2 IH2|r1 IH1 r2 IH2|r IH|n r IH];
    intros Hc st st' Hin; simpl in *.
  - by destruct Hin as [<-|[]].
  - destruct (snd st) as [|x s]; [done|].
    destruct (x =? a)%N; [|done]. by destruct Hin as [<-|[]].
  - destruct (snd st) as [|x s]; [done|].
    destruct (p x); [|done]. by destruct Hin as [<-|[]].
  - apply andb_prop in Hc as [Hc1 Hc2]. apply in_flat_map in Hin.
    destruct Hin as (st1 & H1 & H2).
    rewrite (IH2 Hc2 _ _ H2). eauto.
  - apply andb_prop in Hc as [Hc1 Hc2]. apply in_app_or in Hin.
    destruct Hin; eauto.
  - eapply star_loop_capfree; [|exact Hin]. eauto.
  - done.
Qed.

(** A piece without groups reads a text of its language and leaves the
    groups alone. *)
Lemma exec_plain r c s c' s' :
  capfree r = true ->
  In (c', s') (exec r (c, s)) <-> c' = c /\ exists w, s = w ++ s' /\ lang r w.
Proof.
  intros Hc. split.
  - intros Hin. split; [exact (exec_capfree r Hc _ _ Hin)|].
    by eapply exec_sound.
  - intros (-> & w & -> & Hw).
    destruct (exec_complete r w Hw c s') as (c1 & H1).
    pose proof (exec_capfree r Hc _ _ H1) as E. simpl in E. by subst c1.
Qed.

(** A group around such a piece records the text the piece read. *)
Lemma exec_group n r c s c' s' :
  capfree r = true ->
  In (c', s') (exec (Grp n r) (c, s)) <->
  exists w, s = w ++ s' /\ lang r w /\ c' = (n, w) :: c.
Proof.
  intros Hc. simpl. rewrite in_map_iff. split.
  - intros ([c1 s1] & [= <- <-] & H1). apply exec_plain in H1 as (-> & w & -> & Hw); [|done].
    exists w. split_and!; [done..|].
    by rewrite length_app, Nat.add_sub, firstn_app, Nat.sub_diag, firstn_all,
      app_nil_r.
  - intros (w & -> & Hw & ->). exists (c, s'). split.
    + simpl. by rewrite length_app, Nat.add_sub, firstn_app, Nat.sub_diag,
        firstn_all, app_nil_r.
    + apply exec_plain; [done|]. eauto.
Qed.

Lemma exec_cat r1 r2 st st2 :
  In st2 (exec (Cat r1 r2) st) <->
  exists st1, In st1 (exec r1 st) /\ In st2 (exec r2 st1).
Proof. simpl. by rewrite in_flat_map. Qed.

End RegexTheory.

Section Priority.

Lemma star_loop_cls p c t : forall fuel, (length t <= fuel)%nat ->
  star_loop (exec (Cls p)) fuel (c, t) = star_cls p c t.
Proof.
  induction t as [|x t IH]; intros fuel Hf.
  - by destruct fuel.
  - destruct fuel as [|fuel]; [simpl in Hf; lia|].
    cbn [star_loop exec snd fst star_cls flat_map]. destruct (p x); [|done].
    cbn [flat_map snd]. rewrite app_nil_r.
    destruct (Nat.ltb_spec (length t) (length (x :: t))) as [_|Hge];
      [|simpl in Hge; lia].
    rewrite IH; [done|]. simpl in Hf. lia.
Qed.

Lemma exec_star_cls p c t : exec (Star (Cls p)) (c, t) = star_cls p c t.
Proof. by apply star_loop_cls. Qed.

Lemma exec_plus_cls p c t :
  exec (Plus (Cls p)) (c, t) =
  match t with
  | x :: t' => if p x then star_cls p c t' else []
  | [] => []
  end.
Proof.
  unfold Plus. cbn [exec flat_map snd fst]. destruct t as [|x t]; [done|].
  destruct (p x); [|done]. cbn [flat_map]. rewrite app_nil_r.
  apply exec_star_cls.
Qed.

Lemma star_cls_bound p c t st :
  In st (star_cls p c t) -> (length (snd st) <= length t)%nat.
Proof.
  revert st. induction t as [|x t IH]; intros st Hin; simpl in Hin.
  - by destruct Hin as [<-|[]].
  - destruct (p x).
    + apply in_app_or in Hin. destruct Hin as [Hin|[<-|[]]]; [|done].
      apply IH in Hin. simpl. lia.
    + by destruct Hin as [<-|[]].
Qed.

(** Later attempts of [p*] read less. *)
Lemma star_cls_order p c t l1 x l2 :
  star_cls p c t = l1 ++ x :: l2 -> Forall (fun y => shorter y x) l1.
Proof.
  revert l1 x l2. induction t as [|a t IH]; intros l1 x l2 E; simpl in E.
  - destruct l1 as [|? [|? ?]]; [constructor|done..].
  - destruct (p a); [|by destruct l1 as [|? [|? ?]]; [constructor|..]].
    destruct l2 as [|z l2 _] using rev_ind.
    + apply app_inj_tail in E as [<- <-]. apply List.Forall_forall. intros y Hy.
      apply star_cls_bound in Hy. unfold shorter. simpl. lia.
    + rewrite app_comm_cons, app_assoc in E. apply app_inj_tail in E as [E _].
      by eapply IH.
Qed.

(** The first attempt of [p*] stops where [p] fails or the text ends. *)
Lemma star_cls_head p c t st :
  head (star_cls p c t) = Some st ->
  fst st = c /\ exists w, t = w ++ snd st /\ Forall (fun a => p a = true) w /\
    match snd st with [] => True | a :: _ => p a = false end.
Proof.
  revert st. induction t as [|x t IH]; intros st E; simpl in E.
  - injection E as <-. split; [done|]. by exists [].
  - destruct (p x) eqn:Hp.
    + destruct (star_cls p c t) as [|y l] eqn:El; simpl in E.
      * destruct t; simpl in El; [done|]. destruct (p n); [|done].
        by destruct (star_cls p c t).
      * injection E as <-. destruct (IH y eq_refl) as (Hc & w & Ew & Hw & Hs).
        split; [done|]. exists (x :: w). split_and!; [by rewrite Ew at 1|auto|done].
    + injection E as <-. split; [done|]. exists []. simpl. by rewrite Hp.
Qed.

Lemma head_flat_map {A B} (f : A -> list B) (l : list A) (y : B) :
  head (flat_map f l) = Some y ->
  exists l1 x l2, l = l1 ++ x :: l2 /\ Forall (fun z => f z = []) l1 /\
    head (f x) = Some y.
Proof.
  induction l as [|a l IH]; simpl; [done|]. intros E.
  destruct (f a) as [|b fa] eqn:Ea.
  - destruct (IH E) as (l1 & x & l2 & -> & Hl1 & Hx).
    exists (a :: l1), x, l2. split_and!; [done|by constructor|done].
  - exists [], a, l. rewrite Ea. split_and!; [done|constructor|done].
Qed.

Lemma head_exec_cat r1 r2 st y :
  head (exec (Cat r1 r2) st) = Some y ->
  exists x, In x (exec r1 st) /\ head (exec r2 x) = Some y.
Proof.
  intros E. change (exec (Cat r1 r2) st) with (flat_map (exec r2) (exec r1 st)) in E.
  apply head_flat_map in E as (l1 & x & l2 & El & _ & Hx).
  exists x. split; [|done]. rewrite El. apply in_or_app. right. by left.
Qed.

End Priority.

Section Languages.

Lemma lang_star_cls p w : lang (Star (Cls p)) w <-> all_of p w.
Proof.
  simpl. split.
  - induction 1 as [|w1 w2 _ (c & -> & Hc) _ IH]; [constructor|].
    by constructor.
  - induction 1 as [|c w Hc _ IH]; [constructor|].
    apply (star_lang_cons _ [c] w); [done| |done]. by exists c.
Qed.

Lemma lang_plus_cls p w : lang (Plus (Cls p)) w <-> w <> [] /\ all_of p w.
Proof.
  unfold Plus. cbn [lang]. split.
  - intros (w1 & w2 & -> & (c & -> & Hc) & H2). split; [done|].
    constructor; [done|]. by apply lang_star_cls.
  - intros [Hne Hw]. destruct Hw as [|c w Hc Hw]; [done|].
    exists [c], w. split_and!; [done|by exists c|by apply lang_star_cls].
Qed.

Lemma lang_times_cls p n w :
  lang (Times n (Cls p)) w <-> length w = n /\ all_of p w.
Proof.
  revert w. induction n as [|n IH]; intros w; simpl.
  - split; [intros ->; split; [done|constructor]|].
    intros [E _]. by destruct w.
  - split.
    + intros (w1 & w2 & -> & (c & -> & Hc) & H2). apply IH in H2 as [<- H2].
      split; [done|]. by constructor.
    + intros [E Hw]. destruct Hw as [|c w Hc Hw]; [done|].
      exists [c], w. split_and!; [done|by exists c|]. apply IH.
      split; [|done]. simpl in E. lia.
Qed.

Lemma lang_str' s w : lang (Str' s) w <-> w = s.
Proof.
  revert w. induction s as [|c s IH]; intros w; simpl; [done|]. split.
  - intros (w1 & w2 & -> & -> & H2). apply IH in H2. by subst.
  - intros ->. exists [c], s. split_and!; [done..|]. by apply IH.
Qed.

Lemma lang_str s w : lang (Str s) w <-> w = cp s.
Proof. apply lang_str'. Qed.

End Languages.

Section LineFormatFacts.
Context {U : UnicodeData}.

Lemma lang_digits n w : lang (digits n) w <-> digit_run n w.
Proof. apply lang_times_cls. Qed.

Lemma lang_spaces w : lang spaces w <-> space_run w.
Proof. apply lang_plus_cls. Qed.

Lemma lang_timestamp ts : lang timestamp_re ts <-> timestamp_shape ts.
Proof.
  unfold timestamp_re, timestamp_shape. cbn [lang]. split.
  - intros (Y & ? & -> & HY & ? & ? & -> & -> & M & ? & -> & HM & ? & ? & -> &
      -> & D & ? & -> & HD & ws & ? & -> & Hws & h & ? & -> & Hh & ? & ? & -> &
      -> & m & ? & -> & Hm & ? & ? & -> & -> & s & ? & -> & Hs & ? & ms & -> &
      -> & Hms).
    exists Y, M, D, ws, h, m, s, ms.
    rewrite lang_digits in HY, HM, HD, Hh, Hm, Hs, Hms.
    rewrite lang_spaces in Hws. done.
  - intros (Y & M & D & ws & h & m & s & ms & -> & HY & HM & HD & Hws & Hh &
      Hm & Hs & Hms).
    rewrite <- lang_digits in HY, HM, HD, Hh, Hm, Hs, Hms.
    rewrite <- lang_spaces in Hws.
    repeat (eexists; eexists; split_and!; [reflexivity|try done|]); done.
Qed.

Lemma lang_level l : lang level_re l <-> severity_token l.
Proof.
  unfold level_re, severity_token. cbn [lang In]. rewrite !lang_str.
  split.
  - intros [H|[H|[H|[H|H]]]]; subst; auto 10.
  - intros [<-|[<-|[<-|[<-|[<-|[]]]]]]; auto 10.
Qed.

Lemma lang_dotted w :
  lang (Star (Cat (Lit (chr ".")) (Plus (Cls is_word)))) w <->
  exists segs, w = concat (map (fun s => chr "." :: s) segs) /\
    Forall word_run segs.
Proof.
  cbn [lang]. split.
  - induction 1 as [|w1 w2 _ (? & seg & -> & -> & Hseg) _ (segs & -> & Hsegs)].
    + by exists [].
    + exists (seg :: segs). split; [done|]. constructor; [|done].
      by apply lang_plus_cls.
  - intros (segs & -> & Hsegs). induction Hsegs as [|seg segs Hseg _ IH].
    + constructor.
    + simpl. apply (star_lang_cons _ (chr "." :: seg)); [done| |done].
      exists [chr "."], seg. split_and!; [done..|]. by apply lang_plus_cls.
Qed.

Lemma lang_component c : lang component_re c <-> component_shape c.
Proof.
  unfold component_re, component_shape. split.
  - intros (w1 & w2 & -> & H1 & seg & w3 & -> & Hseg & Hd).
    apply lang_str in H1 as ->. apply lang_plus_cls in Hseg.
    apply lang_dotted in Hd as (segs & -> & Hsegs). eauto.
  - intros (seg & segs & -> & Hseg & Hsegs).
    exists (cp "django."), (seg ++ concat (map (fun s => chr "." :: s) segs)).
    split_and!; [done|by apply lang_str|].
    exists seg, (concat (map (fun s => chr "." :: s) segs)).
    split_and!; [done|by apply lang_plus_cls|]. apply lang_dotted. eauto.
Qed.

End LineFormatFacts.

(** ** One reading per line *)

Section Readings.
Context {U : UnicodeData}.

(** A run of [p] followed by something outside [p] ends in one place. *)
Lemma run_stop_unique (p : char -> bool) w1 w2 c1 c2 x y :
  all_of p w1 -> all_of p w2 -> p c1 = false -> p c2 = false ->
  w1 ++ c1 :: x = w2 ++ c2 :: y -> w1 = w2 /\ c1 :: x = c2 :: y.
Proof.
  intros H1. revert w2. induction H1 as [|a w1 Ha _ IH]; intros w2 H2 Hc1 Hc2 E.
  - destruct H2 as [|b w2 Hb _]; [done|]. simpl in E. injection E as -> _.
    congruence.
  - destruct H2 as [|b w2 Hb H2]; simpl in E.
    + injection E as <- _. congruence.
    + injection E as <- E. destruct (IH w2 H2 Hc1 Hc2 E) as [-> ?]. done.
Qed.

Lemma digit_run_unique n a b x y :
  digit_run n a -> digit_run n b -> a ++ x = b ++ y -> a = b /\ x = y.
Proof. intros [Ha _] [Hb _]. apply app_inj_1. congruence. Qed.

Lemma timestamp_unique ts ts' r r' :
  timestamp_shape ts -> timestamp_shape ts' -> ts ++ r = ts' ++ r' ->
  ts = ts' /\ r = r'.
Proof.
  intros (Y & M & D & ws & h & m & s & ms & -> & HY & HM & HD & Hws & Hh & Hm &
          Hs & Hms)
         (Y' & M' & D' & ws' & h' & m' & s' & ms' & -> & HY' & HM' & HD' &
          Hws' & Hh' & Hm' & Hs' & Hms') E.
  rewrite <- !app_assoc in E.
  apply (digit_run_unique 4) in E as [<- E]; [|done..].
  change (cp "-") with [chr "-"] in *. simpl in E. injection E as E.
  apply (digit_run_unique 2) in E as [<- E]; [|done..].
  simpl in E. injection E as E.
  apply (digit_run_unique 2) in E as [<- E]; [|done..].
  change (cp ":") with [chr ":"] in *. change (cp ",") with [chr ","] in *.
  rewrite !(app_assoc ws), !(app_assoc ws') in E. simpl in E.
  apply (run_stop_unique (fun c => is_space c || is_digit c)) in E
    as [Ewh E]; [| | |done..].
  2:{ apply Forall_app. split.
      - eapply List.Forall_impl; [|exact (proj2 Hws)]. simpl. by intros c ->.
      - eapply List.Forall_impl; [|exact (proj2 Hh)]. simpl. intros c ->.
        apply orb_true_r. }
  2:{ apply Forall_app. split.
      - eapply List.Forall_impl; [|exact (proj2 Hws')]. simpl. by intros c ->.
      - eapply List.Forall_impl; [|exact (proj2 Hh')]. simpl. intros c ->.
        apply orb_true_r. }
  apply app_inj_2 in Ewh as [<- <-]; [|destruct Hh, Hh'; congruence].
  injection E as E.
  apply (digit_run_unique 2) in E as [<- E]; [|done..].
  simpl in E. injection E as E.
  apply (digit_run_unique 2) in E as [<- E]; [|done..].
  simpl in E. injection E as E.
  apply (digit_run_unique 3) in E as [<- E]; [|done..].
  split; [done|]. done.
Qed.

Lemma space_run_unique ws ws' c c' x y :
  space_run ws -> space_run ws' -> is_space c = false -> is_space c' = false ->
  ws ++ c :: x = ws' ++ c' :: y -> ws = ws' /\ c :: x = c' :: y.
Proof. intros [_ H] [_ H']. by apply run_stop_unique. Qed.

Lemma severity_unique lvl lvl' r r' :
  severity_token lvl -> severity_token lvl' -> lvl ++ r = lvl' ++ r' ->
  lvl = lvl' /\ r = r'.
Proof.
  unfold severity_token. simpl.
  intros [<-|[<-|[<-|[<-|[<-|[]]]]]] [<-|[<-|[<-|[<-|[<-|[]]]]]] E;
    simpl in E; try discriminate E; (split; [done|congruence]).
Qed.

Lemma severity_head lvl :
  severity_token lvl -> exists c t, lvl = c :: t /\ is_space c = false.
Proof.
  unfold severity_token. simpl.
  intros [<-|[<-|[<-|[<-|[<-|[]]]]]]; eexists _, _; (split; reflexivity).
Qed.

Lemma component_chars comp :
  component_shape comp ->
  (exists t, comp = chr "d" :: t) /\
  all_of (fun c => is_word c || (c =? chr ".")%N) comp.
Proof.
  intros (seg & segs & -> & [_ Hseg] & Hsegs). split; [by eexists|].
  apply Forall_app. split; [by repeat constructor|].
  apply Forall_app. split.
  - eapply List.Forall_impl; [|exact Hseg]. simpl. by intros c ->.
  - induction Hsegs as [|s segs [_ Hs] _ IH]; simpl; [constructor|].
    constructor; [reflexivity|]. apply Forall_app. split; [|done].
    eapply List.Forall_impl; [|exact Hs]. simpl. by intros c ->.
Qed.

(** Two readings of a line have the same fields before the colon and the
    same text after it. *)
Lemma line_parts_unique line ts lvl comp ws msg rest ts' lvl' comp' ws' msg'
    rest' :
  line_parts line ts lvl comp ws msg rest ->
  line_parts line ts' lvl' comp' ws' msg' rest' ->
  ts = ts' /\ lvl = lvl' /\ comp = comp' /\
  ws ++ msg ++ rest = ws' ++ msg' ++ rest'.
Proof.
  intros (ws1 & ws2 & -> & Hts & Hws1 & Hlvl & Hws2 & Hcomp & _)
         (ws1' & ws2' & E & Hts' & Hws1' & Hlvl' & Hws2' & Hcomp' & _).
  apply timestamp_unique in E as [<- E]; [|done..].
  destruct (severity_head _ Hlvl) as (c & t & El & Hc).
  destruct (severity_head _ Hlvl') as (c' & t' & El' & Hc').
  rewrite El, El' in E. cbn [app] in E.
  apply space_run_unique in E as [<- E]; [|done..].
  change (c :: t ++ ?x) with ((c :: t) ++ x) in E.
  change (c' :: t' ++ ?x) with ((c' :: t') ++ x) in E.
  rewrite <- El, <- El' in E. clear c t El Hc c' t' El' Hc'.
  apply severity_unique in E as [<- E]; [|done..].
  destruct (component_chars _ Hcomp) as [(t & Et) Hall].
  destruct (component_chars _ Hcomp') as [(t' & Et') Hall'].
  rewrite Et, Et' in E. cbn [app] in E.
  apply space_run_unique in E as [<- E]; [|done|done|reflexivity..].
  change (chr "d" :: t ++ ?x) with ((chr "d" :: t) ++ x) in E.
  change (chr "d" :: t' ++ ?x) with ((chr "d" :: t') ++ x) in E.
  rewrite <- Et, <- Et' in E. change (cp ":") with [chr ":"] in E.
  cbn [app] in E.
  apply (run_stop_unique (fun c => is_word c || (c =? chr ".")%N)) in E
    as [<- E]; [|done|done|reflexivity..].
  injection E as E. done.
Qed.

End Readings.

(** ** The base pattern *)

Section BasePattern.
Context {U : UnicodeData}.

Lemma lang_message m : lang message_re m <-> message_shape m.
Proof. apply lang_plus_cls. Qed.

(** The end of the pattern, white space and the message: the first attempt
    skips as much white space as leaves a message, and the message runs to
    the end of the line. *)
Lemma base_tail c t c' rest :
  head (exec (Cat spaces (Grp "message" message_re)) (c, t)) = Some (c', rest) ->
  exists ws msg,
    t = ws ++ msg ++ rest /\ space_run ws /\ message_shape msg /\
    c' = ("message"%string, msg) :: c /\
    (rest = [] \/ exists r, rest = chr "010" :: r) /\
    (forall ws' msg' rest', t = ws' ++ msg' ++ rest' ->
       space_run ws' -> message_shape msg' -> (length ws' <= length ws)%nat).
Proof.
  intros E.
  change (exec (Cat spaces (Grp "message" message_re)) (c, t))
    with (flat_map (exec (Grp "message" message_re)) (exec spaces (c, t))) in E.
  apply head_flat_map in E as (l1 & [cx sx] & l2 & El & Hl1 & Hx).
  assert (Hin : In (cx, sx) (exec spaces (c, t))).
  { rewrite El. apply in_or_app. right. by left. }
  apply exec_plain in Hin as (-> & ws & -> & Hws); [|done].
  assert (Hm : In (c', rest) (exec (Grp "message" message_re) (c, sx))).
  { destruct (exec (Grp "message" message_re) (c, sx)); [done|].
    injection Hx as ->. by left. }
  apply exec_group in Hm as (msg & -> & Hmsg & ->); [|done].
  exists ws, msg. apply lang_spaces in Hws. apply lang_message in Hmsg.
  split_and!; [done..| |].
  - (* the message is not cut short *)
    change (exec (Grp "message" message_re) (c, msg ++ rest))
      with (map (fun st' : mstate =>
               (("message"%string,
                 firstn (length (msg ++ rest) - length (snd st')) (msg ++ rest))
                  :: fst st', snd st'))
              (exec message_re (c, msg ++ rest))) in Hx.
    unfold message_re in Hx. rewrite exec_plus_cls in Hx.
    destruct (msg ++ rest) as [|a u] eqn:Eu; [done|].
    destruct (not_newline a); [|done].
    destruct (star_cls not_newline c u) as [|[c0 s0] l] eqn:Es; [done|].
    assert (s0 = rest) as -> by (simpl in Hx; congruence).
    assert (Hh : head (star_cls not_newline c u) = Some (c0, rest))
      by by rewrite Es.
    apply star_cls_head in Hh as (_ & _ & _ & _ & Hr). simpl in Hr.
    destruct rest as [|b r]; [by left|]. right. exists r. f_equal.
    unfold not_newline in Hr. apply negb_false_iff, N.eqb_eq in Hr. by subst.
  - (* no attempt with more white space succeeds *)
    intros ws' msg' rest' E' Hws' Hmsg'.
    assert (Hz : In (c, msg' ++ rest') (exec spaces (c, ws ++ msg ++ rest))).
    { apply exec_plain; [done|]. split; [done|]. exists ws'.
      split; [done|]. by apply lang_spaces. }
    assert (Hnz : exec (Grp "message" message_re) (c, msg' ++ rest') <> []).
    { intros Hno.
      assert (In (("message"%string, msg') :: c, rest')
                (exec (Grp "message" message_re) (c, msg' ++ rest'))) as Hi.
      { apply exec_group; [done|]. exists msg'. split_and!; [done| |done].
        by apply lang_message. }
      by rewrite Hno in Hi. }
    assert (Hlen : (length (msg ++ rest) <= length (msg' ++ rest'))%nat).
    { rewrite El in Hz. apply in_app_or in Hz as [Hz|[Hz|Hz]].
      - rewrite List.Forall_forall in Hl1. by apply Hl1 in Hz.
      - by injection Hz as ->.
      - apply in_split in Hz as (l2a & l2b & ->).
        unfold spaces in El. rewrite exec_plus_cls in El.
        destruct (ws ++ msg ++ rest) as [|a u] eqn:Et; [by destruct l1|].
        destruct (is_space a); [|by destruct l1].
        assert (El' : star_cls is_space c u =
          (l1 ++ (c, msg ++ rest) :: l2a) ++ (c, msg' ++ rest') :: l2b)
          by (by rewrite El, <- app_assoc).
        clear El. rename El' into El.
        apply (star_cls_order _ _ _ (l1 ++ (c, msg ++ rest) :: l2a)
                 (c, msg' ++ rest') l2b) in El.
        rewrite List.Forall_forall in El.
        specialize (El (c, msg ++ rest)). unfold shorter in El. simpl in El.
        assert (length (msg ++ rest) < length (msg' ++ rest'))%nat; [|lia].
        apply El. apply in_or_app. right. by left. }
    apply (f_equal length) in E'. rewrite !length_app in E', Hlen.
    rewrite !length_app in E'. lia.
Qed.

Lemma base_head line caps rest :
  head (exec BASE_PATTERN ([], line)) = Some (caps, rest) ->
  exists ts lvl comp ws msg,
    caps = base_groups ts lvl comp msg /\
    line_parts line ts lvl comp ws msg rest /\
    (rest = [] \/ exists r, rest = chr "010" :: r) /\
    (forall ws' msg' rest', ws ++ msg ++ rest = ws' ++ msg' ++ rest' ->
       space_run ws' -> message_shape msg' -> (length ws' <= length ws)%nat).
Proof.
  unfold BASE_PATTERN. intros E.
  apply head_exec_cat in E as ([c1 s1] & H1 & E).
  apply head_exec_cat in E as ([c2 s2] & H2 & E).
  apply head_exec_cat in E as ([c3 s3] & H3 & E).
  apply head_exec_cat in E as ([c4 s4] & H4 & E).
  apply head_exec_cat in E as ([c5 s5] & H5 & E).
  apply head_exec_cat in E as ([c6 s6] & H6 & E).
  apply exec_group in H1 as (ts & -> & Hts & ->); [|done].
  apply exec_plain in H2 as (-> & ws1 & -> & Hws1); [|done].
  apply exec_group in H3 as (lvl & -> & Hlvl & ->); [|done].
  apply exec_plain in H4 as (-> & ws2 & -> & Hws2); [|done].
  apply exec_group in H5 as (comp & -> & Hcomp & ->); [|done].
  apply exec_plain in H6 as (-> & ? & -> & ->); [|done].
  apply base_tail in E as (ws & msg & -> & Hws & Hmsg & -> & Hrest & Hmax).
  exists ts, lvl, comp, ws, msg. split_and!; [done| |done|done].
  exists ws1, ws2. rewrite lang_timestamp in Hts. rewrite lang_level in Hlvl.
  rewrite lang_component in Hcomp. rewrite lang_spaces in Hws1, Hws2.
  split_and!; done.
Qed.

Lemma base_complete line ts lvl comp ws msg rest :
  line_parts line ts lvl comp ws msg rest ->
  exec BASE_PATTERN ([], line) <> [].
Proof.
  intros (ws1 & ws2 & -> & Hts & Hws1 & Hlvl & Hws2 & Hcomp & Hws & Hmsg).
  intros Hno.
  assert (In (base_groups ts lvl comp msg, rest)
    (exec BASE_PATTERN ([], ts ++ ws1 ++ lvl ++ ws2 ++ comp ++ cp ":" ++
       ws ++ msg ++ rest))) as Hi; [|by rewrite Hno in Hi].
  unfold BASE_PATTERN.
  apply exec_cat. eexists. split.
  { apply exec_group; [done|]. exists ts.
    split_and!; [done|by apply lang_timestamp|done]. }
  apply exec_cat. eexists. split.
  { apply exec_plain; [done|]. split; [done|]. exists ws1.
    split; [done|]. by apply lang_spaces. }
  apply exec_cat. eexists. split.
  { apply exec_group; [done|]. exists lvl.
    split_and!; [done|by apply lang_level|done]. }
  apply exec_cat. eexists. split.
  { apply exec_plain; [done|]. split; [done|]. exists ws2.
    split; [done|]. by apply lang_spaces. }
  apply exec_cat. eexists. split.
  { apply exec_group; [done|]. exists comp.
    split_and!; [done|by apply lang_component|done]. }
  apply exec_cat. eexists. split.
  { apply exec_plain; [done|]. split; [done|]. exists (cp ":"). done. }
  apply exec_cat. eexists. split.
  { apply exec_plain; [done|]. split; [done|]. exists ws.
    split; [done|]. by apply lang_spaces. }
  apply exec_group; [done|]. exists msg.
  split_and!; [done|by apply lang_message|done].
Qed.

End BasePattern.

Section ParseSpec.
Context {U : UnicodeData}.

Lemma parse_log_line_some line caps rest l :
  exec BASE_PATTERN ([], line) = (caps, rest) :: l ->
  exists ts lvl comp msg,
    caps = base_groups ts lvl comp msg /\
    parse_log_line line =
      Some {| timestamp := ts; level := lvl; component := comp; message := msg;
              handler := if decide (comp = DjangoLogComponent.REQUEST)
                         then extract_handler msg else None |}.
Proof.
  intros E.
  assert (H : head (exec BASE_PATTERN ([], line)) = Some (caps, rest))
    by by rewrite E.
  apply base_head in H as (ts & lvl & comp & ws & msg & -> & _).
  exists ts, lvl, comp, msg. split; [done|].
  unfold parse_log_line, re_match. by rewrite E.
Qed.

(** C1: [parse_log_line] is a function on all lines.  On a line that reads
    as timestamp, severity token, component under [django], colon and
    message, separated by white space, it returns the record of these
    fields: every reading of the line has the timestamp, the level and the
    component of the record, the white space before the message of the
    record is the longest any reading has, and the message runs to the end
    of the line.  On every other line it returns [None]. *)
Theorem parse_log_line_total_exact (line : str) :
  match parse_log_line line with
  | Some d =>
      exists ws rest,
        line_parts line (timestamp d) (level d) (component d) ws
          (message d) rest /\
        (rest = [] \/ exists r, rest = chr "010" :: r) /\
        (forall ts' lvl' comp' ws' msg' rest',
           line_parts line ts' lvl' comp' ws' msg' rest' ->
           ts' = timestamp d /\ lvl' = level d /\ comp' = component d /\
           (length ws' <= length ws)%nat)
  | None => ~ well_formed_line line
  end.
Proof.
  destruct (exec BASE_PATTERN ([], line)) as [|[caps rest] l] eqn:E.
  - unfold parse_log_line, re_match. rewrite E. simpl.
    intros (ts & lvl & comp & ws & msg & rest & H).
    by apply base_complete in H.
  - destruct (parse_log_line_some _ _ _ _ E) as (ts & lvl & comp & msg & -> & ->).
    assert (H : head (exec BASE_PATTERN ([], line)) =
                Some (base_groups ts lvl comp msg, rest)) by by rewrite E.
    apply base_head in H as (ts' & lvl' & comp' & ws & msg' & Hc & Hp & Hr & Hm).
    injection Hc as <- <- <- <-. simpl. exists ws, rest.
    split_and!; [done..|].
    intros ts' lvl' comp' ws' msg'' rest' Hp'.
    destruct (line_parts_unique _ _ _ _ _ _ _ _ _ _ _ _ _ Hp Hp')
      as (<- & <- & <- & Etail).
    split_and!; [done..|].
    destruct Hp' as (? & ? & _ & _ & _ & _ & _ & _ & Hws' & Hmsg').
    by eapply Hm.
Qed.

End ParseSpec.

(** ** Tables of counters: facts *)

Section Tables.

Lemma oplus_comm a b : oplus a b = oplus b a.
Proof. destruct a, b; simpl; f_equal; lia. Qed.

Lemma oplus_assoc a b c : oplus a (oplus b c) = oplus (oplus a b) c.
Proof. destruct a, b, c; simpl; f_equal; lia. Qed.

Lemma oplus_None_r a : oplus a None = a.
Proof. by destruct a. Qed.

Lemma cell_add_count (d : table) h k c h' k' :
  cell (add_count d h k c) h' k' =
  if decide (h' = h /\ k' = k) then Some (default 0 (cell d h k) + c)
  else cell d h' k'.
Proof.
  unfold cell, add_count. destruct (decide (h' = h)) as [->|Hh].
  - rewrite lookup_insert_eq. simpl. destruct (decide (k' = k)) as [->|Hk].
    + rewrite lookup_insert_eq. rewrite decide_True by done.
      by destruct (d !! h).
    + rewrite lookup_insert_ne by done. rewrite decide_False by tauto.
      by destruct (d !! h).
  - rewrite lookup_insert_ne by done. by rewrite decide_False by tauto.
Qed.

Lemma cell_add_count_oplus (d : table) h k c h' k' :
  cell (add_count d h k c) h' k' =
  oplus (cell d h' k') (if decide (h' = h /\ k' = k) then Some c else None).
Proof.
  rewrite cell_add_count. case_decide as H.
  - destruct H as [-> ->]. by destruct (cell d h k).
  - by rewrite oplus_None_r.
Qed.

Lemma no_empty_add_count (d : table) h k c :
  no_empty d -> no_empty (add_count d h k c).
Proof.
  intros Hd h' l. unfold add_count. destruct (decide (h' = h)) as [->|Hh].
  - rewrite lookup_insert_eq. intros [= <-]. apply insert_non_empty.
  - rewrite lookup_insert_ne by done. apply Hd.
Qed.

Lemma no_empty_empty : no_empty ∅.
Proof. intros h l. by rewrite lookup_empty. Qed.

(** Tables without empty rows are equal when their cells are. *)
Lemma table_ext (d1 d2 : table) :
  no_empty d1 -> no_empty d2 ->
  (forall h k, cell d1 h k = cell d2 h k) -> d1 = d2.
Proof.
  intros H1 H2 Hc. apply map_eq. intros h.
  assert (Hrow : forall (a b : table), no_empty a ->
            (forall k, cell a h k = cell b h k) ->
            forall l, a !! h = Some l -> b !! h = Some l).
  { intros a b Ha Hab l El. specialize (Ha h l El).
    destruct (b !! h) as [l'|] eqn:El'.
    - f_equal. apply map_eq. intros k. specialize (Hab k).
      unfold cell in Hab. by rewrite El, El' in Hab.
    - apply map_choose in Ha as (k & x & Hk). specialize (Hab k).
      unfold cell in Hab. rewrite El, El' in Hab. simpl in Hab. congruence. }
  destruct (d1 !! h) as [l|] eqn:E1.
  - symmetry. by eapply (Hrow d1 d2).
  - destruct (d2 !! h) as [l|] eqn:E2; [|done].
    erewrite (Hrow d2 d1) in E1; [done..| |done]. intros k. by rewrite Hc.
Qed.

Lemma merge_one_spec (acc r : table) :
  (no_empty acc -> no_empty (merge_one acc r)) /\
  forall h k, cell (merge_one acc r) h k = oplus (cell acc h k) (cell r h k).
Proof.
  unfold merge_one.
  apply (map_fold_weak_ind (fun (b : table) (m : table) =>
    (no_empty acc -> no_empty b) /\
    forall h k, cell b h k = oplus (cell acc h k) (cell m h k))).
  - split; [done|]. intros h k. unfold cell at 3. rewrite lookup_empty.
    simpl. by rewrite oplus_None_r.
  - intros i x m b Hi [IHn IHc].
    apply (map_fold_weak_ind (fun (b' : table) (lv : counters) =>
      (no_empty acc -> no_empty b') /\
      forall h k, cell b' h k =
        oplus (cell acc h k) (cell (<[i := lv]> m) h k))).
    + split; [done|]. intros h k. rewrite IHc. f_equal. unfold cell.
      destruct (decide (h = i)) as [->|Hh].
      * by rewrite lookup_insert_eq, Hi.
      * by rewrite lookup_insert_ne.
    + intros j c lv b' Hj [IHn' IHc']. split.
      { intros Ha. by apply no_empty_add_count, IHn'. }
      intros h k. rewrite cell_add_count_oplus, IHc', <- oplus_assoc. f_equal.
      unfold cell. destruct (decide (h = i)) as [->|Hh].
      * rewrite !lookup_insert_eq. simpl.
        destruct (decide (k = j)) as [->|Hk].
        -- rewrite lookup_insert_eq, Hj, decide_True by done. done.
        -- rewrite lookup_insert_ne by done. rewrite decide_False by tauto.
           by rewrite oplus_None_r.
      * rewrite !lookup_insert_ne by done. rewrite decide_False by tauto.
        by rewrite oplus_None_r.
Qed.

Lemma fold_merge_one_spec (l : list table) : forall acc,
  (no_empty acc -> no_empty (foldl merge_one acc l)) /\
  forall h k, cell (foldl merge_one acc l) h k =
              oplus (cell acc h k) (cells_sum l h k).
Proof.
  induction l as [|r l IH]; intros acc; simpl.
  - split; [done|]. intros. by rewrite oplus_None_r.
  - destruct (IH (merge_one acc r)) as [IHn IHc].
    destruct (merge_one_spec acc r) as [Hn Hc]. split; [auto|].
    intros h k. by rewrite IHc, Hc, oplus_assoc.
Qed.

Lemma cell_merged_data l h k : cell (merged_data l) h k = cells_sum l h k.
Proof.
  unfold merged_data. destruct (fold_merge_one_spec l ∅) as [_ ->].
  unfold cell at 1. by rewrite lookup_empty.
Qed.

Lemma no_empty_merged_data l : no_empty (merged_data l).
Proof. apply fold_merge_one_spec, no_empty_empty. Qed.

Lemma cells_sum_app l1 l2 h k :
  cells_sum (l1 ++ l2) h k = oplus (cells_sum l1 h k) (cells_sum l2 h k).
Proof.
  induction l1 as [|r l1 IH]; simpl; [done|]. by rewrite IH, oplus_assoc.
Qed.

Lemma cells_sum_perm l1 l2 h k :
  Permutation l1 l2 -> cells_sum l1 h k = cells_sum l2 h k.
Proof.
  induction 1 as [|r l1 l2 _ IH|r1 r2 l|l1 l2 l3 _ IH1 _ IH2]; simpl.
  - done.
  - by rewrite IH.
  - rewrite !oplus_assoc. f_equal. apply oplus_comm.
  - by rewrite IH1.
Qed.

(** The merged table does not depend on the order of the partial results. *)
Lemma merged_data_perm l1 l2 :
  Permutation l1 l2 -> merged_data l1 = merged_data l2.
Proof.
  intros Hp. apply table_ext; [apply no_empty_merged_data..|].
  intros h k. rewrite !cell_merged_data. by apply cells_sum_perm.
Qed.

(** Merging merged groups is merging everything at once. *)
Lemma merged_data_groups (groups : list (list table)) :
  merged_data (map merged_data groups) = merged_data (concat groups).
Proof.
  apply table_ext; [apply no_empty_merged_data..|].
  intros h k. rewrite !cell_merged_data.
  induction groups as [|g groups IH]; simpl; [done|].
  by rewrite cells_sum_app, IH, cell_merged_data.
Qed.

(** Merging some first and the rest with their merge is merging all. *)
Lemma merged_data_incremental (first rest : list table) :
  merged_data (merged_data first :: rest) = merged_data (first ++ rest).
Proof.
  apply table_ext; [apply no_empty_merged_data..|].
  intros h k. rewrite !cell_merged_data, cells_sum_app. simpl.
  by rewrite cell_merged_data.
Qed.

Lemma merged_data_single (d : table) : no_empty d -> merged_data [d] = d.
Proof.
  intros Hd. apply table_ext; [apply no_empty_merged_data|done|].
  intros h k. rewrite cell_merged_data. simpl. by rewrite oplus_None_r.
Qed.

End Tables.

(** ** Sorting: facts *)

Section Sorting.

Lemma str_le_refl a : str_le a a = true.
Proof.
  induction a as [|x a IH]; simpl; [done|]. by rewrite N.ltb_irrefl.
Qed.

Lemma str_le_total a b : str_le a b = false -> str_le b a = true.
Proof.
  revert b. induction a as [|x a IH]; intros [|y b]; simpl; try done.
  destruct (N.ltb_spec x y), (N.ltb_spec y x); try done; try lia. apply IH.
Qed.

Lemma str_le_trans a b c :
  str_le a b = true -> str_le b c = true -> str_le a c = true.
Proof.
  revert b c. induction a as [|x a IH]; intros [|y b] [|z c]; simpl; try done.
  destruct (N.ltb_spec x y), (N.ltb_spec y x), (N.ltb_spec y z),
    (N.ltb_spec z y), (N.ltb_spec x z), (N.ltb_spec z x);
    try done; try lia. apply IH.
Qed.

Lemma str_le_antisym a b : str_le a b = true -> str_le b a = true -> a = b.
Proof.
  revert b. induction a as [|x a IH]; intros [|y b]; simpl; try done.
  destruct (N.ltb_spec x y), (N.ltb_spec y x); try done; try lia.
  intros H1 H2. f_equal; [lia|]. by apply IH.
Qed.

Context {A : Type} (key : A -> str).

Lemma insert_by_perm x l : Permutation (insert_by key x l) (x :: l).
Proof.
  induction l as [|y l IH]; simpl; [done|].
  destruct (str_le (key x) (key y)); [done|].
  rewrite IH. apply perm_swap.
Qed.

Lemma sorted_by_perm l : Permutation (sorted_by key l) l.
Proof.
  induction l as [|x l IH]; simpl; [done|].
  rewrite insert_by_perm. by constructor.
Qed.

Lemma insert_by_sorted x l :
  StronglySorted (key_le key) l -> StronglySorted (key_le key) (insert_by key x l).
Proof.
  induction 1 as [|y l Hl IH Hy]; simpl.
  - repeat constructor.
  - destruct (str_le (key x) (key y)) eqn:E.
    + constructor; [by constructor|]. constructor; [done|].
      eapply List.Forall_impl; [|exact Hy]. intros z Hz.
      unfold key_le in *. by eapply str_le_trans.
    + constructor; [done|].
      assert (Forall (key_le key y) (x :: l)) as Hxl.
      { constructor; [|done]. by apply str_le_total. }
      by rewrite <- (insert_by_perm x l) in Hxl.
Qed.

Lemma sorted_by_sorted l : StronglySorted (key_le key) (sorted_by key l).
Proof.
  induction l as [|x l IH]; simpl; [constructor|]. by apply insert_by_sorted.
Qed.

(** With distinct keys the order is strict. *)
Lemma sorted_strict l :
  StronglySorted (key_le key) l -> NoDup (map key l) ->
  StronglySorted (fun a b => str_lt (key a) (key b)) l.
Proof.
  induction 1 as [|y l Hl IH Hy]; simpl; intros Hnd; [constructor|].
  apply NoDup_cons in Hnd as [Hy' Hnd]. constructor; [auto|].
  apply List.Forall_forall. intros z Hz. split.
  - rewrite List.Forall_forall in Hy. by apply Hy.
  - intros E. apply Hy'. rewrite E. apply list_elem_of_In, in_map, Hz.
Qed.

End Sorting.

(** ** The merged rows: facts *)

Section MergedRows.

Lemma map_fmap {A B} (f : A -> B) (l : list A) : map f l = f <$> l.
Proof.
  induction l as [|a l IH]; [done|]. rewrite fmap_cons. simpl. by f_equal.
Qed.

Lemma default_cells_sum l h name :
  default 0 (cells_sum l h (cp name)) = total_of l h name.
Proof.
  induction l as [|r l IH]; simpl; [done|]. rewrite <- IH.
  by destruct (cell r h (cp name)), (cells_sum l h (cp name)); simpl; lia.
Qed.

Lemma merge_results_rows l row :
  In row (_merge_results l) <->
  exists h lv, merged_data l !! h = Some lv /\ row = report_row (h, lv).
Proof.
  unfold _merge_results. rewrite in_map_iff. split.
  - intros ([h lv] & <- & Hin). exists h, lv. split; [|done].
    apply elem_of_map_to_list, list_elem_of_In.
    by rewrite <- (sorted_by_perm fst (map_to_list (merged_data l))).
  - intros (h & lv & Hl & ->). exists (h, lv). split; [done|].
    apply list_elem_of_In. rewrite sorted_by_perm.
    by apply elem_of_map_to_list.
Qed.

Lemma merge_results_totals l row :
  In row (_merge_results l) -> counters_are_totals l row.
Proof.
  intros (h & lv & Hl & ->)%merge_results_rows.
  assert (Hg : forall name, get0 lv name = total_of l h name).
  { intros name. rewrite <- default_cells_sum, <- cell_merged_data.
    unfold get0, cell. by rewrite Hl. }
  unfold counters_are_totals. simpl. by rewrite !Hg.
Qed.

Lemma merge_results_strict l :
  StronglySorted (fun a b => str_lt (handler_name a) (handler_name b))
    (_merge_results l).
Proof.
  unfold _merge_results.
  set (items := map_to_list (merged_data l)).
  assert (Hs : StronglySorted (fun a b : str * counters => str_lt (fst a) (fst b))
                 (sorted_by fst items)).
  { apply sorted_strict; [apply sorted_by_sorted|].
    rewrite map_fmap, (sorted_by_perm fst items).
    apply NoDup_fst_map_to_list. }
  induction Hs as [|x xs _ IH Hx]; simpl; constructor; [done|].
  apply List.Forall_forall. intros y (z & <- & Hz)%in_map_iff.
  rewrite List.Forall_forall in Hx. by apply Hx.
Qed.

End MergedRows.

(** C10: the list [_merge_results] returns, and so the list
    [process_files] returns, is already in ascending order of
    [handler_name] (strictly: no handler occurs twice), whatever the partial
    results were. *)
Theorem merge_results_sorted {U : UnicodeData} (partial_results : list table)
    (how : strategy) (fs : file_system) (file_paths : list str) :
  StronglySorted (fun a b => str_lt (handler_name a) (handler_name b))
    (_merge_results partial_results) /\
  match process_files how fs file_paths with
  | Ends (inr rows) =>
      StronglySorted (fun a b => str_lt (handler_name a) (handler_name b)) rows
  | Ends (inl _) => True
  | Hangs => True
  end.
Proof.
  split; [apply merge_results_strict|].
  unfold process_files.
  destruct how as [|sizes completion].
  - destruct (map_seq _ _) as [[]|]; [done..|]. apply merge_results_strict.
  - destruct (pool_map _ _ _ _) as [[[]|]|]; [done..| |done].
    apply merge_results_strict.
Qed.

(** C2: merging is commutative and associative.  For partial results [l],
    any reordering [l'] of them and any way [groups] of cutting [l'] into
    groups: merging [l'] gives the rows of merging [l]; merging the groups
    one by one and then merging the merged groups gives them too, and so
    does merging some of them first and the others with their merge; each
    counter of each row is the sum of that counter over the partial
    results, a missing one counting as zero; and no partial result gives
    no row. *)
Theorem merge_results_assoc_comm (l l' : list table)
    (groups : list (list table)) :
  Permutation l l' ->
  concat groups = l' ->
  _merge_results l' = _merge_results l /\
  _merge_results (map merged_data groups) = _merge_results l /\
  (forall first rest, first ++ rest = l' ->
     _merge_results (merged_data first :: rest) = _merge_results l) /\
  (forall row, In row (_merge_results l) -> counters_are_totals l row) /\
  _merge_results [] = [].
Proof.
  intros Hp Hg. split_and!.
  - unfold _merge_results. by rewrite (merged_data_perm l l').
  - unfold _merge_results.
    by rewrite merged_data_groups, Hg, (merged_data_perm l l').
  - intros first rest E. unfold _merge_results.
    by rewrite merged_data_incremental, E, (merged_data_perm l l').
  - apply merge_results_totals.
  - done.
Qed.

Section Lines.
Context {U : UnicodeData}.

Lemma process_line_cell (d : table) line :
  process_line d line =
  match line_cell line with
  | Some (h, k) => add_count d h k 1
  | None => d
  end.
Proof.
  unfold process_line, line_cell. destruct (parse_log_line line) as [ld|]; [|done].
  case_decide; [|done]. by destruct (handler ld).
Qed.

Lemma fold_process_line_spec (lines : list str) : forall acc,
  (no_empty acc -> no_empty (foldl process_line acc lines)) /\
  forall h k, cell (foldl process_line acc lines) h k =
              oplus (cell acc h k) (tally lines h k).
Proof.
  induction lines as [|line lines IH]; intros acc; simpl.
  - split; [done|]. intros. by rewrite oplus_None_r.
  - destruct (IH (process_line acc line)) as [IHn IHc]. split.
    + intros Ha. apply IHn. rewrite process_line_cell.
      destruct (line_cell line) as [[h k]|]; [|done].
      by apply no_empty_add_count.
    + intros h k. rewrite IHc, oplus_assoc. f_equal.
      rewrite process_line_cell. destruct (line_cell line) as [[h' k']|].
      * rewrite cell_add_count_oplus. f_equal.
        destruct (decide (h = h' /\ k = k')) as [[-> ->]|Hne].
        -- by rewrite decide_True.
        -- rewrite decide_False; [done|]. intros [= -> ->]. tauto.
      * rewrite decide_False by done. by rewrite oplus_None_r.
Qed.

Lemma cell_process_lines lines h k :
  cell (process_lines lines) h k = tally lines h k.
Proof.
  unfold process_lines. destruct (fold_process_line_spec lines ∅) as [_ ->].
  unfold cell at 1. by rewrite lookup_empty.
Qed.

Lemma no_empty_process_lines lines : no_empty (process_lines lines).
Proof. apply fold_process_line_spec, no_empty_empty. Qed.

Lemma tally_app l1 l2 h k :
  tally (l1 ++ l2) h k = oplus (tally l1 h k) (tally l2 h k).
Proof.
  induction l1 as [|x l1 IH]; simpl; [done|]. by rewrite IH, oplus_assoc.
Qed.

(** The table of a source is the merge of the tables of its two parts. *)
Lemma merged_data_split l1 l2 :
  merged_data [process_lines l1; process_lines l2] = process_lines (l1 ++ l2).
Proof.
  apply table_ext; [apply no_empty_merged_data|apply no_empty_process_lines|].
  intros h k. rewrite cell_merged_data, !cell_process_lines, tally_app. simpl.
  by rewrite !cell_process_lines, oplus_None_r.
Qed.

End Lines.

(** C3: cutting the lines of a source in two at any place, aggregating the
    two parts apart and merging the two partial aggregates gives what
    aggregating the whole source as one gives: the same merged table, which
    is the table of the whole source, and the same rows. *)
Theorem split_aggregate_merge {U : UnicodeData} (lines : list str) (n : nat) :
  merged_data [process_lines (firstn n lines); process_lines (skipn n lines)] =
    process_lines lines /\
  _merge_results
    [process_lines (firstn n lines); process_lines (skipn n lines)] =
    _merge_results [process_lines lines].
Proof.
  assert (E : merged_data
            [process_lines (firstn n lines); process_lines (skipn n lines)] =
          process_lines lines).
  { by rewrite merged_data_split, firstn_skipn. }
  split; [done|]. unfold _merge_results.
  by rewrite E, merged_data_single by apply no_empty_process_lines.
Qed.

(** C7: a line that parses with a component other than [django.request]
    gets no handler, whatever its message says, and counts nowhere: the
    table is the same after the line as before it, and so the table of a
    source is the table of the source without the line. *)
Theorem other_components_count_nothing {U : UnicodeData} (line : str)
    (d : LogData) :
  parse_log_line line = Some d ->
  component d <> DjangoLogComponent.REQUEST ->
  handler d = None /\
  (forall tbl : table, process_line tbl line = tbl) /\
  (forall before after : list str,
     process_lines (before ++ line :: after) = process_lines (before ++ after)).
Proof.
  intros Hp Hc.
  assert (Hl : forall tbl : table, process_line tbl line = tbl).
  { intros tbl. unfold process_line. rewrite Hp. by rewrite decide_False. }
  split_and!; [|done|].
  - unfold parse_log_line in Hp.
    destruct (re_match BASE_PATTERN line) as [m|]; [|done].
    destruct (group "timestamp" m), (group "level" m),
      (group "component" m) as [c|], (group "message" m); try done.
    injection Hp as <-. simpl in *. by rewrite decide_False.
  - intros before after. unfold process_lines.
    by rewrite !foldl_app; simpl; rewrite Hl.
Qed.

Section HandlerKeys.
Context {U : UnicodeData}.

Lemma lang_path w : lang path_re w <-> path_shape w.
Proof.
  unfold path_re, path_shape. split.
  - intros (w1 & t & -> & Hw1 & Ht). simpl in Hw1. subst w1.
    apply lang_plus_cls in Ht as [Hne Ht]. split; [by exists t|].
    constructor; [|done]. reflexivity.
  - intros [(t & -> & Hne) Hall]. exists [chr "/"], t.
    split_and!; [done..|]. apply lang_plus_cls. split; [done|].
    by inversion Hall.
Qed.

Lemma re_match_in r s caps :
  re_match r s = Some caps -> exists rest, In (caps, rest) (exec r ([], s)).
Proof.
  unfold re_match. destruct (exec r ([], s)) as [|[c rest] l]; [done|].
  intros [= <-]. exists rest. by left.
Qed.

Lemma re_search_in r s caps :
  re_search r s = Some caps ->
  exists s' rest, In (caps, rest) (exec r ([], s')).
Proof.
  induction s as [|x s IH]; simpl.
  - destruct (re_match r []) eqn:E; [|done]. intros [= <-].
    apply re_match_in in E as (rest & ?). eauto.
  - destruct (re_match r (x :: s)) eqn:E.
    + intros [= <-]. apply re_match_in in E as (rest & ?). eauto.
    + apply IH.
Qed.

(** A match of the request pattern has exactly one of the two groups, and
    the group holds a path. *)
Lemma request_groups s caps rest :
  In (caps, rest) (exec REQUEST_PATTERN ([], s)) ->
  exists w, path_shape w /\
    (caps = [("handler"%string, w)] \/ caps = [("error_handler"%string, w)]).
Proof.
  unfold REQUEST_PATTERN. intros H.
  change (exec (Alt ?a ?b) ?st) with (exec a st ++ exec b st) in H.
  apply in_app_or in H as [H|H].
  - apply exec_cat in H as ([c1 s1] & H1 & H).
    apply exec_cat in H as ([c2 s2] & H2 & H).
    apply exec_plain in H1 as (-> & _); [|done].
    apply exec_plain in H2 as (-> & _); [|done].
    apply exec_group in H as (w & _ & Hw%lang_path & ->); [|done]. eauto.
  - apply exec_cat in H as ([c1 s1] & H1 & H).
    apply exec_cat in H as ([c2 s2] & H2 & H).
    apply exec_plain in H1 as (-> & _); [|done].
    apply exec_plain in H2 as (-> & _); [|done].
    apply exec_group in H as (w & _ & Hw%lang_path & ->); [|done]. eauto.
Qed.

Lemma extract_handler_path msg h :
  extract_handler msg = Some h -> path_shape h.
Proof.
  unfold extract_handler.
  destruct (re_search REQUEST_PATTERN msg) as [caps|] eqn:E; [|done].
  apply re_search_in in E as (s' & rest & Hin).
  apply request_groups in Hin as (w & Hw & [-> | ->]); simpl.
  - pose proof Hw as [(t & Et & _) _]. subst w. simpl. by intros [= <-].
  - pose proof Hw as [(t & Et & _) _]. subst w. simpl. by intros [= <-].
Qed.

Lemma parse_handler_path line d h :
  parse_log_line line = Some d -> handler d = Some h -> path_shape h.
Proof.
  unfold parse_log_line.
  destruct (re_match BASE_PATTERN line) as [m|]; [|done].
  destruct (group "timestamp" m), (group "level" m),
    (group "component" m) as [c|], (group "message" m) as [msg|]; try done.
  intros [= <-]. simpl. case_decide; [|done]. apply extract_handler_path.
Qed.

Lemma line_cell_path line h k : line_cell line = Some (h, k) -> path_shape h.
Proof.
  unfold line_cell. destruct (parse_log_line line) as [d|] eqn:E; [|done].
  case_decide; [|done]. destruct (handler d) as [h'|] eqn:Eh; [|done].
  intros [= <- _]. by eapply parse_handler_path.
Qed.

Lemma tally_some lines h k :
  is_Some (tally lines h k) ->
  exists line, In line lines /\ line_cell line = Some (h, k).
Proof.
  induction lines as [|line lines IH]; simpl; [by intros [? ?]|].
  case_decide as Hc.
  - intros _. exists line. auto.
  - simpl. intros (line' & ? & ?)%IH. exists line'. auto.
Qed.

Lemma process_lines_key lines h :
  is_Some (process_lines lines !! h) -> path_shape h.
Proof.
  intros [lv Hlv].
  destruct (map_choose lv (no_empty_process_lines lines h lv Hlv))
    as (k & x & Hk).
  assert (Hc : cell (process_lines lines) h k = Some x).
  { unfold cell. by rewrite Hlv. }
  rewrite cell_process_lines in Hc.
  destruct (tally_some lines h k) as (line & _ & Hl); [by rewrite Hc|].
  by eapply line_cell_path.
Qed.

Lemma cells_sum_some l h k :
  is_Some (cells_sum l h k) -> exists r, In r l /\ is_Some (cell r h k).
Proof.
  induction l as [|r l IH]; simpl; [by intros [? ?]|].
  destruct (cell r h k) as [x|] eqn:E.
  - intros _. exists r. split; [auto|]. by rewrite E.
  - simpl. intros (r' & ? & ?)%IH. exists r'. auto.
Qed.

Lemma merge_results_key (sources : list (list str)) row :
  In row (_merge_results (map process_lines sources)) ->
  path_shape (handler_name row).
Proof.
  intros (h & lv & Hl & ->)%merge_results_rows. simpl.
  destruct (map_choose lv (no_empty_merged_data _ h lv Hl)) as (k & x & Hk).
  assert (Hc : cell (merged_data (map process_lines sources)) h k = Some x).
  { unfold cell. by rewrite Hl. }
  rewrite cell_merged_data in Hc.
  destruct (cells_sum_some (map process_lines sources) h k)
    as (r & Hr & [y Hy]); [by rewrite Hc|].
  apply in_map_iff in Hr as (lines & <- & _).
  apply (process_lines_key lines). unfold cell in Hy.
  destruct (process_lines lines !! h); [eauto|done].
Qed.

End HandlerKeys.

(** C9: a handler key begins with [/] and has no white space in it,
    wherever it enters: as the handler the parser attributes to a line, as
    a key of the table of a source, or as the handler of a row merged from
    the tables of sources. *)
Theorem handler_keys_are_paths {U : UnicodeData} (lines : list str)
    (sources : list (list str)) (h : str) :
  (exists line d, In line lines /\ parse_log_line line = Some d /\
     handler d = Some h) \/
  is_Some (process_lines lines !! h) \/
  In h (map handler_name (_merge_results (map process_lines sources))) ->
  (exists t, h = chr "/" :: t) /\ Forall (fun c => is_space c = false) h.
Proof.
  intros H.
  assert (Hp : path_shape h).
  { destruct H as [(line & d & _ & Hd & Hh)|[H|H]].
    - by eapply parse_handler_path.
    - by eapply process_lines_key.
    - apply in_map_iff in H as (row & <- & Hrow).
      by eapply merge_results_key. }
  destruct Hp as [(t & -> & _) Hall]. split; [eauto|].
  eapply List.Forall_impl; [|exact Hall]. intros c Hc.
  by apply negb_true_iff.
Qed.

(** ** The report: facts *)

Section Report.

Lemma foldl_add a l : foldl Z.add a l = a + foldr Z.add 0 l.
Proof.
  revert a. induction l as [|x l IH]; intros a; simpl; [lia|].
  rewrite IH. lia.
Qed.

Lemma py_sum_map f rows : py_sum (map f rows) = column_sum f rows.
Proof.
  unfold py_sum. rewrite foldl_add, Z.add_0_l.
  induction rows as [|r rows IH]; simpl; [done|]. by rewrite IH.
Qed.

Lemma column_sum_perm f rows rows' :
  Permutation rows rows' -> column_sum f rows = column_sum f rows'.
Proof.
  induction 1 as [|r l1 l2 _ IH|r1 r2 l|l1 l2 l3 _ IH1 _ IH2]; simpl; lia.
Qed.

Lemma column_sum_ext f g rows :
  (forall r, f r = g r) -> column_sum f rows = column_sum g rows.
Proof.
  intros E. induction rows as [|r rows IH]; simpl; [done|]. by rewrite E, IH.
Qed.

Lemma calculate_total_rows rows :
  HandlersReport._calculate_total rows = column_sum row_total rows.
Proof.
  unfold HandlersReport._calculate_total. rewrite py_sum_map.
  apply column_sum_ext. intros r. unfold row_total, py_sum. simpl. lia.
Qed.

Lemma row_total_totals rows :
  row_total (create_totals rows) = column_sum row_total rows.
Proof.
  unfold row_total, create_totals. cbn [debug_count info_count warning_count
    error_count critical_count]. rewrite !py_sum_map.
  induction rows as [|r rows IH]; simpl; [done|]. lia.
Qed.

End Report.

Section ReportLayout.

Lemma join_cons (sep x : str) (l : list str) :
  join sep (x :: l) = x ++ concat (map (fun y => sep ++ y) l).
Proof.
  revert x. induction l as [|y l IH]; intros x.
  - simpl. by rewrite app_nil_r.
  - change (join sep (x :: y :: l)) with (x ++ sep ++ join sep (y :: l)).
    rewrite IH. cbn [map concat]. by rewrite <- !app_assoc.
Qed.

Lemma cp_text (s : string) :
  string_of_list_ascii (map ascii_of_N (cp s)) = s.
Proof.
  unfold cp. rewrite map_map.
  rewrite (map_ext _ (fun a => a)) by apply ascii_N_embedding.
  rewrite map_id. apply string_of_list_ascii_of_string.
Qed.

(** [str(n)] writes [n] in decimal digits. *)
Lemma str_of_int_decimal (n : Z) :
  decimal_value (HandlersReport.str_of_int n) = Some n.
Proof.
  unfold decimal_value, HandlersReport.str_of_int. rewrite cp_text.
  rewrite NilZero.isi.
  - cbn [fmap option_fmap option_map]. by rewrite DecimalZ.of_to.
  - destruct n as [|q|q]; cbn [Z.to_int]; [discriminate| |].
    + intros [= H]. by destruct (DecimalPos.Unsigned.to_uint_nonnil q).
    + discriminate.
  - destruct n as [|q|q]; cbn [Z.to_int]; [discriminate|discriminate|].
    intros [= H]. by destruct (DecimalPos.Unsigned.to_uint_nonnil q).
Qed.

Lemma format_statistics_text (title : str) (r : DjangoReportData) :
  HandlersReport._format_statistics title r =
  line_text title (counter_texts HandlersReport.str_of_int r).
Proof.
  unfold HandlersReport._format_statistics. rewrite join_cons. reflexivity.
Qed.

Lemma get_header_text :
  HandlersReport._get_header =
  line_text (cp "HANDLER")
    [cp "DEBUG"; cp "INFO"; cp "WARNING"; cp "ERROR"; cp "CRITICAL"].
Proof. unfold HandlersReport._get_header. rewrite join_cons. reflexivity. Qed.

Lemma generate_text (s0 : DjangoReportData) (stats : list DjangoReportData) :
  let l := s0 :: stats in
  HandlersReport.generate l =
    cp "Total requests: " ++
    HandlersReport.str_of_int (HandlersReport._calculate_total l) ++
    [chr "010"; chr "010"] ++
    line_text (cp "HANDLER")
      [cp "DEBUG"; cp "INFO"; cp "WARNING"; cp "ERROR"; cp "CRITICAL"] ++
    concat
      (map (fun r =>
              chr "010" ::
              line_text (handler_name r)
                (counter_texts HandlersReport.str_of_int r))
         (sorted_by handler_name l)) ++
    chr "010" ::
    line_text [] (counter_texts HandlersReport.str_of_int (create_totals l)).
Proof.
  intros l. unfold HandlersReport.generate. fold l.
  rewrite join_cons. cbn [map concat].
  rewrite map_app, concat_app, map_map. cbn [map concat].
  unfold HandlersReport._format_handler_line,
    HandlersReport._format_totals_line.
  rewrite get_header_text, format_statistics_text, app_nil_r, <- !app_assoc.
  rewrite (map_ext _ (fun r =>
             chr "010" ::
             line_text (handler_name r)
               (counter_texts HandlersReport.str_of_int r)))
    by (intros r; by rewrite format_statistics_text).
  reflexivity.
Qed.

End ReportLayout.

(** C5: for a list of statistics that is not empty the report is, text for
    text: [Total requests: ] and the number [N] in decimal digits, an empty
    line, the header line naming [HANDLER] and the five levels in the order
    DEBUG, INFO, WARNING, ERROR, CRITICAL, then one line per row of the
    list, in ascending order of handler name, and last one totals line
    with an empty name.  A line is the handler name padded with blanks to
    twenty characters and then, each after a tab, the five counters of the
    row in decimal digits, padded to seven.  Each counter of the totals is
    the sum of its column over the rows, and [N] is the sum of all the
    counters of all the rows. *)
Theorem report_layout (log_statistics : list DjangoReportData) :
  log_statistics <> [] ->
  exists (rows : list DjangoReportData) (totals : DjangoReportData) (N : Z),
    HandlersReport.generate log_statistics =
      cp "Total requests: " ++ HandlersReport.str_of_int N ++
      [chr "010"; chr "010"] ++
      line_text (cp "HANDLER")
        [cp "DEBUG"; cp "INFO"; cp "WARNING"; cp "ERROR"; cp "CRITICAL"] ++
      concat
        (map (fun r =>
                chr "010" ::
                line_text (handler_name r)
                  (counter_texts HandlersReport.str_of_int r)) rows) ++
      chr "010" ::
      line_text [] (counter_texts HandlersReport.str_of_int totals) /\
    (forall n, decimal_value (HandlersReport.str_of_int n) = Some n) /\
    Permutation rows log_statistics /\
    StronglySorted
      (fun a b => str_le (handler_name a) (handler_name b) = true) rows /\
    handler_name totals = [] /\
    debug_count totals = column_sum debug_count rows /\
    info_count totals = column_sum info_count rows /\
    warning_count totals = column_sum warning_count rows /\
    error_count totals = column_sum error_count rows /\
    critical_count totals = column_sum critical_count rows /\
    N = column_sum row_total rows /\
    N = row_total totals.
Proof.
  intros Hne. destruct log_statistics as [|s0 stats]; [done|].
  set (l := s0 :: stats).
  exists (sorted_by handler_name l), (create_totals l),
    (HandlersReport._calculate_total l).
  pose proof (sorted_by_perm handler_name l) as Hp.
  assert (Hc : forall f, py_sum (map f l) =
                         column_sum f (sorted_by handler_name l)).
  { intros f. rewrite py_sum_map. symmetry. by apply column_sum_perm. }
  split; [apply generate_text|].
  split; [apply str_of_int_decimal|].
  split_and!; try done.
  - apply (sorted_by_sorted handler_name).
  - apply Hc.
  - apply Hc.
  - apply Hc.
  - apply Hc.
  - apply Hc.
  - rewrite calculate_total_rows. symmetry. by apply column_sum_perm.
  - by rewrite calculate_total_rows, row_total_totals.
Qed.

(** C8: for no statistics the report is the fixed message and nothing
    else; and only for no statistics: a report with a header, rows and
    totals is never that message. *)
Theorem report_without_data :
  HandlersReport.generate [] = cp "No data available for report." /\
  (forall log_statistics,
     HandlersReport.generate log_statistics =
       HandlersReport.no_data_message <->
     log_statistics = []).
Proof.
  split; [reflexivity|]. intros log_statistics. split; [|by intros ->].
  destruct log_statistics as [|s0 stats]; [done|]. intros H. exfalso.
  unfold HandlersReport.generate in H.
  set (first_line := HandlersReport.str_of_int _ ++ _) in H.
  set (more := HandlersReport._get_header :: _) in H.
  destruct more as [|l ls] eqn:Em; [done|].
  change (join [chr "010"] ((cp "Total requests: " ++ first_line) :: l :: ls))
    with ((cp "Total requests: " ++ first_line) ++ [chr "010"] ++
          join [chr "010"] (l :: ls)) in H.
  discriminate H.
Qed.

(** C6: with two missing sources the run reports the first one alone:
    [process_files] without the pool raises the [LogFileError] of [a.log],
    the entry point prints for it one line about [a.log], and [b.log] is
    not mentioned.  No run of [process_files] raises [MultipleFilesError]:
    a failed run prints one line, whatever the sources and the strategy. *)
Theorem two_failures_first_only {U : UnicodeData} :
  process_files Sequential no_files [cp "a.log"; cp "b.log"] =
    Ends (inl (LogFileError (cp "a.log")
                 (cp "[Errno 2] No such file or directory: 'a.log'"))) /\
  match process_files Sequential no_files [cp "a.log"; cp "b.log"] with
  | Ends r =>
      stderr (main_from r) =
        [cp ("File error: Error processing file a.log: " ++
             "[Errno 2] No such file or directory: 'a.log'")]
  | Hangs => False
  end /\
  (forall how fs file_paths,
     match process_files how fs file_paths with
     | Ends (inl (MultipleFilesError _)) => False
     | Ends (inl e) => length (stderr (main_from (inl e))) = 1%nat
     | Ends (inr _) => True
     | Hangs => True
     end).
Proof.
  split_and!; [reflexivity..|].
  intros how fs file_paths. unfold process_files.
  by destruct how; [destruct (map_seq _ _) as [[]|]
                   |destruct (pool_map _ _ _ _) as [[[]|]|]].
Qed.

(** ** The worker pool against the plain loop *)

Section PoolTheory.
Context {A B : Type} (f : A -> result B).

Lemma concat_cut (sizes : list nat) (l : list A) : concat (cut sizes l) = l.
Proof.
  revert l. induction sizes as [|n sizes IH]; intros l; simpl.
  - apply app_nil_r.
  - by rewrite IH, firstn_skipn.
Qed.

Lemma map_seq_app l1 l2 :
  map_seq f (l1 ++ l2) =
  match map_seq f l1 with
  | inl e => inl e
  | inr y1 =>
      match map_seq f l2 with
      | inl e => inl e
      | inr y2 => inr (y1 ++ y2)
      end
  end.
Proof.
  induction l1 as [|x l1 IH]; simpl.
  - by destruct (map_seq f l2).
  - destruct (f x); [done|]. rewrite IH.
    destruct (map_seq f l1); [done|]. by destruct (map_seq f l2).
Qed.

(** The loop over all the tasks returns when every chunk does, with the
    results of the chunks one after the other. *)
Lemma map_seq_concat_ok (chunks : list (list A)) ys :
  map_seq f (concat chunks) = inr ys ->
  exists vs, Forall2 (fun ch v => map_seq f ch = inr v) chunks vs /\
             concat vs = ys.
Proof.
  revert ys. induction chunks as [|ch chunks IH]; intros ys; simpl.
  - intros [= <-]. exists []. by split; [constructor|].
  - rewrite map_seq_app. destruct (map_seq f ch) as [|v] eqn:Ech; [done|].
    destruct (map_seq f (concat chunks)) as [|ys'] eqn:E; [done|].
    intros [= <-]. destruct (IH ys' eq_refl) as (vs & Hvs & <-).
    exists (v :: vs). by split; [constructor|].
Qed.

(** The loop over all the tasks raises what the first failing chunk
    raises. *)
Lemma map_seq_concat_fail (chunks : list (list A)) e :
  map_seq f (concat chunks) = inl e ->
  exists i ch, chunks !! i = Some ch /\ map_seq f ch = inl e.
Proof.
  induction chunks as [|ch chunks IH]; simpl; [done|].
  rewrite map_seq_app. destruct (map_seq f ch) as [e'|v] eqn:Ech.
  - intros [= ->]. by exists 0%nat, ch.
  - destruct (map_seq f (concat chunks)) as [e''|] eqn:E; [|done].
    intros [= ->]. destruct (IH eq_refl) as (i & ch' & Hi & He).
    by exists (S i), ch'.
Qed.

Lemma unpickle_some e e' :
  unpickle e = Some e' -> exists m, e' = LogProcessingError m.
Proof. destruct e; intros [= <-]; eauto. Qed.

Context (run : nat -> result (list B)).

(** The thread that has died takes nothing more. *)
Lemma fold_handle_dead (completion : list nat) :
  foldl (_handle_results run) None completion = None.
Proof. by induction completion. Qed.

(** It dies when a chunk in the order of completion raises what cannot be
    built again. *)
Lemma fold_handle_unpickled (completion : list nat) st j e :
  In j completion -> run j = inl e -> unpickle e = None ->
  foldl (_handle_results run) st completion = None.
Proof.
  revert st. induction completion as [|i completion IH]; intros st Hj Hr Hu;
    simpl; [done|].
  destruct Hj as [->|Hj]; [|by apply IH].
  destruct st as [st|]; simpl; [|apply fold_handle_dead].
  rewrite Hr, Hu. apply fold_handle_dead.
Qed.

(** Every chunk that is taken is one chunk less to wait for. *)
Lemma fold_handle_left (completion : list nat) (st st' : MapResult B) :
  foldl (_handle_results run) (Some st) completion = Some st' ->
  _number_left st' = (_number_left st - length completion)%nat.
Proof.
  revert st. induction completion as [|i completion IH]; intros st; simpl.
  - intros [= <-]. lia.
  - assert (Hs : forall r, _number_left (_set st i r) =
                           pred (_number_left st)).
    { intros r. unfold _set. by destruct (_failure st), r. }
    destruct (run i) as [e0|v].
    + destruct (unpickle e0) as [e1|]; [|by rewrite fold_handle_dead].
      intros Hf. rewrite (IH _ Hf), Hs. lia.
    + intros Hf. rewrite (IH _ Hf), Hs. lia.
Qed.

(** The first failure stays. *)
Lemma fold_handle_failed (completion : list nat) (st st' : MapResult B) e :
  _failure st = Some e ->
  foldl (_handle_results run) (Some st) completion = Some st' ->
  _failure st' = Some e.
Proof.
  revert st. induction completion as [|i completion IH]; intros st Hst; simpl.
  - by intros [= <-].
  - assert (Hs : forall r, _failure (_set st i r) = Some e).
    { intros r. unfold _set. rewrite Hst. by destruct r. }
    destruct (run i) as [e0|v].
    + destruct (unpickle e0); [|by rewrite fold_handle_dead].
      by apply IH.
    + by apply IH.
Qed.

(** The failure that is kept is one that was built again. *)
Lemma fold_handle_kept (completion : list nat) (st st' : MapResult B) e :
  _failure st = None ->
  foldl (_handle_results run) (Some st) completion = Some st' ->
  _failure st' = Some e -> exists m, e = LogProcessingError m.
Proof.
  revert st. induction completion as [|i completion IH]; intros st Hst; simpl.
  - intros [= <-]. by rewrite Hst.
  - destruct (run i) as [e0|v].
    + destruct (unpickle e0) as [e1|] eqn:Hu; [|by rewrite fold_handle_dead].
      intros Hf He.
      assert (He' : _failure st' = Some e1).
      { eapply fold_handle_failed; [|exact Hf]. unfold _set. by rewrite Hst. }
      rewrite He' in He. injection He as <-. by eapply unpickle_some.
    + apply IH. unfold _set. by rewrite Hst.
Qed.

(** A failed chunk in the order of completion leaves a failure, when the
    thread lives. *)
Lemma fold_handle_fail (completion : list nat) (st st' : MapResult B) j e :
  In j completion -> run j = inl e ->
  foldl (_handle_results run) (Some st) completion = Some st' ->
  is_Some (_failure st').
Proof.
  revert st. induction completion as [|i completion IH]; intros st Hj Hr;
    simpl; [done|].
  destruct (_failure st) as [e0|] eqn:Hst.
  { intros Hf.
    rewrite (fold_handle_failed (i :: completion) st st' e0 Hst); [done|].
    exact Hf. }
  destruct Hj as [->|Hj].
  - rewrite Hr. destruct (unpickle e) as [e1|]; [|by rewrite fold_handle_dead].
    intros Hf.
    assert (He' : _failure st' = Some e1).
    { eapply fold_handle_failed; [|exact Hf]. unfold _set. by rewrite Hst. }
    by rewrite He'.
  - destruct (run i) as [e0|v].
    + destruct (unpickle e0); [|by rewrite fold_handle_dead]. by apply IH.
    + by apply IH.
Qed.

(** Without a failed chunk every completion fills its slot. *)
Lemma fold_handle_ok (vs : list (list B)) (completion : list nat) :
  (forall i, i ∈ completion -> exists v, vs !! i = Some v /\ run i = inr v) ->
  forall st, _failure st = None ->
    exists st', foldl (_handle_results run) (Some st) completion = Some st' /\
    _failure st' = None /\
    length (_value st') = length (_value st) /\
    forall j, _value st' !! j =
      if decide (j ∈ completion /\ (j < length (_value st))%nat)
      then Some (vs !! j) else _value st !! j.
Proof.
  induction completion as [|i completion IH]; intros Hok st Hst; cbn [foldl].
  - exists st. split_and!; [done..|]. intros j.
    rewrite decide_False; [done|]. intros [H%elem_of_nil _]. done.
  - destruct (Hok i) as (v & Hv & Hr); [by left|].
    set (st1 := {| _value := <[i := Some v]> (_value st); _failure := None;
                   _number_left := pred (_number_left st) |}).
    assert (E1 : _handle_results run (Some st) i = Some st1).
    { unfold _handle_results, _set. by rewrite Hr, Hst. }
    rewrite E1.
    destruct (IH (fun j Hj => Hok j (list_elem_of_further _ _ _ Hj)) st1)
      as (st' & Hf' & Hf & Hl & Hv'); [done|].
    assert (Hlen : length (_value st1) = length (_value st))
      by apply length_insert.
    exists st'. split_and!; [done|done|by rewrite Hl|].
    intros j. rewrite Hv', Hlen.
    destruct (decide (j ∈ completion /\ (j < length (_value st))%nat))
      as [[Hj Hlt]|Hn].
    + rewrite decide_True; [done|]. split; [by right|done].
    + unfold st1. simpl. destruct (decide (i = j)) as [->|Hij].
      * destruct (decide (j < length (_value st))%nat) as [Hlt|Hge].
        -- rewrite decide_True by (split; [by left|done]).
           rewrite list_lookup_insert_eq by done. by rewrite Hv.
        -- rewrite decide_False by tauto.
           rewrite list_insert_ge by lia. done.
      * rewrite list_lookup_insert_ne by done.
        rewrite decide_False; [done|].
        intros [[?|?]%elem_of_cons ?]; [congruence|tauto].
Qed.

End PoolTheory.

Section Strategies.
Context {A B : Type} (f : A -> result B).

(** When every chunk completes: the pool returns what the loop returns;
    where the loop raises what cannot be built again in the parent, the
    pool never comes back; where the loop raises something else, the pool
    never comes back or raises a [LogProcessingError]. *)
Lemma pool_map_seq (tasks : list A) (sizes completion : list nat) :
  Permutation completion (seq 0 (length (cut sizes tasks))) ->
  match map_seq f tasks with
  | inr ys => pool_map f tasks sizes completion = Ends (inr ys)
  | inl e =>
      match unpickle e with
      | None => pool_map f tasks sizes completion = Hangs
      | Some _ =>
          pool_map f tasks sizes completion = Hangs \/
          exists m,
            pool_map f tasks sizes completion =
              Ends (inl (LogProcessingError m))
      end
  end.
Proof.
  intros Hp. destruct tasks as [|t0 tasks0] eqn:Et; [done|]. rewrite <- Et in *.
  assert (E0 : pool_map f tasks sizes completion =
    let chunks := cut sizes tasks in
    let run i := map_seq f (default [] (chunks !! i)) in
    match foldl (_handle_results run)
            (Some {| _value := replicate (length chunks) None;
                     _failure := None;
                     _number_left := length chunks |})
            completion with
    | Some st =>
        match _number_left st with
        | O => Ends (_get st)
        | S _ => Hangs
        end
    | None => Hangs
    end) by (by rewrite Et).
  rewrite E0. clear E0 Et t0 tasks0. cbv zeta.
  set (chunks := cut sizes tasks) in *.
  set (run := fun i => map_seq f (default [] (chunks !! i))).
  set (st0 := {| _value := replicate (length chunks) None; _failure := None;
                 _number_left := length chunks |}).
  assert (Hin : forall i, In i completion <-> (i < length chunks)%nat).
  { intros i. rewrite <- list_elem_of_In, Hp, list_elem_of_In, in_seq. lia. }
  assert (Hleft : forall st',
            foldl (_handle_results run) (Some st0) completion = Some st' ->
            _number_left st' = 0%nat).
  { intros st' Hf. rewrite (fold_handle_left run completion st0 st' Hf).
    rewrite (Permutation_length Hp), length_seq. simpl. lia. }
  replace (map_seq f tasks) with (map_seq f (concat chunks))
    by (unfold chunks; by rewrite concat_cut).
  destruct (map_seq f (concat chunks)) as [e|ys] eqn:E.
  - apply map_seq_concat_fail in E as (j & ch & Hj & He).
    assert (Hjc : In j completion) by (apply Hin; by eapply lookup_lt_Some).
    assert (Hr : run j = inl e) by (unfold run; by rewrite Hj).
    destruct (unpickle e) as [e1|] eqn:Hu.
    + destruct (foldl (_handle_results run) (Some st0) completion)
        as [st'|] eqn:Hf; [right|by left].
      rewrite (Hleft st' eq_refl).
      destruct (fold_handle_fail run completion st0 st' j e Hjc Hr Hf)
        as [e0 He0].
      destruct (fold_handle_kept run completion st0 st' e0 eq_refl Hf He0)
        as [m ->].
      exists m. unfold _get. by rewrite He0.
    + by rewrite (fold_handle_unpickled run completion (Some st0) j e).
  - apply map_seq_concat_ok in E as (vs & Hvs & <-).
    destruct (fold_handle_ok run vs completion) with (st := st0)
      as (st' & Hf' & Hf & Hl & Hv); [|done|].
    { intros i Hi%list_elem_of_In%Hin.
      destruct (lookup_lt_is_Some_2 chunks i Hi) as [ch Hch].
      destruct (Forall2_lookup_l _ _ _ _ _ Hvs Hch) as (v & Hv & Hr).
      exists v. split; [done|]. unfold run. by rewrite Hch. }
    rewrite Hf', (Hleft st' Hf'). unfold _get. rewrite Hf. do 3 f_equal.
    assert (Hlen : length vs = length chunks)
      by (symmetry; by eapply Forall2_length).
    rewrite map_fmap. apply list_eq. intros j. rewrite list_lookup_fmap.
    rewrite Hv. simpl. rewrite length_replicate.
    destruct (decide (j < length chunks)%nat) as [Hlt|Hge].
    + rewrite decide_True by (split; [by apply list_elem_of_In, Hin|done]).
      simpl. destruct (vs !! j) eqn:Ej; [done|].
      apply lookup_ge_None in Ej. lia.
    + rewrite decide_False by tauto.
      rewrite (proj1 (lookup_replicate_None _ _ _)) by lia. simpl.
      symmetry. apply lookup_ge_None. lia.
Qed.

End Strategies.

(** ** Runs that read every source *)

Section SourcesRead.
Context {U : UnicodeData}.

Lemma map_seq_ok {A B} (f : A -> result B) (l : list A) ys :
  map_seq f l = inr ys <-> Forall2 (fun x y => f x = inr y) l ys.
Proof.
  revert ys. induction l as [|x l IH]; intros ys; simpl.
  - split; [intros [= <-]; constructor|]. by inversion 1.
  - destruct (f x) as [e|y] eqn:Ex.
    + split; [done|]. inversion 1; congruence.
    + destruct (map_seq f l) as [e|ys'] eqn:El.
      * split; [done|]. inversion 1 as [|? y' ? ys'' Hy Hl]; subst.
        apply IH in Hl. done.
      * split.
        -- intros [= <-]. constructor; [done|]. by apply IH.
        -- inversion 1 as [|? y' ? ys'' Hy Hl]; subst.
           apply IH in Hl. congruence.
Qed.

Lemma map_seq_fail {A B} (f : A -> result B) (l : list A) e :
  map_seq f l = inl e <->
  exists before x after, l = before ++ x :: after /\
    Forall (fun q => exists y, f q = inr y) before /\ f x = inl e.
Proof.
  induction l as [|x l IH]; simpl.
  - split; [done|]. intros (before & ? & ? & E & _). by destruct before.
  - destruct (f x) as [e'|y] eqn:Ex.
    + split.
      * intros [= <-]. exists [], x, l. split_and!; [done|constructor|done].
      * intros (before & x' & after & E & Hb & Hx). destruct before as [|b bs].
        -- simpl in E. injection E as <- _. congruence.
        -- simpl in E. injection E as <- _. inversion Hb as [|? ? [y Hy] _].
           congruence.
    + destruct (map_seq f l) as [e'|ys] eqn:El.
      * split.
        -- intros [= <-]. destruct (proj1 IH eq_refl)
             as (before & x' & after & -> & Hb & Hx).
           exists (x :: before), x', after. split_and!; [done| |done].
           constructor; [eauto|done].
        -- intros (before & x' & after & E & Hb & Hx).
           destruct before as [|b bs].
           ++ simpl in E. injection E as <- _. congruence.
           ++ simpl in E. injection E as <- ->.
              apply IH. exists bs, x', after. split_and!; [done| |done].
              by inversion Hb.
      * split; [done|]. intros (before & x' & after & E & Hb & Hx).
        destruct before as [|b bs].
        -- simpl in E. injection E as <- _. congruence.
        -- simpl in E. injection E as <- ->.
           assert (inr ys = inl e) as Habs; [|done].
           apply IH. exists bs, x', after. split_and!; [done| |done].
           by inversion Hb.
Qed.

Lemma process_single_ok (fs : file_system) (p : str) (t : table) :
  _process_single_file fs p = inr t <->
  exists lines, fs p = inr lines /\ t = process_lines lines.
Proof.
  unfold _process_single_file, _read_logs.
  destruct (fs p) as [[m|m]|lines]; split; try done.
  - by intros (? & ? & _).
  - by intros (? & ? & _).
  - intros [= <-]. eauto.
  - by intros (? & [= <-] & ->).
Qed.

Lemma tables_of_sources (fs : file_system) (paths : list str)
    (tables : list table) :
  Forall2 (fun p t => _process_single_file fs p = inr t) paths tables <->
  exists sources,
    Forall2 (fun p lines => fs p = inr lines) paths sources /\
    tables = map process_lines sources.
Proof.
  split.
  - induction 1 as [|p t ps ts Hp _ (sources & Hs & ->)].
    + exists []. by split; [constructor|].
    + apply process_single_ok in Hp as (lines & Hl & ->).
      exists (lines :: sources). by split; [constructor|].
  - intros (sources & Hs & ->). induction Hs as [|p lines ps ls Hp _ IH];
      simpl; constructor; [|done]. apply process_single_ok. eauto.
Qed.

(** The run without the pool always comes back. *)
Lemma sequential_ends (fs : file_system) (file_paths : list str) :
  process_files Sequential fs file_paths <> Hangs.
Proof.
  unfold process_files.
  by destruct (map_seq (_process_single_file fs) file_paths) as [[]|].
Qed.

Lemma seq_success_iff (fs : file_system) (file_paths : list str)
    (rows : list DjangoReportData) :
  process_files Sequential fs file_paths = Ends (inr rows) <->
  exists sources,
    Forall2 (fun p lines => fs p = inr lines) file_paths sources /\
    rows = _merge_results (map process_lines sources).
Proof.
  unfold process_files.
  destruct (map_seq (_process_single_file fs) file_paths) as [e|tables] eqn:E.
  - split; [by destruct e|]. intros (sources & Hs & _). exfalso.
    assert (map_seq (_process_single_file fs) file_paths =
            inr (map process_lines sources)) as E'; [|congruence].
    apply map_seq_ok, tables_of_sources. eauto.
  - split.
    + intros [= <-]. apply map_seq_ok, tables_of_sources in E
        as (sources & Hs & ->). eauto.
    + intros (sources & Hs & ->).
      assert (map_seq (_process_single_file fs) file_paths =
              inr (map process_lines sources)) as E'.
      { apply map_seq_ok, tables_of_sources. eauto. }
      congruence.
Qed.

End SourcesRead.

Section PoolRuns.
Context {U : UnicodeData}.

(** [process_files] on the pool against [process_files] without it. *)
Lemma process_files_pool (fs : file_system) (file_paths : list str)
    (sizes completion : list nat) :
  Permutation completion (seq 0 (length (cut sizes file_paths))) ->
  match process_files Sequential fs file_paths with
  | Ends (inr rows) =>
      process_files (Pool sizes completion) fs file_paths = Ends (inr rows)
  | Ends (inl (LogFileError _ _)) =>
      process_files (Pool sizes completion) fs file_paths = Hangs
  | Ends (inl _) =>
      process_files (Pool sizes completion) fs file_paths = Hangs \/
      exists m,
        process_files (Pool sizes completion) fs file_paths =
          Ends (inl (LogProcessingError m))
  | Hangs => False
  end.
Proof.
  intros Hp. unfold process_files.
  pose proof (pool_map_seq (_process_single_file fs) file_paths sizes
                completion Hp) as H.
  destruct (map_seq (_process_single_file fs) file_paths) as [e|tables].
  - destruct e as [m|p m|l]; simpl in H.
    + destruct H as [->|[m' ->]]; [by left|right]. eauto.
    + by rewrite H.
    + rewrite H. by left.
  - by rewrite H.
Qed.

(** On the pool with every chunk completing, [process_files] returns rows
    exactly when it returns them without the pool. *)
Lemma pool_success_iff (fs : file_system) (file_paths : list str)
    (sizes completion : list nat) (rows : list DjangoReportData) :
  Permutation completion (seq 0 (length (cut sizes file_paths))) ->
  process_files (Pool sizes completion) fs file_paths = Ends (inr rows) <->
  process_files Sequential fs file_paths = Ends (inr rows).
Proof.
  intros Hp.
  pose proof (process_files_pool fs file_paths sizes completion Hp) as H.
  destruct (process_files Sequential fs file_paths) as [[e|rows']|];
    [|by rewrite H|done].
  split; [|done]. intros E. exfalso.
  destruct e as [m|q m|l].
  - destruct H as [H|[m' H]]; congruence.
  - congruence.
  - destruct H as [H|[m' H]]; congruence.
Qed.


End PoolRuns.


(** ** Examples *)

Example parse_request_line :
  @parse_log_line ascii_db request_line =
  Some {| timestamp := cp "2024-03-28 10:15:30,123"; level := cp "INFO";
          component := cp "django.request";
          message := cp "GET /api/users/ 200";
          handler := Some (cp "/api/users/") |}.
Proof. reflexivity. Qed.

Example parse_line_with_line_feed :
  @parse_log_line ascii_db (request_line ++ [chr "010"]) =
  @parse_log_line ascii_db request_line.
Proof. reflexivity. Qed.

Example parse_invalid_lines :
  map (@parse_log_line ascii_db)
    [cp "Not a log line at all"; cp "2024-03-28 Invalid format"; [];
     cp "2024-03-28 10:15:30,123 INVALID django.request: GET /api/users/";
     cp "2024-03-28 10:15:30,123 info django.request: GET /api/users/";
     cp " 2024-03-28 10:15:30,123 INFO django.request: GET /api/users/";
     cp "2024-03-28 10:15:30,123 INFO django.request GET /api/users/"]
  = [None; None; None; None; None; None; None].
Proof. reflexivity. Qed.

Example scenario_two_lines :
  @process_files ascii_db Sequential two_files [cp "a.log"; cp "b.log"] =
  Ends (inr [one_row]).
Proof. vm_compute. reflexivity. Qed.

Lemma merge_results_assoc_comm_witness :
  Permutation [table_a; table_b; table_c] [table_c; table_a; table_b] /\
  concat [[table_c; table_a]; [table_b]] = [table_c; table_a; table_b] /\
  _merge_results [table_c; table_a; table_b] =
    _merge_results [table_a; table_b; table_c] /\
  _merge_results (map merged_data [[table_c; table_a]; [table_b]]) =
    _merge_results [table_a; table_b; table_c] /\
  (forall first rest, first ++ rest = [table_c; table_a; table_b] ->
     _merge_results (merged_data first :: rest) =
     _merge_results [table_a; table_b; table_c]) /\
  (forall row, In row (_merge_results [table_a; table_b; table_c]) ->
     counters_are_totals [table_a; table_b; table_c] row) /\
  _merge_results [] = [].
Proof.
  assert (Hp : Permutation [table_a; table_b; table_c]
                 [table_c; table_a; table_b]).
  { apply Permutation_sym, (Permutation_cons_app [table_a; table_b] []).
    simpl. apply Permutation_refl. }
  split; [exact Hp|]. split; [reflexivity|].
  exact (merge_results_assoc_comm [table_a; table_b; table_c]
           [table_c; table_a; table_b] [[table_c; table_a]; [table_b]]
           Hp eq_refl).
Defined.



Example pool_two_files :
  @process_files ascii_db (Pool [1%nat] [1%nat; 0%nat]) two_files
    [cp "a.log"; cp "b.log"] = Ends (inr [one_row]).
Proof. vm_compute. reflexivity. Qed.

Example report_two_rows :
  HandlersReport.generate [one_row; other_row] =
  concat
    [cp "Total requests: 5"; [chr "010"; chr "010"];
     cp "HANDLER             "; [chr "009"]; cp "DEBUG  "; [chr "009"];
     cp "INFO   "; [chr "009"]; cp "WARNING"; [chr "009"]; cp "ERROR  ";
     [chr "009"]; cp "CRITICAL";
     [chr "010"];
     cp "/api/orders/        "; [chr "009"]; cp "2      "; [chr "009"];
     cp "0      "; [chr "009"]; cp "1      "; [chr "009"]; cp "0      ";
     [chr "009"]; cp "0      ";
     [chr "010"];
     cp "/api/users/         "; [chr "009"]; cp "0      "; [chr "009"];
     cp "1      "; [chr "009"]; cp "0      "; [chr "009"]; cp "1      ";
     [chr "009"]; cp "0      ";
     [chr "010"];
     cp "                    "; [chr "009"]; cp "2      "; [chr "009"];
     cp "1      "; [chr "009"]; cp "1      "; [chr "009"]; cp "1      ";
     [chr "009"]; cp "0      "].
Proof. vm_compute. reflexivity. Qed.

Lemma report_layout_witness :
  [one_row; other_row] <> [] /\
  exists (rows : list DjangoReportData) (totals : DjangoReportData) (N : Z),
    HandlersReport.generate [one_row; other_row] =
      cp "Total requests: " ++ HandlersReport.str_of_int N ++
      [chr "010"; chr "010"] ++
      line_text (cp "HANDLER")
        [cp "DEBUG"; cp "INFO"; cp "WARNING"; cp "ERROR"; cp "CRITICAL"] ++
      concat
        (map (fun r =>
                chr "010" ::
                line_text (handler_name r)
                  (counter_texts HandlersReport.str_of_int r)) rows) ++
      chr "010" ::
      line_text [] (counter_texts HandlersReport.str_of_int totals) /\
    (forall n, decimal_value (HandlersReport.str_of_int n) = Some n) /\
    Permutation rows [one_row; other_row] /\
    StronglySorted
      (fun a b => str_le (handler_name a) (handler_name b) = true) rows /\
    handler_name totals = [] /\
    debug_count totals = column_sum debug_count rows /\
    info_count totals = column_sum info_count rows /\
    warning_count totals = column_sum warning_count rows /\
    error_count totals = column_sum error_count rows /\
    critical_count totals = column_sum critical_count rows /\
    N = column_sum row_total rows /\
    N = row_total totals.
Proof.
  assert (Hne : [one_row; other_row] <> []) by discriminate.
  split; [exact Hne|]. exact (report_layout [one_row; other_row] Hne).
Defined.

Lemma other_components_count_nothing_witness :
  @parse_log_line ascii_db db_line = Some db_record /\
  component db_record <> DjangoLogComponent.REQUEST /\
  handler db_record = None /\
  (forall tbl : table, @process_line ascii_db tbl db_line = tbl) /\
  (forall before after : list str,
     @process_lines ascii_db (before ++ db_line :: after) =
     @process_lines ascii_db (before ++ after)).
Proof.
  assert (Hp : @parse_log_line ascii_db db_line = Some db_record)
    by reflexivity.
  assert (Hc : component db_record <> DjangoLogComponent.REQUEST)
    by discriminate.
  split; [exact Hp|]. split; [exact Hc|].
  exact (@other_components_count_nothing ascii_db db_line db_record Hp Hc).
Defined.

Lemma handler_keys_are_paths_witness :
  ((exists line d, In line [request_line] /\
      @parse_log_line ascii_db line = Some d /\
      handler d = Some (cp "/api/users/")) \/
   is_Some (@process_lines ascii_db [request_line] !! cp "/api/users/") \/
   In (cp "/api/users/")
     (map handler_name
        (_merge_results (map (@process_lines ascii_db) [[request_line]])))) /\
  (exists t, cp "/api/users/" = chr "/" :: t) /\
  Forall (fun c => @is_space ascii_db c = false) (cp "/api/users/").
Proof.
  assert (H : (exists line d, In line [request_line] /\
      @parse_log_line ascii_db line = Some d /\
      handler d = Some (cp "/api/users/")) \/
   is_Some (@process_lines ascii_db [request_line] !! cp "/api/users/") \/
   In (cp "/api/users/")
     (map handler_name
        (_merge_results (map (@process_lines ascii_db) [[request_line]])))).
  { left. eexists request_line, _. split; [by left|]. split; reflexivity. }
  split; [exact H|].
  exact (@handler_keys_are_paths ascii_db [request_line] [[request_line]]
           (cp "/api/users/") H).
Defined.

(** * Further properties *)

(** ** The handler extractor *)

Section HandlerExtractor.
Context {U : UnicodeData}.

Lemma re_match_none r s : re_match r s = None <-> exec r ([], s) = [].
Proof.
  unfold re_match. destruct (exec r ([], s)); simpl; split; done.
Qed.

(** [search] reports the match at the first position that has one. *)
Lemma re_search_first r msg caps :
  re_search r msg = Some caps ->
  exists pre s rest,
    msg = pre ++ s /\ head (exec r ([], s)) = Some (caps, rest) /\
    forall pre' s', msg = pre' ++ s' -> (length pre' < length pre)%nat ->
      exec r ([], s') = [].
Proof.
  induction msg as [|x msg IH]; simpl.
  - destruct (re_match r []) as [c0|] eqn:E; [|done]. intros [= <-].
    unfold re_match in E. destruct (exec r ([], [])) as [|[c rest] l] eqn:Ee;
      [done|]. injection E as <-.
    exists [], [], rest. split_and!; [done|by rewrite Ee|].
    intros pre' s' _ Hl. simpl in Hl. lia.
  - destruct (re_match r (x :: msg)) as [c0|] eqn:E.
    + intros [= <-]. unfold re_match in E.
      destruct (exec r ([], x :: msg)) as [|[c rest] l] eqn:Ee; [done|].
      injection E as <-. exists [], (x :: msg), rest.
      split_and!; [done|by rewrite Ee|]. intros pre' s' _ Hl. simpl in Hl. lia.
    + intros (pre & s & rest & -> & Hh & Hfirst)%IH.
      exists (x :: pre), s, rest. split_and!; [done..|].
      intros pre' s' E' Hl. destruct pre' as [|y pre'].
      * simpl in E'. subst s'. by apply re_match_none.
      * simpl in E'. injection E' as -> E'. apply (Hfirst pre' s' E').
        simpl in Hl. lia.
Qed.

Lemma re_search_none r msg :
  re_search r msg = None ->
  forall pre s, msg = pre ++ s -> exec r ([], s) = [].
Proof.
  induction msg as [|x msg IH]; simpl.
  - destruct (re_match r []) eqn:E; [done|]. intros _ pre s Es.
    symmetry in Es. apply app_eq_nil in Es as [_ ->]. by apply re_match_none.
  - destruct (re_match r (x :: msg)) eqn:E; [done|]. intros Hn pre s Es.
    destruct pre as [|y pre].
    + simpl in Es. subst s. by apply re_match_none.
    + simpl in Es. injection Es as _ Es. by apply (IH Hn pre).
Qed.

(** The path group: the first attempt reads the whole word. *)
Lemma path_head n c s c' rest :
  head (exec (Grp n path_re) (c, s)) = Some (c', rest) ->
  exists h, s = h ++ rest /\ path_shape h /\ c' = (n, h) :: c /\ ends_word rest.
Proof.
  intros Hx.
  assert (Hin : In (c', rest) (exec (Grp n path_re) (c, s))).
  { destruct (exec (Grp n path_re) (c, s)); [done|]. injection Hx as ->.
    by left. }
  apply exec_group in Hin as (h & -> & Hh%lang_path & ->); [|done].
  exists h. split_and!; [done..|].
  change (exec (Grp n path_re) (c, h ++ rest))
    with (map (fun st' : mstate =>
             ((n, firstn (length (h ++ rest) - length (snd st')) (h ++ rest))
                :: fst st', snd st'))
            (exec path_re (c, h ++ rest))) in Hx.
  destruct Hh as [(t & -> & Hne) _]. unfold path_re in Hx.
  change (exec (Cat ?a ?b) ?st) with (flat_map (exec b) (exec a st)) in Hx.
  cbn [exec snd fst app] in Hx. rewrite N.eqb_refl in Hx.
  cbn [flat_map] in Hx. rewrite app_nil_r in Hx.
  change (flat_map (exec (Star (Cls not_space))) (exec (Cls not_space) ?st))
    with (exec (Plus (Cls not_space)) st) in Hx.
  rewrite exec_plus_cls in Hx.
  destruct (t ++ rest) as [|a u] eqn:Eu; [done|].
  destruct (not_space a); [|done].
  destruct (star_cls not_space c u) as [|[c0 s0] l] eqn:Es; [done|].
  assert (s0 = rest) as -> by (simpl in Hx; congruence).
  assert (Hh : head (star_cls not_space c u) = Some (c0, rest))
    by by rewrite Es.
  apply star_cls_head in Hh as (_ & _ & _ & _ & Hr). simpl in Hr.
  destruct rest as [|b r]; [done|]. simpl.
  unfold not_space in Hr. by apply negb_false_iff in Hr.
Qed.

Lemma head_app_some {A} (l1 l2 : list A) y :
  head (l1 ++ l2) = Some y -> head l1 = Some y \/ head l2 = Some y.
Proof. destruct l1; simpl; auto. Qed.

(** The first attempt of the request pattern. *)
Lemma request_head s caps rest :
  head (exec REQUEST_PATTERN ([], s)) = Some (caps, rest) ->
  exists kw ws h,
    s = kw ++ ws ++ h ++ rest /\ request_keyword kw /\ space_run ws /\
    path_shape h /\ ends_word rest /\
    (caps = [("handler"%string, h)] \/ caps = [("error_handler"%string, h)]).
Proof.
  unfold REQUEST_PATTERN. intros H.
  change (exec (Alt ?a ?b) ?st) with (exec a st ++ exec b st) in H.
  apply head_app_some in H as [H|H].
  - apply head_exec_cat in H as ([c1 s1] & H1 & H).
    apply head_exec_cat in H as ([c2 s2] & H2 & H).
    apply exec_plain in H1 as (-> & kw & -> & Hkw); [|done].
    apply exec_plain in H2 as (-> & ws & -> & Hws%lang_spaces); [|done].
    apply path_head in H as (h & -> & Hh & -> & Hr).
    exists kw, ws, h. split_and!; [done| |done..|by left].
    unfold method_re in Hkw. cbn [lang] in Hkw. rewrite !lang_str in Hkw.
    unfold request_keyword. cbn [In].
    destruct Hkw as [->|[->|[->|[->| ->]]]]; auto 10.
  - apply head_exec_cat in H as ([c1 s1] & H1 & H).
    apply head_exec_cat in H as ([c2 s2] & H2 & H).
    apply exec_plain in H1 as (-> & kw & -> & ->%lang_str); [|done].
    apply exec_plain in H2 as (-> & ws & -> & Hws%lang_spaces); [|done].
    apply path_head in H as (h & -> & Hh & -> & Hr).
    exists (cp "Error:"), ws, h. split_and!; [done| |done..|by right].
    unfold request_keyword. cbn [In]. auto 10.
Qed.

Lemma request_complete kw ws h post :
  request_keyword kw -> space_run ws -> path_shape h ->
  exec REQUEST_PATTERN ([], kw ++ ws ++ h ++ post) <> [].
Proof.
  intros Hkw Hws Hh.
  assert (Hmethod : lang method_re kw \/ kw = cp "Error:").
  { unfold method_re. cbn [lang]. rewrite !lang_str.
    unfold request_keyword in Hkw. cbn [In] in Hkw.
    destruct Hkw as [<-|[<-|[<-|[<-|[<-|[<-|[]]]]]]]; auto 10. }
  assert (Htail : forall n c,
    exists st, In st (exec (Cat spaces (Grp n path_re)) (c, ws ++ h ++ post))).
  { intros n c. eexists. apply exec_cat. exists (c, h ++ post). split.
    - apply exec_plain; [done|]. split; [done|]. exists ws. split; [done|].
      by apply lang_spaces.
    - apply exec_group; [done|]. exists h. split_and!; [done| |done].
      by apply lang_path. }
  unfold REQUEST_PATTERN.
  change (exec (Alt ?a ?b) ?st) with (exec a st ++ exec b st).
  destruct Hmethod as [Hm| ->].
  - destruct (Htail "handler"%string []) as [st Hst]. intros Hno.
    assert (In st (exec (Cat method_re (Cat spaces (Grp "handler" path_re)))
                     ([], kw ++ ws ++ h ++ post))) as Hi.
    { apply exec_cat. exists ([], ws ++ h ++ post). split; [|done].
      apply exec_plain; [done|]. split; [done|]. by exists kw. }
    apply app_eq_nil in Hno as [Hno _]. by rewrite Hno in Hi.
  - destruct (Htail "error_handler"%string []) as [st Hst]. intros Hno.
    assert (In st (exec (Cat (Str "Error:")
                           (Cat spaces (Grp "error_handler" path_re)))
                     ([], cp "Error:" ++ ws ++ h ++ post))) as Hi.
    { apply exec_cat. exists ([], ws ++ h ++ post). split; [|done].
      apply exec_plain; [done|]. split; [done|]. exists (cp "Error:").
      split; [done|]. by apply lang_str. }
    apply app_eq_nil in Hno as [_ Hno]. by rewrite Hno in Hi.
Qed.

(** X1: the extractor finds a handler exactly in the messages that have,
    somewhere, one of GET, POST, PUT, DELETE, PATCH or [Error:], white
    space and a path.  The handler it returns is the path at the first such
    place, taken up to the next white space or the end of the message. *)
Theorem extract_handler_first_path (msg : str) :
  match extract_handler msg with
  | Some h =>
      exists pre post,
        handler_at msg pre h post /\ ends_word post /\
        forall pre' h' post', handler_at msg pre' h' post' ->
          (length pre <= length pre')%nat
  | None => forall pre h post, ~ handler_at msg pre h post
  end.
Proof.
  unfold extract_handler.
  destruct (re_search REQUEST_PATTERN msg) as [caps|] eqn:E.
  - apply re_search_first in E as (pre & s & rest & -> & Hh & Hfirst).
    apply request_head in Hh as (kw & ws & h & -> & Hkw & Hws & Hp & Hr & Hc).
    assert (Hg : py_or (group "handler" caps) (group "error_handler" caps) =
                 Some h /\ truthy (Some h) = true).
    { pose proof Hp as [(t & Et & _) _]. subst h.
      by destruct Hc as [-> | ->]. }
    destruct Hg as [-> ->]. exists pre, rest. split_and!; [|done|].
    + by exists kw, ws.
    + intros pre' h' post' (kw' & ws' & E' & Hkw' & Hws' & Hp').
      destruct (Nat.le_gt_cases (length pre) (length pre')) as [|Hlt]; [done|].
      specialize (Hfirst pre' _ E' Hlt). by apply request_complete in Hfirst.
  - intros pre h post (kw & ws & E' & Hkw & Hws & Hp).
    pose proof (re_search_none _ _ E pre _ E') as Hno.
    by apply request_complete in Hno.
Qed.

End HandlerExtractor.

(** ** What the counters count *)

Section Counters.
Context {U : UnicodeData}.

Lemma parse_level_token line d :
  parse_log_line line = Some d -> severity_token (level d).
Proof.
  intros Hp. unfold parse_log_line, re_match in Hp.
  destruct (exec BASE_PATTERN ([], line)) as [|[caps rest] l] eqn:E; [done|].
  destruct (parse_log_line_some _ _ _ _ E) as (ts & lvl & comp & msg & -> & Hp').
  assert (H : head (exec BASE_PATTERN ([], line)) =
              Some (base_groups ts lvl comp msg, rest)) by by rewrite E.
  apply base_head in H as (ts' & lvl' & comp' & ws & msg' & Hc & Hparts & _).
  injection Hc as <- <- <- <-. simpl in Hp. injection Hp as <-. simpl.
  by destruct Hparts as (? & ? & _ & _ & _ & Hl & _).
Qed.

Lemma parse_handler_request line d h :
  parse_log_line line = Some d -> handler d = Some h ->
  component d = DjangoLogComponent.REQUEST.
Proof.
  unfold parse_log_line.
  destruct (re_match BASE_PATTERN line) as [m|]; [|done].
  destruct (group "timestamp" m), (group "level" m),
    (group "component" m) as [c|], (group "message" m) as [msg|]; try done.
  intros [= <-]. simpl. by case_decide.
Qed.

Lemma level_key_inj l l' :
  severity_token l -> severity_token l' -> level_key l = level_key l' -> l = l'.
Proof.
  unfold severity_token. cbn [In].
  intros [<-|[<-|[<-|[<-|[<-|[]]]]]] [<-|[<-|[<-|[<-|[<-|[]]]]]] E;
    try reflexivity; vm_compute in E; discriminate E.
Qed.

Lemma level_key_stat l : severity_token l -> In (level_key l) STAT_KEYS.
Proof.
  unfold severity_token, STAT_KEYS. cbn [In].
  intros [<-|[<-|[<-|[<-|[<-|[]]]]]]; vm_compute; auto 10.
Qed.

Lemma line_cell_some line h k :
  line_cell line = Some (h, k) <->
  exists d, parse_log_line line = Some d /\ handler d = Some h /\
            level_key (level d) = k.
Proof.
  unfold line_cell. split.
  - destruct (parse_log_line line) as [d|]; [|done]. case_decide; [|done].
    destruct (handler d) as [h'|] eqn:Eh; [|done]. intros [= <- <-]. eauto.
  - intros (d & Hp & Hh & <-). rewrite Hp.
    rewrite decide_True by by eapply parse_handler_request.
    by rewrite Hh.
Qed.

Lemma line_cell_attributed_to line h lvl :
  severity_token lvl ->
  line_cell line = Some (h, level_key lvl) <-> attributed_to h lvl line = true.
Proof.
  intros Hl. rewrite line_cell_some. unfold attributed_to. split.
  - intros (d & Hp & Hh & Hk). rewrite Hp. apply bool_decide_eq_true.
    split; [done|]. apply level_key_inj; [|done..].
    by eapply parse_level_token.
  - destruct (parse_log_line line) as [d|]; [|done].
    intros [Hh <-]%bool_decide_eq_true. eauto.
Qed.

Lemma line_cell_attributed line :
  is_Some (line_cell line) <-> attributed line = true.
Proof.
  unfold attributed. split.
  - intros [[h k] (d & Hp & Hh & _)%line_cell_some]. rewrite Hp.
    apply bool_decide_eq_true. by rewrite Hh.
  - destruct (parse_log_line line) as [d|] eqn:Hp; [|done].
    intros [h Hh]%bool_decide_eq_true. exists (h, level_key (level d)).
    apply line_cell_some. eauto.
Qed.

Lemma count_of_cons h lvl line lines :
  count_of h lvl (line :: lines) =
  (if attributed_to h lvl line then 1 else 0) + count_of h lvl lines.
Proof.
  unfold count_of. cbn [List.filter]. destruct (attributed_to h lvl line).
  - cbn [length]. lia.
  - lia.
Qed.

Lemma count_of_nonneg h lvl lines : 0 <= count_of h lvl lines.
Proof. unfold count_of. lia. Qed.

(** A cell of the table of some lines holds the number of the lines of its
    handler and level, and is missing when there is none. *)
Lemma tally_count lines h lvl :
  severity_token lvl ->
  tally lines h (level_key lvl) =
  if count_of h lvl lines =? 0 then None else Some (count_of h lvl lines).
Proof.
  intros Hl. induction lines as [|line lines IH]; [done|].
  cbn [tally foldr]. fold (tally lines h (level_key lvl)).
  rewrite IH, count_of_cons. pose proof (count_of_nonneg h lvl lines) as Hn.
  destruct (attributed_to h lvl line) eqn:Ha.
  - rewrite decide_True by by apply line_cell_attributed_to.
    destruct (Z.eqb_spec (count_of h lvl lines) 0) as [->|Hne]; simpl.
    + done.
    + destruct (Z.eqb_spec (1 + count_of h lvl lines) 0); [lia|]. done.
  - rewrite decide_False.
    2:{ intros Hc%line_cell_attributed_to; [|done]. congruence. }
    by rewrite Z.add_0_l.
Qed.

Lemma cells_sum_process_lines (sources : list (list str)) h k :
  cells_sum (map process_lines sources) h k = tally (concat sources) h k.
Proof.
  induction sources as [|lines sources IH]; [done|].
  cbn [map concat cells_sum foldr]. fold (cells_sum (map process_lines sources) h k).
  by rewrite IH, tally_app, cell_process_lines.
Qed.

(** X2: merging the tables of any number of sources gives the table of
    all their lines taken as one source, and the same rows. *)
Theorem merge_of_sources (sources : list (list str)) :
  merged_data (map process_lines sources) = process_lines (concat sources) /\
  _merge_results (map process_lines sources) =
    _merge_results [process_lines (concat sources)].
Proof.
  assert (E : merged_data (map process_lines sources) =
              process_lines (concat sources)).
  { apply table_ext; [apply no_empty_merged_data|apply no_empty_process_lines|].
    intros h k. by rewrite cell_merged_data, cells_sum_process_lines,
      cell_process_lines. }
  split; [done|]. unfold _merge_results.
  by rewrite E, merged_data_single by apply no_empty_process_lines.
Qed.

Lemma get0_merged (sources : list (list str)) h lv lvl name :
  severity_token lvl -> cp name = level_key lvl ->
  merged_data (map process_lines sources) !! h = Some lv ->
  get0 lv name = count_of h lvl (concat sources).
Proof.
  intros Hl Hk Hlv. unfold get0. rewrite Hk.
  assert (Hc : cell (merged_data (map process_lines sources)) h (level_key lvl)
               = lv !! level_key lvl).
  { unfold cell. by rewrite Hlv. }
  rewrite <- Hc, cell_merged_data, cells_sum_process_lines, tally_count by done.
  destruct (Z.eqb_spec (count_of h lvl (concat sources)) 0) as [->|]; done.
Qed.

Lemma report_row_counted (sources : list (list str)) h lv :
  merged_data (map process_lines sources) !! h = Some lv ->
  report_row (h, lv) = counted_row h (concat sources).
Proof.
  intros Hlv. unfold report_row, counted_row. cbn [fst snd].
  f_equal; (eapply get0_merged; [|reflexivity|exact Hlv]);
    unfold severity_token; cbn [In]; auto 10.
Qed.

Lemma row_total_counted h lines :
  1 <= row_total (counted_row h lines) <->
  exists line, In line lines /\ exists d,
    parse_log_line line = Some d /\ handler d = Some h.
Proof.
  unfold row_total, counted_row. cbn [debug_count info_count warning_count
    error_count critical_count].
  pose proof (count_of_nonneg h (cp "DEBUG") lines).
  pose proof (count_of_nonneg h (cp "INFO") lines).
  pose proof (count_of_nonneg h (cp "WARNING") lines).
  pose proof (count_of_nonneg h (cp "ERROR") lines).
  pose proof (count_of_nonneg h (cp "CRITICAL") lines).
  split.
  - intros Hge.
    assert (exists lvl, severity_token lvl /\ count_of h lvl lines <> 0)
      as (lvl & Hl & Hc).
    { unfold severity_token. cbn [In].
      destruct (Z.eq_dec (count_of h (cp "DEBUG") lines) 0); [|eauto 10].
      destruct (Z.eq_dec (count_of h (cp "INFO") lines) 0); [|eauto 10].
      destruct (Z.eq_dec (count_of h (cp "WARNING") lines) 0); [|eauto 10].
      destruct (Z.eq_dec (count_of h (cp "ERROR") lines) 0); [|eauto 10].
      destruct (Z.eq_dec (count_of h (cp "CRITICAL") lines) 0); [|eauto 10].
      lia. }
    destruct (tally_some lines h (level_key lvl)) as (line & Hin & Hc').
    { rewrite tally_count by done.
      by destruct (Z.eqb_spec (count_of h lvl lines) 0). }
    apply line_cell_some in Hc' as (d & Hp & Hh & _). eauto.
  - intros (line & Hin & d & Hp & Hh).
    pose proof (parse_level_token _ _ Hp) as Hl.
    assert (Ha : attributed_to h (level d) line = true).
    { unfold attributed_to. rewrite Hp. by apply bool_decide_eq_true. }
    assert (Hc : 1 <= count_of h (level d) lines).
    { clear -Hin Ha. induction lines as [|x lines IH]; [done|].
      rewrite count_of_cons. pose proof (count_of_nonneg h (level d) lines).
      destruct Hin as [->|Hin].
      - rewrite Ha. lia.
      - specialize (IH Hin). destruct (attributed_to h (level d) x); lia. }
    unfold severity_token in Hl. cbn [In] in Hl.
    destruct Hl as [E|[E|[E|[E|[E|[]]]]]]; rewrite <- E in Hc; lia.
Qed.

Lemma rows_counted (sources : list (list str)) (row : DjangoReportData) :
  In row (_merge_results (map process_lines sources)) <->
  row = counted_row (handler_name row) (concat sources) /\
  exists line d, In line (concat sources) /\ parse_log_line line = Some d /\
    handler d = Some (handler_name row).
Proof.
  rewrite merge_results_rows. split.
  - intros (h & lv & Hlv & ->). cbn [report_row handler_name fst].
    split; [by apply report_row_counted|].
    destruct (map_choose lv (no_empty_merged_data _ h lv Hlv)) as (k & x & Hk).
    assert (Hc : cell (merged_data (map process_lines sources)) h k = Some x).
    { unfold cell. by rewrite Hlv. }
    rewrite cell_merged_data, cells_sum_process_lines in Hc.
    destruct (tally_some (concat sources) h k) as (line & Hin & Hl);
      [by rewrite Hc|].
    apply line_cell_some in Hl as (d & Hp & Hh & _). eauto.
  - intros [Hrow (line & d & Hin & Hp & Hh)]. set (h := handler_name row) in *.
    pose proof (parse_level_token _ _ Hp) as Hl.
    assert (Hcell : is_Some (cell (merged_data (map process_lines sources)) h
                               (level_key (level d)))).
    { rewrite cell_merged_data, cells_sum_process_lines.
      clear -Hin Hp Hh. induction (concat sources) as [|x lines IH]; [done|].
      cbn [tally foldr]. fold (tally lines h (level_key (level d))).
      destruct Hin as [->|Hin].
      - rewrite decide_True by (apply line_cell_some; eauto).
        by destruct (tally lines h (level_key (level d))).
      - destruct (IH Hin) as [y ->]. by case_decide. }
    destruct Hcell as [x Hx]. unfold cell in Hx.
    destruct (merged_data (map process_lines sources) !! h) as [lv|] eqn:Hlv;
      [|done].
    exists h, lv. split; [done|]. rewrite Hrow. symmetry.
    by apply report_row_counted.
Qed.


(** X3: the rows of the tables of the sources are the counts of their
    lines.  There is a row for a handler exactly when some line of some
    source is a record with that handler, and each of its counters is the
    number of lines, over all sources, that are records of that handler and
    that level. *)
Theorem rows_are_counts (sources : list (list str)) (row : DjangoReportData) :
  In row (_merge_results (map process_lines sources)) <->
  row = counted_row (handler_name row) (concat sources) /\
  exists line d, In line (concat sources) /\ parse_log_line line = Some d /\
    handler d = Some (handler_name row).
Proof. apply rows_counted. Qed.

End Counters.

(** ** Totals of the counted rows *)

Section CountedTotals.
Context {U : UnicodeData}.

Lemma row_total_cons h line lines :
  row_total (counted_row h (line :: lines)) =
  line_weight h line + row_total (counted_row h lines).
Proof.
  unfold row_total, counted_row, line_weight.
  cbn [debug_count info_count warning_count error_count critical_count].
  rewrite !count_of_cons. lia.
Qed.

Lemma line_weight_handler h line :
  line_weight h line =
  match parse_log_line line with
  | Some d => if decide (handler d = Some h) then 1 else 0
  | None => 0
  end.
Proof.
  unfold line_weight, attributed_to.
  destruct (parse_log_line line) as [d|] eqn:Hp; [|done].
  pose proof (parse_level_token _ _ Hp) as Hl.
  destruct (decide (handler d = Some h)) as [Hh|Hh].
  - unfold severity_token in Hl. cbn [In] in Hl.
    destruct Hl as [E|[E|[E|[E|[E|[]]]]]]; rewrite <- E;
      repeat match goal with
      | |- context [bool_decide ?P] =>
          first [rewrite (bool_decide_eq_true_2 P) by (split; [done|reflexivity])
                |rewrite (bool_decide_eq_false_2 P)
                   by (intros [_ Hne]; vm_compute in Hne; discriminate Hne)]
      end; reflexivity.
  - repeat match goal with
    | |- context [bool_decide ?P] =>
        rewrite (bool_decide_eq_false_2 P) by tauto
    end. reflexivity.
Qed.

(** Over handlers that are all different, a line adds one when its handler
    is among them and nothing otherwise. *)
Lemma line_weight_sum (hs : list str) line :
  NoDup hs ->
  foldr (fun h a => line_weight h line + a) 0 hs =
  match parse_log_line line with
  | Some d =>
      match handler d with
      | Some h => if decide (h ∈ hs) then 1 else 0
      | None => 0
      end
  | None => 0
  end.
Proof.
  intros Hnd. induction Hnd as [|h hs Hh _ IH]; simpl.
  - destruct (parse_log_line line) as [d|]; [|done]. by destruct (handler d).
  - rewrite IH, line_weight_handler.
    destruct (parse_log_line line) as [d|]; [|done].
    destruct (handler d) as [h0|]; [|by rewrite decide_False].
    destruct (decide (h0 = h)) as [->|Hne].
    + rewrite decide_True by done. rewrite decide_False by done.
      rewrite decide_True by (by left). done.
    + rewrite decide_False by congruence.
      destruct (decide (h0 ∈ hs)) as [Hin|Hnin].
      * by rewrite decide_True by (by right).
      * rewrite decide_False; [done|]. intros [?|?]%elem_of_cons; done.
Qed.

Lemma counted_total (hs : list str) (lines : list str) :
  NoDup hs ->
  (forall line d h, In line lines -> parse_log_line line = Some d ->
     handler d = Some h -> h ∈ hs) ->
  foldr (fun h a => row_total (counted_row h lines) + a) 0 hs =
  Z.of_nat (length (List.filter attributed lines)).
Proof.
  intros Hnd. induction lines as [|line lines IH]; intros Hall.
  - cbn [List.filter length]. clear. induction hs as [|h hs IH]; [done|].
    simpl. rewrite IH. reflexivity.
  - assert (Hsplit : foldr (fun h a =>
                row_total (counted_row h (line :: lines)) + a) 0 hs =
              foldr (fun h a => line_weight h line + a) 0 hs +
              foldr (fun h a => row_total (counted_row h lines) + a) 0 hs).
    { clear. induction hs as [|h hs IH]; [done|]. cbn [foldr].
      rewrite IH, row_total_cons. lia. }
    rewrite Hsplit, IH by (intros; eapply Hall; [by right|done..]).
    rewrite line_weight_sum by done. cbn [List.filter]. unfold attributed at 2.
    destruct (parse_log_line line) as [d|] eqn:Hp; [|lia].
    destruct (handler d) as [h|] eqn:Hh.
    + rewrite decide_True by (eapply Hall; [by left|done..]).
      rewrite bool_decide_eq_true_2 by by eexists. cbn [length]. lia.
    + rewrite bool_decide_eq_false_2 by (by intros [? ?]). lia.
Qed.

Lemma merge_results_names_nodup l :
  NoDup (map handler_name (_merge_results l)).
Proof.
  pose proof (merge_results_strict l) as Hs.
  induction Hs as [|x xs _ IH Hx]; simpl; [constructor|].
  apply NoDup_cons. split; [|done]. intros Hin%list_elem_of_In.
  apply in_map_iff in Hin as (y & Ey & Hy).
  rewrite List.Forall_forall in Hx. destruct (Hx y Hy) as [_ Hne]. congruence.
Qed.

(** X4: the number after [Total requests:] is the number of lines, over
    all sources, that are records with a handler: every such line is
    counted once and nothing else is. *)
Theorem total_requests_counts_lines (sources : list (list str)) :
  HandlersReport._calculate_total (_merge_results (map process_lines sources))
  = Z.of_nat (length (List.filter attributed (concat sources))).
Proof.
  rewrite calculate_total_rows.
  set (rows := _merge_results (map process_lines sources)).
  rewrite <- (counted_total (map handler_name rows) (concat sources)).
  - assert (Hrows : forall row, In row rows ->
              row = counted_row (handler_name row) (concat sources))
      by (intros row Hr; by apply rows_counted in Hr as [? _]).
    clearbody rows. induction rows as [|r rows IH]; [done|].
    cbn [map foldr column_sum]. fold (column_sum row_total rows).
    rewrite IH by (intros; apply Hrows; by right).
    by rewrite <- (Hrows r) by by left.
  - apply merge_results_names_nodup.
  - intros line d h Hin Hp Hh. apply list_elem_of_In, in_map_iff.
    exists (counted_row h (concat sources)). split; [done|].
    apply rows_counted. cbn [counted_row handler_name].
    split; [done|]. by exists line, d.
Qed.

(** X5: a row of the tables of the sources has no negative counter and at
    least one count: a handler without a line has no row. *)
Theorem rows_are_positive (sources : list (list str)) (row : DjangoReportData) :
  In row (_merge_results (map process_lines sources)) ->
  0 <= debug_count row /\ 0 <= info_count row /\ 0 <= warning_count row /\
  0 <= error_count row /\ 0 <= critical_count row /\ 1 <= row_total row.
Proof.
  intros [Hrow (line & d & Hin & Hp & Hh)]%rows_counted.
  assert (Ht : 1 <= row_total row).
  { rewrite Hrow. apply row_total_counted. eauto. }
  rewrite Hrow. cbn [counted_row debug_count info_count warning_count
    error_count critical_count]. rewrite <- Hrow.
  split_and!; try apply count_of_nonneg. done.
Qed.

Lemma no_rows_iff (sources : list (list str)) :
  _merge_results (map process_lines sources) = [] <->
  Forall (fun line => attributed line = false) (concat sources).
Proof.
  split.
  - intros E. apply List.Forall_forall. intros line Hin.
    destruct (attributed line) eqn:Ha; [|done]. exfalso.
    unfold attributed in Ha. destruct (parse_log_line line) as [d|] eqn:Hp;
      [|done]. apply bool_decide_eq_true in Ha as [h Hh].
    assert (In (counted_row h (concat sources))
              (_merge_results (map process_lines sources))) as Hr.
    { apply rows_counted. cbn [counted_row handler_name].
      split; [done|]. by exists line, d. }
    by rewrite E in Hr.
  - intros Hall.
    destruct (_merge_results (map process_lines sources)) as [|row rows] eqn:E;
      [done|]. exfalso.
    assert (In row (_merge_results (map process_lines sources))) as Hr
      by (rewrite E; by left).
    apply rows_counted in Hr as [_ (line & d & Hin & Hp & Hh)].
    rewrite List.Forall_forall in Hall. specialize (Hall line Hin).
    unfold attributed in Hall. rewrite Hp in Hall.
    apply bool_decide_eq_false in Hall. apply Hall. by eexists.
Qed.

(** X6: the tables of the sources give no row at all exactly when no line
    of any source is a record with a handler. *)
Theorem no_rows_without_handlers (sources : list (list str)) :
  _merge_results (map process_lines sources) = [] <->
  Forall (fun line => attributed line = false) (concat sources).
Proof. apply no_rows_iff. Qed.

End CountedTotals.

(** ** One line, one cell *)

Section LineEffect.
Context {U : UnicodeData}.

(** X7: a line changes the table in one way only.  A record with a handler
    (its component is then [django.request]) adds one to the cell of its
    handler and level, whose key is one of the five counter names, and
    leaves every other cell alone; any other line leaves the table as it
    is. *)
Theorem process_line_effect (tbl : table) (line : str) :
  match parse_log_line line with
  | Some d =>
      match handler d with
      | Some h =>
          let k := level_key (level d) in
          component d = DjangoLogComponent.REQUEST /\
          In k STAT_KEYS /\
          cell (process_line tbl line) h k =
            Some (default 0 (cell tbl h k) + 1) /\
          forall h' k', (h', k') <> (h, k) ->
            cell (process_line tbl line) h' k' = cell tbl h' k'
      | None => process_line tbl line = tbl
      end
  | None => process_line tbl line = tbl
  end.
Proof.
  unfold process_line.
  destruct (parse_log_line line) as [d|] eqn:Hp; [|done].
  destruct (handler d) as [h|] eqn:Hh; [|by case_decide].
  pose proof (parse_handler_request _ _ _ Hp Hh) as Hc.
  rewrite decide_True by done. cbn zeta. split_and!.
  - done.
  - apply level_key_stat. by eapply parse_level_token.
  - rewrite cell_add_count. by rewrite decide_True.
  - intros h' k' Hne. rewrite cell_add_count.
    rewrite decide_False; [done|]. intros [-> ->]. done.
Qed.

End LineEffect.

(** ** Which handlers get a row *)

Section RowsOfTables.

Lemma cells_sum_in (l : list table) r h k :
  In r l -> is_Some (cell r h k) -> is_Some (cells_sum l h k).
Proof.
  induction l as [|r' l IH]; [done|]. intros [->|Hin] Hc; simpl.
  - destruct Hc as [x ->]. by destruct (cells_sum l h k).
  - destruct (IH Hin Hc) as [y ->]. by destruct (cell r' h k).
Qed.

(** X8: for any partial results, a handler has a row exactly when one of
    them holds a counter for it.  A handler whose dictionary of counters is
    empty in every partial result has no row. *)
Theorem row_iff_counter (l : list table) (h : str) :
  In h (map handler_name (_merge_results l)) <->
  exists r, In r l /\ exists k, is_Some (cell r h k).
Proof.
  rewrite in_map_iff. split.
  - intros (row & <- & (h0 & lv & Hlv & ->)%merge_results_rows). simpl.
    destruct (map_choose lv (no_empty_merged_data _ h0 lv Hlv))
      as (k & x & Hk).
    assert (Hc : cell (merged_data l) h0 k = Some x).
    { unfold cell. by rewrite Hlv. }
    rewrite cell_merged_data in Hc.
    destruct (cells_sum_some l h0 k) as (r & Hr & Hs); [by rewrite Hc|].
    eauto.
  - intros (r & Hr & k & Hc).
    pose proof (cells_sum_in l r h k Hr Hc) as Hs.
    rewrite <- cell_merged_data in Hs. destruct Hs as [x Hx].
    unfold cell in Hx.
    destruct (merged_data l !! h) as [lv|] eqn:Hlv; [|done].
    exists (report_row (h, lv)). split; [done|].
    apply merge_results_rows. eauto.
Qed.

End RowsOfTables.

(** ** Runs without the pool *)

Section SequentialRuns.
Context {U : UnicodeData}.

(** X9: a run without the pool succeeds exactly when every source can be
    read, and its rows are then the merge of the tables of the sources, in
    the order given: what the rows are depends on the lines of the files
    and on nothing else. *)
Theorem sequential_success (fs : file_system) (file_paths : list str)
    (rows : list DjangoReportData) :
  process_files Sequential fs file_paths = Ends (inr rows) <->
  exists sources,
    Forall2 (fun p lines => fs p = inr lines) file_paths sources /\
    rows = _merge_results (map process_lines sources).
Proof. apply seq_success_iff. Qed.

Lemma sequential_failure_iff (fs : file_system) (file_paths : list str)
    (e : exn) :
  process_files Sequential fs file_paths = Ends (inl e) <->
  exists before p after,
    file_paths = before ++ p :: after /\
    Forall (fun q => exists lines, fs q = inr lines) before /\
    ((exists m, fs p = inl (OSError m) /\ e = LogFileError p m) \/
     (exists m, fs p = inl (OtherError m) /\
        e = LogProcessingError
              (cp "Error processing log files: " ++
               cp "Unexpected error reading file " ++ p ++ cp ": " ++ m))).
Proof.
  assert (Hread : forall q, (exists y, _process_single_file fs q = inr y) <->
                            exists lines, fs q = inr lines).
  { intros q. split.
    - intros (y & (lines & ? & _)%process_single_ok). eauto.
    - intros (lines & Hl). exists (process_lines lines).
      apply process_single_ok. eauto. }
  unfold process_files.
  destruct (map_seq (_process_single_file fs) file_paths) as [e0|tables] eqn:E.
  - apply map_seq_fail in E as (before & p & after & -> & Hb & Hp).
    assert (Hb' : Forall (fun q => exists lines, fs q = inr lines) before).
    { eapply List.Forall_impl; [|exact Hb]. intros q. apply Hread. }
    assert (Hcase : (exists m, fs p = inl (OSError m) /\ e0 = LogFileError p m)
              \/ (exists m, fs p = inl (OtherError m) /\
                    e0 = LogProcessingError
                      (cp "Unexpected error reading file " ++ p ++ cp ": "
                       ++ m))).
    { unfold _process_single_file, _read_logs in Hp.
      destruct (fs p) as [[m|m]|lines]; [left|right|done];
        injection Hp as <-; eauto. }
    split.
    + intros He. exists before, p, after. split_and!; [done..|].
      destruct Hcase as [(m & Hm & ->)|(m & Hm & ->)].
      * injection He as <-. eauto.
      * injection He as <-. right. exists m. split; [done|]. reflexivity.
    + intros (before' & p' & after' & E' & Hb'' & Hcase').
      assert (before' = before /\ p' = p) as [-> ->].
      { assert (Hfail : ~ exists lines, fs p = inr lines).
        { intros [lines Hl]. destruct Hcase as [(m & Hm & _)|(m & Hm & _)];
            congruence. }
        assert (Hfail' : ~ exists lines, fs p' = inr lines).
        { intros [lines Hl]. destruct Hcase' as [(m & Hm & _)|(m & Hm & _)];
            congruence. }
        clear -E' Hb' Hb'' Hfail Hfail'. revert before' E' Hb''.
        induction Hb' as [|b bs Hbq _ IH]; intros before' E' Hb''.
        - destruct before' as [|b' bs']; simpl in E'.
          + by injection E' as ->.
          + injection E' as -> _. by inversion Hb''.
        - destruct before' as [|b' bs']; simpl in E'.
          + injection E' as <- _. done.
          + injection E' as <- E'. inversion Hb''; subst.
            by destruct (IH bs' E') as [-> ->]. }
      destruct Hcase as [(m & Hm & ->)|(m & Hm & ->)],
        Hcase' as [(m' & Hm' & ->)|(m' & Hm' & ->)]; try congruence.
      rewrite Hm in Hm'. injection Hm' as ->. reflexivity.
  - split; [done|]. intros (before & p & after & -> & Hb & Hcase). exfalso.
    apply map_seq_ok in E. apply Forall2_app_inv_l in E
      as (t1 & t2 & _ & E & _).
    inversion E as [|? t ? ts Hp _]; subst.
    apply process_single_ok in Hp as (lines & Hl & _).
    destruct Hcase as [(m & Hm & _)|(m & Hm & _)]; congruence.
Qed.

(** X10: a run without the pool fails with the first source, in the order
    given, that cannot be read; the sources before it were read and those
    after it are not looked at.  A missing or unreadable file gives the
    [LogFileError] of its path and cause; any other failure of the read
    gives a [LogProcessingError] whose text names the path. *)
Theorem sequential_first_failure (fs : file_system) (file_paths : list str)
    (e : exn) :
  process_files Sequential fs file_paths = Ends (inl e) <->
  exists before p after,
    file_paths = before ++ p :: after /\
    Forall (fun q => exists lines, fs q = inr lines) before /\
    ((exists m, fs p = inl (OSError m) /\ e = LogFileError p m) \/
     (exists m, fs p = inl (OtherError m) /\
        e = LogProcessingError
              (cp "Error processing log files: " ++
               cp "Unexpected error reading file " ++ p ++ cp ": " ++ m))).
Proof. apply sequential_failure_iff. Qed.

End SequentialRuns.

(** ** The order of the sources *)

Section SourceOrder.
Context {U : UnicodeData}.

Lemma Forall2_perm_l {A B} (R : A -> B -> Prop) (l l' : list A) (ys : list B) :
  Permutation l l' -> Forall2 R l ys ->
  exists ys', Forall2 R l' ys' /\ Permutation ys ys'.
Proof.
  intros Hp. revert ys.
  induction Hp as [|x l l' _ IH|x y l|l1 l2 l3 _ IH1 _ IH2]; intros ys H.
  - inversion H. by exists [].
  - inversion H as [|? b ? bs Hb Hbs]; subst.
    destruct (IH bs Hbs) as (bs' & ? & ?). exists (b :: bs').
    split; [by constructor|by constructor].
  - inversion H as [|? b ? bs Hb Hbs]; subst.
    inversion Hbs as [|? c ? cs Hc Hcs]; subst.
    exists (c :: b :: cs). split; [by repeat constructor|apply perm_swap].
  - destruct (IH1 ys H) as (ys1 & H1 & P1).
    destruct (IH2 ys1 H1) as (ys2 & H2 & P2).
    exists ys2. split; [done|by etrans].
Qed.

Lemma seq_perm_ok (fs : file_system) paths paths' rows :
  Permutation paths paths' ->
  process_files Sequential fs paths = Ends (inr rows) ->
  process_files Sequential fs paths' = Ends (inr rows).
Proof.
  intros Hp (sources & Hs & ->)%seq_success_iff.
  destruct (Forall2_perm_l _ _ _ _ Hp Hs) as (sources' & Hs' & Hp').
  apply seq_success_iff. exists sources'. split; [done|].
  unfold _merge_results. f_equal. f_equal. f_equal.
  apply merged_data_perm. by apply Permutation_map.
Qed.

(** X11: the order in which the sources are given does not matter to a
    run without the pool: given in another order they give the same rows,
    and a run that fails still fails. *)
Theorem source_order_free (fs : file_system) (file_paths file_paths' : list str) :
  Permutation file_paths file_paths' ->
  match process_files Sequential fs file_paths with
  | Ends (inr rows) => process_files Sequential fs file_paths' = Ends (inr rows)
  | Ends (inl _) =>
      exists e, process_files Sequential fs file_paths' = Ends (inl e)
  | Hangs => False
  end.
Proof.
  intros Hp.
  destruct (process_files Sequential fs file_paths) as [[e|rows]|] eqn:E.
  - destruct (process_files Sequential fs file_paths') as [[e'|rows']|] eqn:E';
      [eauto| |].
    + apply (seq_perm_ok fs file_paths' file_paths) in E';
        [congruence|by symmetry].
    + by apply sequential_ends in E'.
  - by eapply seq_perm_ok.
  - by apply sequential_ends in E.
Qed.

End SourceOrder.

(** ** The sort of the report *)

Section ReportOrder.

Lemma sorted_by_id {A} (key : A -> str) (l : list A) :
  StronglySorted (key_le key) l -> sorted_by key l = l.
Proof.
  induction 1 as [|x l Hl IH Hx]; [done|]. simpl. rewrite IH.
  destruct Hx as [|y l' Hy _]; [done|]. simpl.
  unfold key_le in Hy. by rewrite Hy.
Qed.

Lemma merge_results_key_le l :
  StronglySorted (key_le handler_name) (_merge_results l).
Proof.
  pose proof (merge_results_strict l) as Hs.
  induction Hs as [|x xs _ IH Hx]; constructor; [done|].
  eapply List.Forall_impl; [|exact Hx]. by intros y [? _].
Qed.

(** X12: the rows [_merge_results] returns are in the order the report
    wants: the sort of [generate] leaves them as they are. *)
Theorem report_sort_keeps_merged (l : list table) :
  sorted_by handler_name (_merge_results l) = _merge_results l.
Proof. apply sorted_by_id, merge_results_key_le. Qed.

Lemma key_unique {A} (key : A -> str) (l : list A) x y :
  NoDup (map key l) -> In x l -> In y l -> key x = key y -> x = y.
Proof.
  induction l as [|a l IH]; [done|]. simpl. intros Hnd%NoDup_cons Hx Hy E.
  destruct Hnd as [Ha Hnd]. destruct Hx as [->|Hx], Hy as [->|Hy].
  - done.
  - exfalso. apply Ha. rewrite E. by apply list_elem_of_In, in_map.
  - exfalso. apply Ha. rewrite <- E. by apply list_elem_of_In, in_map.
  - by apply IH.
Qed.

(** Two sorted lists with the same elements, all of different keys, are the
    same list. *)
Lemma sorted_perm_unique {A} (key : A -> str) (a b : list A) :
  StronglySorted (key_le key) a -> StronglySorted (key_le key) b ->
  Permutation a b -> NoDup (map key a) -> a = b.
Proof.
  intros Ha. revert b. induction Ha as [|x a Ha IH Hx]; intros b Hb Hp Hnd.
  - by apply Permutation_nil in Hp.
  - destruct Hb as [|y b Hb Hy].
    { symmetry in Hp. by apply Permutation_nil in Hp. }
    assert (x = y) as <-.
    { assert (Hxb : In x (y :: b)).
      { apply (Permutation_in x Hp). by left. }
      assert (Hya : In y (x :: a)).
      { apply (Permutation_in y (Permutation_sym Hp)). by left. }
      destruct Hxb as [<-|Hxb]; [done|]. destruct Hya as [->|Hya]; [done|].
      rewrite List.Forall_forall in Hx, Hy.
      apply (key_unique key (x :: a)); [done|by left|by right|].
      apply str_le_antisym; [by apply Hx|by apply Hy]. }
    f_equal. apply IH; [done|by eapply Permutation_cons_inv|].
    simpl in Hnd. by apply NoDup_cons in Hnd as [_ ?].
Qed.

Lemma sorted_by_perm_eq {A} (key : A -> str) (l l' : list A) :
  Permutation l l' -> NoDup (map key l) -> sorted_by key l = sorted_by key l'.
Proof.
  intros Hp Hnd. apply (sorted_perm_unique key).
  - apply sorted_by_sorted.
  - apply sorted_by_sorted.
  - by rewrite !sorted_by_perm.
  - rewrite map_fmap, sorted_by_perm, <- map_fmap. done.
Qed.

(** X13: the report does not depend on the order of the statistics it is
    given, as long as no handler occurs twice among them. *)
Theorem report_order_free (log_statistics log_statistics' : list DjangoReportData) :
  Permutation log_statistics log_statistics' ->
  NoDup (map handler_name log_statistics) ->
  HandlersReport.generate log_statistics =
  HandlersReport.generate log_statistics'.
Proof.
  intros Hp Hnd.
  destruct log_statistics as [|s l].
  { apply Permutation_nil in Hp. by subst. }
  destruct log_statistics' as [|s' l'].
  { symmetry in Hp. by apply Permutation_nil in Hp. }
  unfold HandlersReport.generate.
  rewrite (sorted_by_perm_eq handler_name (s :: l) (s' :: l')) by done.
  rewrite !calculate_total_rows.
  rewrite (column_sum_perm row_total _ _ Hp).
  assert (create_totals (s :: l) = create_totals (s' :: l')) as ->; [|done].
  unfold create_totals. rewrite !py_sum_map.
  by rewrite !(column_sum_perm _ _ _ Hp).
Qed.

End ReportOrder.

(** ** The entry point *)

Section EntryPoint.

Lemma generate_cons_not_message s l :
  HandlersReport.generate (s :: l) <> HandlersReport.no_data_message.
Proof.
  intros H. unfold HandlersReport.generate in H.
  set (first_line := HandlersReport.str_of_int _ ++ _) in H.
  set (more := HandlersReport._get_header :: _) in H.
  destruct more as [|x xs] eqn:Em; [done|].
  change (join [chr "010"] ((cp "Total requests: " ++ first_line) :: x :: xs))
    with ((cp "Total requests: " ++ first_line) ++ [chr "010"] ++
          join [chr "010"] (x :: xs)) in H.
  discriminate H.
Qed.

(** X14: the exit code is 0 or 1.  It is 0 exactly when [process_files]
    returned at least one row; then the report is the one thing printed,
    on the standard output.  It is 1 otherwise; then nothing goes to the
    standard output and a diagnostic goes to the standard error. *)
Theorem main_exit_code (r : result (list DjangoReportData)) :
  (exit_code (main_from r) = 0 \/ exit_code (main_from r) = 1) /\
  (exit_code (main_from r) = 0 <-> exists s l, r = inr (s :: l)) /\
  match r with
  | inr (s :: l) =>
      stdout (main_from r) = [HandlersReport.generate (s :: l)] /\
      stderr (main_from r) = []
  | _ => stdout (main_from r) = [] /\ stderr (main_from r) <> []
  end.
Proof.
  assert (Hfail : forall r : result (list DjangoReportData),
            exit_code (main_from r) = 1 ->
            (exit_code (main_from r) = 0 \/ exit_code (main_from r) = 1) /\
            (exit_code (main_from r) = 0 <-> False)).
  { intros r' ->. split; [by right|done]. }
  destruct r as [[m|p m|failed]|[|s l]].
  - destruct (Hfail (inl (LogProcessingError m)) eq_refl) as [H1 H2].
    split_and!; [done| |done..]. rewrite H2. split; [done|].
    by intros (? & ? & ?).
  - destruct (Hfail (inl (LogFileError p m)) eq_refl) as [H1 H2].
    split_and!; [done| |done..]. rewrite H2. split; [done|].
    by intros (? & ? & ?).
  - destruct (Hfail (inl (MultipleFilesError failed)) eq_refl) as [H1 H2].
    split_and!; [done| |done..]. rewrite H2. split; [done|].
    by intros (? & ? & ?).
  - destruct (Hfail (inr []) eq_refl) as [H1 H2].
    split_and!; [done| |done..]. rewrite H2. split; [done|].
    by intros (? & ? & ?).
  - split_and!; [by left| |done..]. split; [eauto|done].
Qed.

(** X15: the entry point never prints the no-data message of the report,
    on either stream: with no rows it prints its own line and does not call
    [generate]. *)
Theorem main_never_no_data (r : result (list DjangoReportData)) :
  ~ In HandlersReport.no_data_message (stdout (main_from r)) /\
  ~ In HandlersReport.no_data_message (stderr (main_from r)).
Proof.
  destruct r as [[m|p m|failed]|[|s l]]; cbn [main_from stdout stderr]; split.
  - intros [].
  - intros [H|[]]. discriminate H.
  - intros [].
  - intros [H|[]]. discriminate H.
  - intros [].
  - intros [H|H]; [discriminate H|].
    apply in_map_iff in H as (pe & H & _). discriminate H.
  - intros [].
  - intros [H|[]]. discriminate H.
  - intros [H|[]]. by apply generate_cons_not_message in H.
  - intros [].
Qed.

End EntryPoint.

(** ** The totals row of a run *)

Section LevelTotals.
Context {U : UnicodeData}.

Lemma attributed_to_sum (hs : list str) lvl line :
  NoDup hs ->
  (forall d h, parse_log_line line = Some d -> handler d = Some h -> h ∈ hs) ->
  foldr (fun h a => (if attributed_to h lvl line then 1 else 0) + a) 0 hs =
  if attributed_level lvl line then 1 else 0.
Proof.
  unfold attributed_to, attributed_level.
  destruct (parse_log_line line) as [d|] eqn:Hp.
  2:{ intros _ _. induction hs as [|h hs IH]; [done|]. cbn [foldr]. by rewrite IH. }
  intros Hnd Hall.
  destruct (decide (level d = lvl)) as [Hl|Hl].
  2:{ rewrite bool_decide_eq_false_2 by tauto. clear -Hl.
      induction hs as [|h hs IH]; [done|]. cbn [foldr]. rewrite IH.
      by rewrite bool_decide_eq_false_2 by tauto. }
  destruct (handler d) as [h0|] eqn:Hh.
  2:{ rewrite bool_decide_eq_false_2 by (intros [[? ?] _]; done). clear.
      induction hs as [|h hs IH]; [done|]. cbn [foldr]. rewrite IH.
      by rewrite bool_decide_eq_false_2 by (intros [? _]; done). }
  rewrite bool_decide_eq_true_2 by (split; [by eexists|done]).
  specialize (Hall d h0 eq_refl Hh). clear Hp.
  induction Hnd as [|h hs Hnin _ IH]; [by apply elem_of_nil in Hall|].
  cbn [foldr]. destruct (decide (h0 = h)) as [->|Hne].
  - rewrite bool_decide_eq_true_2 by done.
    assert (foldr (fun h1 a =>
              (if bool_decide (Some h = Some h1 /\ level d = lvl)
               then 1 else 0) + a) 0 hs = 0) as ->; [|done].
    clear -Hnin. induction hs as [|h' hs IH]; [done|]. cbn [foldr].
    rewrite IH by (intros ?; apply Hnin; by right).
    rewrite bool_decide_eq_false_2; [done|]. intros [[= ->] _].
    apply Hnin. by left.
  - rewrite bool_decide_eq_false_2 by (intros [[= ?] _]; done).
    rewrite IH; [done|]. by apply elem_of_cons in Hall as [?|?].
Qed.

Lemma count_level_cons lvl line lines :
  count_level lvl (line :: lines) =
  (if attributed_level lvl line then 1 else 0) + count_level lvl lines.
Proof.
  unfold count_level. cbn [List.filter]. destruct (attributed_level lvl line).
  - cbn [length]. lia.
  - lia.
Qed.

Lemma count_of_sum (hs : list str) lvl (lines : list str) :
  NoDup hs ->
  (forall line d h, In line lines -> parse_log_line line = Some d ->
     handler d = Some h -> h ∈ hs) ->
  foldr (fun h a => count_of h lvl lines + a) 0 hs = count_level lvl lines.
Proof.
  intros Hnd. induction lines as [|line lines IH]; intros Hall.
  - clear. induction hs as [|h hs IH]; [done|]. simpl. by rewrite IH.
  - assert (Hsplit : foldr (fun h a => count_of h lvl (line :: lines) + a) 0 hs
              = foldr (fun h a =>
                         (if attributed_to h lvl line then 1 else 0) + a) 0 hs
                + foldr (fun h a => count_of h lvl lines + a) 0 hs).
    { clear. induction hs as [|h hs IH]; [done|]. cbn [foldr].
      rewrite IH, count_of_cons. lia. }
    rewrite Hsplit, IH by (intros; eapply Hall; [by right|done..]).
    rewrite attributed_to_sum; [|done|intros; eapply Hall; [by left|done..]].
    by rewrite count_level_cons.
Qed.

Lemma column_of_rows (sources : list (list str)) lvl
    (f : DjangoReportData -> Z) :
  (forall h lines, f (counted_row h lines) = count_of h lvl lines) ->
  column_sum f (_merge_results (map process_lines sources)) =
  count_level lvl (concat sources).
Proof.
  intros Hf. set (rows := _merge_results (map process_lines sources)).
  rewrite <- (count_of_sum (map handler_name rows) lvl (concat sources)).
  - assert (Hrows : forall row, In row rows ->
              row = counted_row (handler_name row) (concat sources))
      by (intros row Hr; by apply rows_counted in Hr as [? _]).
    clearbody rows. induction rows as [|r rows IH]; [done|].
    cbn [map foldr column_sum]. fold (column_sum f rows).
    rewrite IH by (intros; apply Hrows; by right).
    by rewrite (Hrows r) at 1 by (by left); rewrite Hf.
  - apply merge_results_names_nodup.
  - intros line d h Hin Hp Hh. apply list_elem_of_In, in_map_iff.
    exists (counted_row h (concat sources)). split; [done|].
    apply rows_counted. cbn [counted_row handler_name].
    split; [done|]. by exists line, d.
Qed.

(** X16: the totals row of the rows of the sources counts the lines by
    level: each of its counters is the number of lines, over all sources
    and all handlers, that are records with a handler and that level. *)
Theorem totals_count_levels (sources : list (list str)) :
  create_totals (_merge_results (map process_lines sources)) =
  {| handler_name := [];
     debug_count := count_level (cp "DEBUG") (concat sources);
     info_count := count_level (cp "INFO") (concat sources);
     warning_count := count_level (cp "WARNING") (concat sources);
     error_count := count_level (cp "ERROR") (concat sources);
     critical_count := count_level (cp "CRITICAL") (concat sources) |}.
Proof.
  unfold create_totals. rewrite !py_sum_map.
  f_equal; by apply column_of_rows.
Qed.

End LevelTotals.

(** ** A whole run *)

Section WholeRun.
Context {U : UnicodeData}.

Lemma exit_zero_iff (r : result (list DjangoReportData)) :
  exit_code (main_from r) = 0 <-> exists s l, r = inr (s :: l).
Proof.
  destruct r as [[m|p m|failed]|[|s l]]; simpl;
    (split; [try done; eauto|try (by intros (? & ? & ?)); done]).
Qed.

Lemma no_logs_iff (r : result (list DjangoReportData)) :
  stderr (main_from r) = [cp "No logs found in the provided files"] <->
  r = inr [].
Proof.
  destruct r as [[m|p m|failed]|[|s l]]; cbn [main_from stderr];
    (split; [|done]); try done; intros H; discriminate H.
Qed.

Lemma main_exit_zero_iff (sizes completion : list nat) (fs : file_system)
    (log_files : list str) :
  exit_code <$> main sizes completion fs log_files = Some 0 <->
  exists s l,
    process_files (Pool sizes completion) fs log_files = Ends (inr (s :: l)).
Proof.
  unfold main.
  destruct (process_files (Pool sizes completion) fs log_files) as [r|].
  - cbn [fmap option_fmap option_map]. split.
    + intros [= H]. apply exit_zero_iff in H as (s & l & ->). eauto.
    + intros (s & l & [= ->]). done.
  - split; [done|]. by intros (? & ? & ?).
Qed.

Lemma main_no_logs_iff (sizes completion : list nat) (fs : file_system)
    (log_files : list str) :
  stderr <$> main sizes completion fs log_files =
    Some [cp "No logs found in the provided files"] <->
  process_files (Pool sizes completion) fs log_files = Ends (inr []).
Proof.
  unfold main.
  destruct (process_files (Pool sizes completion) fs log_files) as [r|].
  - cbn [fmap option_fmap option_map]. split.
    + intros [= H]. apply no_logs_iff in H as ->. done.
    + intros [= ->]. done.
  - done.
Qed.

(** X17: a run of the entry point, which processes the sources on the
    worker pool, ends with exit code 0 exactly when every source can be
    read and some line of some source is a record with a handler; it prints
    [No logs found in the provided files] exactly when every source can be
    read and no line is such a record; whatever the cut of the sources into
    chunks and the order in which the chunks complete. *)
Theorem run_outcome (fs : file_system) (log_files : list str)
    (sizes completion : list nat) :
  Permutation completion (seq 0 (length (cut sizes log_files))) ->
  (exit_code <$> main sizes completion fs log_files = Some 0 <->
   exists sources,
     Forall2 (fun p lines => fs p = inr lines) log_files sources /\
     Exists (fun line => attributed line = true) (concat sources)) /\
  (stderr <$> main sizes completion fs log_files =
     Some [cp "No logs found in the provided files"] <->
   exists sources,
     Forall2 (fun p lines => fs p = inr lines) log_files sources /\
     Forall (fun line => attributed line = false) (concat sources)).
Proof.
  intros Hperm. split.
  - rewrite main_exit_zero_iff. split.
    + intros (s & l & E). apply pool_success_iff in E; [|done].
      apply seq_success_iff in E as (sources & Hs & Hrows).
      exists sources. split; [done|].
      assert (Hin : In s (_merge_results (map process_lines sources)))
        by (rewrite <- Hrows; by left).
      apply rows_counted in Hin as [_ (line & d & Hin & Hp & Hh)].
      apply List.Exists_exists. exists line. split; [done|].
      unfold attributed. rewrite Hp. apply bool_decide_eq_true. by eexists.
    + intros (sources & Hs & (line & Hin & Ha)%List.Exists_exists).
      destruct (_merge_results (map process_lines sources)) as [|s l] eqn:E.
      * apply no_rows_iff in E. rewrite List.Forall_forall in E.
        specialize (E line Hin). congruence.
      * exists s, l. apply pool_success_iff; [done|].
        apply seq_success_iff. exists sources. by rewrite E.
  - rewrite main_no_logs_iff, pool_success_iff by done. split.
    + intros (sources & Hs & Hrows)%seq_success_iff. exists sources.
      split; [done|]. by apply no_rows_iff.
    + intros (sources & Hs & Hall). apply seq_success_iff. exists sources.
      split; [done|]. symmetry. by apply no_rows_iff.
Qed.

End WholeRun.

(** ** Lines and columns of the report *)

Section ReportText.

Lemma count_char_app c a b :
  count_char c (a ++ b) = (count_char c a + count_char c b)%nat.
Proof. induction a as [|x a IH]; simpl; [done|]. rewrite IH. lia. Qed.

Lemma count_char_repeat c x n :
  x <> c -> count_char c (repeat x n) = 0%nat.
Proof.
  intros Hne. induction n as [|n IH]; simpl; [done|]. rewrite IH.
  by destruct (N.eqb_spec x c).
Qed.

Lemma count_char_ljust c w s :
  chr " " <> c ->
  count_char c (HandlersReport.ljust w s) = count_char c s.
Proof.
  intros Hne. unfold HandlersReport.ljust.
  rewrite count_char_app, count_char_repeat by done. lia.
Qed.

Lemma count_char_join c sep (l : list str) :
  l <> [] ->
  count_char c (join sep l) =
  (foldr (fun x a => count_char c x + a) 0 l +
   (length l - 1) * count_char c sep)%nat.
Proof.
  induction l as [|x l IH]; [done|]. intros _. destruct l as [|y l].
  - simpl. lia.
  - change (join sep (x :: y :: l)) with (x ++ sep ++ join sep (y :: l)).
    rewrite !count_char_app, IH by done. cbn [foldr length]. lia.
Qed.

Lemma count_char_uint c d :
  (c <? 48)%N = true ->
  count_char c (cp (NilEmpty.string_of_uint d)) = 0%nat.
Proof.
  intros Hc. apply N.ltb_lt in Hc. unfold cp.
  induction d as [|d IH|d IH|d IH|d IH|d IH|d IH|d IH|d IH|d IH|d IH];
    [done|..]; cbn [NilEmpty.string_of_uint list_ascii_of_string map
                    count_char]; rewrite IH;
    match goal with
    | |- context [(?x =? c)%N] => destruct (N.eqb_spec x c) as [E|]; [|done]
    end; exfalso; vm_compute in E; subst c; vm_compute in Hc; discriminate Hc.
Qed.

(** A number is written without line feed and tab. *)
Lemma count_char_int c n :
  c = chr "010" \/ c = chr "009" ->
  count_char c (HandlersReport.str_of_int n) = 0%nat.
Proof.
  intros Hc. unfold HandlersReport.str_of_int, NilZero.string_of_int.
  assert (Hlt : (c <? 48)%N = true) by (by destruct Hc as [-> | ->]).
  assert (Hu : forall d, count_char c (cp (NilZero.string_of_uint d)) = 0%nat).
  { intros d. unfold NilZero.string_of_uint. destruct d;
      try (by apply (count_char_uint c)). by destruct Hc as [-> | ->]. }
  destruct (Z.to_int n) as [d|d]; [apply Hu|].
  change (cp (String "-" (NilZero.string_of_uint d)))
    with (chr "-" :: cp (NilZero.string_of_uint d)).
  cbn [count_char]. rewrite Hu. by destruct Hc as [-> | ->].
Qed.

Lemma count_char_row c title r :
  c = chr "010" \/ c = chr "009" ->
  count_char c (HandlersReport._format_statistics title r) =
  (count_char c title + 5 * count_char c [chr "009"])%nat.
Proof.
  intros Hc. unfold HandlersReport._format_statistics.
  rewrite count_char_join by done.
  assert (Hsp : chr " " <> c) by (by destruct Hc as [-> | ->]).
  cbn [HandlersReport.stat_columns map foldr length HandlersReport.width
       HandlersReport.field].
  rewrite !count_char_ljust, !count_char_int by done. lia.
Qed.

Lemma count_char_rows c (rows : list DjangoReportData) :
  c = chr "010" \/ c = chr "009" ->
  Forall (fun r => count_char c (handler_name r) = 0%nat) rows ->
  foldr (fun x a => count_char c x + a)%nat 0%nat
    (map HandlersReport._format_handler_line rows) =
  (length rows * (5 * count_char c [chr "009"]))%nat.
Proof.
  intros Hc. induction 1 as [|r rows Hr _ IH]; [done|].
  cbn [map foldr length]. rewrite IH.
  unfold HandlersReport._format_handler_line.
  rewrite count_char_row, Hr by done. lia.
Qed.

(** X18: when no handler name has a line feed or a tab in it, the report
    of [n] statistics, [n] not 0, has [n + 4] lines (the total, an empty
    line, the header, the rows, the totals) and every line from the header
    on has six columns: the text has [n + 3] line feeds and
    [5 * (n + 2)] tabs. *)
Theorem report_lines_and_columns (log_statistics : list DjangoReportData) :
  log_statistics <> [] ->
  Forall plain_name log_statistics ->
  count_char (chr "010") (HandlersReport.generate log_statistics) =
    (length log_statistics + 3)%nat /\
  count_char (chr "009") (HandlersReport.generate log_statistics) =
    (5 * (length log_statistics + 2))%nat.
Proof.
  intros Hne Hplain. destruct log_statistics as [|s l]; [done|].
  set (stats := s :: l) in *.
  assert (Hgen : forall c, c = chr "010" \/ c = chr "009" ->
    count_char c (HandlersReport.generate stats) =
    (count_char c [chr "010"] + count_char c HandlersReport._get_header +
     length stats * (5 * count_char c [chr "009"]) +
     5 * count_char c [chr "009"] +
     (length stats + 2) * count_char c [chr "010"])%nat).
  { intros c Hc. unfold HandlersReport.generate, stats.
    fold stats. rewrite count_char_join by done.
    cbn [foldr length]. rewrite length_app, length_map. cbn [length].
    rewrite (Permutation_length (sorted_by_perm handler_name stats)).
    assert (Hfold : forall (a b : list str),
      foldr (fun x n => count_char c x + n)%nat 0%nat (a ++ b) =
      (foldr (fun x n => count_char c x + n)%nat 0%nat a +
       foldr (fun x n => count_char c x + n)%nat 0%nat b)%nat).
    { intros a b. induction a as [|x a IH]; simpl; [done|]. rewrite IH. lia. }
    rewrite Hfold, count_char_rows; [|done|].
    2:{ rewrite (sorted_by_perm handler_name stats).
        eapply List.Forall_impl; [|exact Hplain].
        intros r [? ?]. by destruct Hc as [-> | ->]. }
    rewrite (Permutation_length (sorted_by_perm handler_name stats)).
    cbn [foldr]. unfold HandlersReport._format_totals_line.
    rewrite count_char_row by done.
    rewrite !count_char_app, count_char_int by done.
    assert (count_char c (cp "Total requests: ") = 0%nat) as ->
      by (by destruct Hc as [-> | ->]).
    cbn [count_char]. lia. }
  split.
  - rewrite Hgen by (by left).
    change (count_char (chr "010") HandlersReport._get_header) with 0%nat.
    change (count_char (chr "010") [chr "009"]) with 0%nat.
    change (count_char (chr "010") [chr "010"]) with 1%nat. lia.
  - rewrite Hgen by (by right).
    change (count_char (chr "009") HandlersReport._get_header) with 5%nat.
    change (count_char (chr "009") [chr "009"]) with 1%nat.
    change (count_char (chr "009") [chr "010"]) with 0%nat. lia.
Qed.

End ReportText.

(** ** The line feed at the end of a line *)

Section LineFeed.
Context {U : UnicodeData}.

Lemma parse_some_reading line d :
  parse_log_line line = Some d ->
  exists ws rest,
    line_parts line (timestamp d) (level d) (component d) ws (message d) rest /\
    (rest = [] \/ exists r, rest = chr "010" :: r) /\
    (forall ws' msg' rest',
       ws ++ message d ++ rest = ws' ++ msg' ++ rest' ->
       space_run ws' -> message_shape msg' -> (length ws' <= length ws)%nat) /\
    handler d = if decide (component d = DjangoLogComponent.REQUEST)
                then extract_handler (message d) else None.
Proof.
  intros Hp. pose proof Hp as Hp0. unfold parse_log_line, re_match in Hp.
  destruct (exec BASE_PATTERN ([], line)) as [|[caps rest] l] eqn:E; [done|].
  destruct (parse_log_line_some _ _ _ _ E) as (ts & lvl & comp & msg & -> & Hp').
  assert (H : head (exec BASE_PATTERN ([], line)) =
              Some (base_groups ts lvl comp msg, rest)) by by rewrite E.
  apply base_head in H as (ts' & lvl' & comp' & ws & msg' & Hc & Hparts & Hr & Hm).
  injection Hc as <- <- <- <-. rewrite Hp0 in Hp'. injection Hp' as ->.
  exists ws, rest. by cbn.
Qed.

Lemma parse_none_wf line :
  parse_log_line line = None <-> ~ well_formed_line line.
Proof.
  split.
  - intros Hn (ts & lvl & comp & ws & msg & rest & Hparts).
    apply base_complete in Hparts.
    destruct (exec BASE_PATTERN ([], line)) as [|[caps r] l] eqn:E; [done|].
    destruct (parse_log_line_some _ _ _ _ E) as (? & ? & ? & ? & _ & Hp).
    congruence.
  - intros Hn. destruct (parse_log_line line) as [d|] eqn:Hp; [|done].
    exfalso. apply Hn.
    apply parse_some_reading in Hp as (ws & rest & Hparts & _).
    by exists (timestamp d), (level d), (component d), ws, (message d), rest.
Qed.

Lemma line_parts_more line ts lvl comp ws msg rest more :
  line_parts line ts lvl comp ws msg rest ->
  line_parts (line ++ more) ts lvl comp ws msg (rest ++ more).
Proof.
  intros (ws1 & ws2 & -> & H). exists ws1, ws2. split; [|done].
  by rewrite <- !app_assoc.
Qed.

Lemma line_parts_less line ts lvl comp ws msg rest :
  line_parts (line ++ [chr "010"]) ts lvl comp ws msg rest ->
  exists rest0, rest = rest0 ++ [chr "010"] /\
                line_parts line ts lvl comp ws msg rest0.
Proof.
  intros (ws1 & ws2 & E & Hts & Hws1 & Hlvl & Hws2 & Hcomp & Hws & Hmsg).
  destruct rest as [|c rest _] using rev_ind.
  - exfalso. destruct Hmsg as [Hne Hall].
    destruct msg as [|m msg _] using rev_ind; [done|].
    rewrite app_nil_r, !app_assoc in E. apply app_inj_tail in E as [_ <-].
    apply Forall_app in Hall as [_ Hall]. by inversion Hall.
  - rewrite !app_assoc in E. apply app_inj_tail in E as [E <-].
    exists rest. split; [done|]. exists ws1, ws2.
    split; [by rewrite E, <- !app_assoc|done].
Qed.

Lemma message_end_unique (m m' rest rest' : str) :
  all_of not_newline m -> all_of not_newline m' ->
  (rest = [] \/ exists r, rest = chr "010" :: r) ->
  (rest' = [] \/ exists r, rest' = chr "010" :: r) ->
  m ++ rest = m' ++ rest' -> m = m'.
Proof.
  intros Hm. revert m'. induction Hm as [|a m Ha _ IH]; intros m' Hm' Hr Hr' E.
  - destruct Hm' as [|b m' Hb _]; [done|]. simpl in E.
    destruct Hr as [->|(r & ->)]; [done|]. injection E as <- _. done.
  - destruct Hm' as [|b m' Hb Hm']; simpl in E.
    + destruct Hr' as [->|(r & ->)]; [done|]. injection E as -> _. done.
    + injection E as <- E. f_equal. by apply IH.
Qed.

(** X19: the line feed at the end of a line, as the lines of a file have
    it, changes nothing: a line parses to the same record, or as little,
    with the line feed as without it. *)
Theorem line_feed_ignored (line : str) :
  parse_log_line (line ++ [chr "010"]) = parse_log_line line.
Proof.
  destruct (parse_log_line line) as [d|] eqn:Hp.
  - pose proof Hp as (ws & rest & Hparts & Hrest & Hmax & Hh)%parse_some_reading.
    pose proof (line_parts_more _ _ _ _ _ _ _ [chr "010"] Hparts) as Hparts1.
    destruct (parse_log_line (line ++ [chr "010"])) as [d'|] eqn:Hp'.
    2:{ apply parse_none_wf in Hp'. exfalso. apply Hp'.
        by exists (timestamp d), (level d), (component d), ws, (message d),
          (rest ++ [chr "010"]). }
    pose proof Hp' as (ws' & rest' & Hparts' & Hrest' & Hmax' & Hh')
      %parse_some_reading.
    destruct (line_parts_unique _ _ _ _ _ _ _ _ _ _ _ _ _ Hparts1 Hparts')
      as (Ets & Elvl & Ecomp & Etail1).
    pose proof Hparts' as (rest0 & -> & Hparts0)%line_parts_less.
    destruct (line_parts_unique _ _ _ _ _ _ _ _ _ _ _ _ _ Hparts Hparts0)
      as (_ & _ & _ & Etail).
    assert (Hws : ws = ws' /\ message d ++ rest = message d' ++ rest0).
    { apply app_inj_1; [|done]. apply Nat.le_antisymm.
      - destruct Hparts as (? & ? & _ & _ & _ & _ & _ & _ & Hs & Hm).
        apply (Hmax' ws (message d) (rest ++ [chr "010"])); [|done..].
        by rewrite <- Etail1.
      - destruct Hparts0 as (? & ? & _ & _ & _ & _ & _ & _ & Hs & Hm).
        by apply (Hmax ws' (message d') rest0). }
    destruct Hws as [<- Emsg].
    assert (Hm : message d = message d').
    { destruct Hparts as (? & ? & _ & _ & _ & _ & _ & _ & _ & [_ Hm]).
      destruct Hparts0 as (? & ? & _ & _ & _ & _ & _ & _ & _ & [_ Hm']).
      apply (message_end_unique _ _ rest rest0); [done..| |done].
      destruct rest0 as [|c r]; [by left|]. right.
      destruct Hrest' as [?|(r' & [= -> _])]; [done|]. by exists r. }
    destruct d as [t l c m h], d' as [t' l' c' m' h']. simpl in *.
    subst. done.
  - destruct (parse_log_line (line ++ [chr "010"])) as [d'|] eqn:Hp'; [|done].
    apply parse_none_wf in Hp. exfalso. apply Hp.
    apply parse_some_reading in Hp' as (ws' & rest' & Hparts' & _).
    apply line_parts_less in Hparts' as (rest0 & _ & Hparts0).
    by exists (timestamp d'), (level d'), (component d'), ws', (message d'),
      rest0.
Qed.

End LineFeed.

(** ** A run that fails *)

Section FailedRun.
Context {U : UnicodeData}.


End FailedRun.

(** ** Examples of the further properties *)

Lemma rows_are_positive_witness :
  In one_row
    (_merge_results
       (map (@process_lines ascii_db) [[request_line; error_line]])) /\
  0 <= debug_count one_row /\ 0 <= info_count one_row /\
  0 <= warning_count one_row /\ 0 <= error_count one_row /\
  0 <= critical_count one_row /\ 1 <= row_total one_row.
Proof.
  assert (H : In one_row
    (_merge_results
       (map (@process_lines ascii_db) [[request_line; error_line]])))
    by (vm_compute; left; reflexivity).
  split; [exact H|].
  exact (@rows_are_positive ascii_db [[request_line; error_line]] one_row H).
Defined.

Lemma source_order_free_witness :
  Permutation [cp "a.log"; cp "b.log"] [cp "b.log"; cp "a.log"] /\
  match @process_files ascii_db Sequential two_files
          [cp "a.log"; cp "b.log"] with
  | Ends (inr rows) =>
      @process_files ascii_db Sequential two_files [cp "b.log"; cp "a.log"] =
      Ends (inr rows)
  | Ends (inl _) =>
      exists e,
        @process_files ascii_db Sequential two_files
          [cp "b.log"; cp "a.log"] = Ends (inl e)
  | Hangs => False
  end.
Proof.
  assert (Hp : Permutation [cp "a.log"; cp "b.log"] [cp "b.log"; cp "a.log"])
    by apply perm_swap.
  split; [exact Hp|].
  exact (@source_order_free ascii_db two_files [cp "a.log"; cp "b.log"]
           [cp "b.log"; cp "a.log"] Hp).
Defined.

Lemma report_order_free_witness :
  Permutation [one_row; other_row] [other_row; one_row] /\
  NoDup (map handler_name [one_row; other_row]) /\
  HandlersReport.generate [one_row; other_row] =
  HandlersReport.generate [other_row; one_row].
Proof.
  assert (Hp : Permutation [one_row; other_row] [other_row; one_row])
    by apply perm_swap.
  assert (Hnd : NoDup (map handler_name [one_row; other_row])).
  { simpl. apply NoDup_cons. split.
    - intros [H|H]%elem_of_cons; [discriminate H|by apply elem_of_nil in H].
    - apply NoDup_cons. split; [apply not_elem_of_nil|apply NoDup_nil; done]. }
  split; [exact Hp|]. split; [exact Hnd|].
  exact (report_order_free [one_row; other_row] [other_row; one_row] Hp Hnd).
Defined.

Lemma report_lines_and_columns_witness :
  [one_row; other_row] <> [] /\
  Forall plain_name [one_row; other_row] /\
  count_char (chr "010") (HandlersReport.generate [one_row; other_row]) =
    (length [one_row; other_row] + 3)%nat /\
  count_char (chr "009") (HandlersReport.generate [one_row; other_row]) =
    (5 * (length [one_row; other_row] + 2))%nat.
Proof.
  assert (Hne : [one_row; other_row] <> []) by discriminate.
  assert (Hpl : Forall plain_name [one_row; other_row]).
  { repeat constructor. }
  split; [exact Hne|]. split; [exact Hpl|].
  exact (report_lines_and_columns [one_row; other_row] Hne Hpl).
Defined.

Lemma run_outcome_witness :
  Permutation [1%nat; 0%nat]
    (seq 0 (length (cut [1%nat] [cp "a.log"; cp "b.log"]))) /\
  (exit_code <$> @main ascii_db [1%nat] [1%nat; 0%nat] two_files
                   [cp "a.log"; cp "b.log"] = Some 0 <->
   exists sources,
     Forall2 (fun p lines => two_files p = inr lines)
       [cp "a.log"; cp "b.log"] sources /\
     Exists (fun line => @attributed ascii_db line = true)
       (concat sources)) /\
  (stderr <$> @main ascii_db [1%nat] [1%nat; 0%nat] two_files
                [cp "a.log"; cp "b.log"] =
     Some [cp "No logs found in the provided files"] <->
   exists sources,
     Forall2 (fun p lines => two_files p = inr lines)
       [cp "a.log"; cp "b.log"] sources /\
     Forall (fun line => @attributed ascii_db line = false)
       (concat sources)).
Proof.
  assert (Hp : Permutation [1%nat; 0%nat]
                 (seq 0 (length (cut [1%nat] [cp "a.log"; cp "b.log"]))))
    by apply perm_swap.
  split; [exact Hp|].
  exact (@run_outcome ascii_db two_files [cp "a.log"; cp "b.log"]
           [1%nat] [1%nat; 0%nat] Hp).
Defined.

